(** * Optimal power flow: admittance matrices, AC and DC models, reporters

    A shallow embedding of [opf_corrected.py] and [opf_utils.py].

    - Python floats are IEEE binary64 numbers ([PrimFloat.float]); the
      arithmetic the program performs is collected in the class [PyNum], with
      the binary64 instance [binary64] (what the interpreter computes) and
      the exact instance [exact] over the rationals (what the formulas mean).
    - Exceptions are values of [exn]; code that can raise lives in [result].
    - The module constants [N_BUS], [LINE_DATA] and [BUS_DATA] that the
      functions read as globals are passed as explicit arguments.
    - A Pyomo model is its table of named components; the symbolic
      expressions handed to the solver are trees of type [expr]. *)

From Stdlib Require Import Floats QArith Qcanon ZArith Lia Lqa Psatz Ascii.
From stdpp Require Import base option list gmap strings pretty.

Set Warnings "-inexact-float,-register-all".

(** ** Exceptions and the error monad *)

Inductive exn : Type :=
  | ZeroDivisionError
  | OverflowError
  | IndexError
  | KeyError
  | TypeError
  | ValueError
  | AttributeError (attr : string)
  | SolverError (msg : string).

Inductive result (A : Type) : Type :=
  | Ok (a : A)
  | Raise (e : exn).
Arguments Ok {A} a.
Arguments Raise {A} e.

#[export] Instance result_ret : MRet result := @Ok.
#[export] Instance result_bind : MBind result :=
  λ A B f r, match r with Ok a => f a | Raise e => Raise e end.
#[export] Instance result_fmap : FMap result :=
  λ A B f r, match r with Ok a => Ok (f a) | Raise e => Raise e end.

(** A [for] loop whose body may raise: the state is threaded through the
    iterations and the first exception ends the loop. *)
Fixpoint for_each {A S : Type} (xs : list A) (body : S → A → result S) (s : S)
  : result S :=
  match xs with
  | [] => Ok s
  | x :: xs' => s' ← body s x; for_each xs' body s'
  end.

(** [dict[k]] on a dictionary, [KeyError] when the key is missing. *)
Definition getitem `{Lookup K V M} (d : M) (k : K) : result V :=
  match d !! k with Some v => Ok v | None => Raise KeyError end.

(** ** Numbers *)

(** The operations of Python's [float] that the admittance builder uses.
    [npow2 x] is [x ** 2] and [ndiv a b] is [a / b]; both can raise.
    [nis0 x] is [x == 0]. *)
Class PyNum (num : Type) : Type := {
  nzero : num;
  nadd : num → num → num;
  nsub : num → num → num;
  nneg : num → num;
  npow2 : num → result num;
  ndiv : num → num → result num;
  nis0 : num → bool
}.

(** *** binary64: the interpreter's arithmetic *)

(** [float.__pow__] with exponent 2. The interpreter calls [pow(x, 2.0)] of
    the C library and raises [OverflowError] when a finite base gives an
    infinite result; underflow silently gives 0. The C library's [pow] is
    taken here to return the correctly rounded square, which is the
    product [x * x]; a library whose [pow] is not correctly rounded can
    differ from it in the last bit of a square that is not exact. What is
    proved below about the quadratic cost of the AC model does not depend
    on which of the two it is: no value of that cost is stated. *)
Definition float_pow2 (x : float) : result float :=
  let y := (x * x)%float in
  if PrimFloat.is_infinity y && negb (PrimFloat.is_infinity x)
  then Raise OverflowError else Ok y.

(** [float.__truediv__]: a zero divisor (of either sign) raises. *)
Definition float_truediv (a b : float) : result float :=
  if (b =? 0)%float then Raise ZeroDivisionError else Ok (a / b)%float.

#[export] Instance binary64 : PyNum float := {|
  nzero := 0%float;
  nadd := PrimFloat.add;
  nsub := PrimFloat.sub;
  nneg := PrimFloat.opp;
  npow2 := float_pow2;
  ndiv := float_truediv;
  nis0 := λ x, (x =? 0)%float
|}.

(** *** Exact rationals: the arithmetic of the formulas *)

Definition Qc_truediv (a b : Qc) : result Qc :=
  if decide (b = 0%Qc) then Raise ZeroDivisionError else Ok (a / b)%Qc.

#[export] Instance exact : PyNum Qc := {|
  nzero := 0%Qc;
  nadd := Qcplus;
  nsub := Qcminus;
  nneg := Qcopp;
  npow2 := λ x, Ok (x * x)%Qc;
  ndiv := Qc_truediv;
  nis0 := λ x, bool_decide (x = 0%Qc)
|}.

(** ** The admittance builder *)

(** A line record [(from_bus, to_bus, resistance, reactance)]. Bus numbers
    are Python integers. *)
Abbreviation line num := (Z * Z * num * num)%type.

(** A two-dimensional [numpy] array, row by row. *)
Abbreviation matrix num := (list (list num)).

Section Admittance.
Context {num : Type} `{!PyNum num}.
Implicit Types (M G B : matrix num) (l : line num).

Definition np_zeros (rows cols : nat) : matrix num :=
  replicate rows (replicate cols nzero).

Definition nrows (M : matrix num) : nat := length M.
Definition ncols (M : matrix num) : nat :=
  match M with [] => 0 | r :: _ => length r end.

(** [numpy] indexing along an axis of length [n]: [0 .. n-1] as they are,
    [-n .. -1] counted from the end, anything else is an [IndexError]. *)
Definition np_index (n : nat) (i : Z) : result nat :=
  if bool_decide (0 ≤ i < Z.of_nat n)%Z then Ok (Z.to_nat i)
  else if bool_decide (- Z.of_nat n ≤ i < 0)%Z then Ok (Z.to_nat (i + Z.of_nat n))
  else Raise IndexError.

(** The entry at a position already known to be inside the array. *)
Definition mget (M : matrix num) (a b : nat) : option num :=
  M !! a ≫= (.!! b).

(** [M[i, j]]. *)
Definition np_getitem (M : matrix num) (i j : Z) : result num :=
  a ← np_index (nrows M) i;
  b ← np_index (ncols M) j;
  match mget M a b with Some v => Ok v | None => Raise IndexError end.

(** [M[i, j] = f(M[i, j])], the shape of [+=] and [-=]. *)
Definition np_update (f : num → num) (M : matrix num) (i j : Z) : result (matrix num) :=
  a ← np_index (nrows M) i;
  b ← np_index (ncols M) j;
  Ok (alter (alter f b) a M).

(** [M[i, j] += v] and [M[i, j] -= v]. *)
Definition np_iadd (M : matrix num) (i j : Z) (v : num) : result (matrix num) :=
  np_update (λ e, nadd e v) M i j.
Definition np_isub (M : matrix num) (i j : Z) (v : num) : result (matrix num) :=
  np_update (λ e, nsub e v) M i j.

(** The three assignments at the top of the loop body:
    [z_sq = r**2 + x**2; g_ij = r / z_sq; b_ij = -x / z_sq]. *)
Definition line_admittance (r x : num) : result (num * num) :=
  r2 ← npow2 r;
  x2 ← npow2 x;
  let z_sq := nadd r2 x2 in
  g_ij ← ndiv r z_sq;
  b_ij ← ndiv (nneg x) z_sq;
  Ok (g_ij, b_ij).

(** The four updates of one matrix: [M[i,i] += v; M[j,j] += v;
    M[i,j] -= v; M[j,i] -= v]. *)
Definition stamp (M : matrix num) (i j : Z) (v : num) : result (matrix num) :=
  M ← np_iadd M i i v;
  M ← np_iadd M j j v;
  M ← np_isub M i j v;
  np_isub M j i v.

(** The loop body of [build_admittance_matrices]. *)
Definition stamp_line (GB : matrix num * matrix num) (l : line num)
  : result (matrix num * matrix num) :=
  let '(i, j, r, x) := l in
  '(g_ij, b_ij) ← line_admittance r x;
  G ← stamp GB.1 i j g_ij;
  B ← stamp GB.2 i j b_ij;
  Ok (G, B).

Definition build_admittance_matrices (N_BUS : nat) (LINE_DATA : list (line num))
  : result (matrix num * matrix num) :=
  let G := np_zeros N_BUS N_BUS in
  let B := np_zeros N_BUS N_BUS in
  for_each LINE_DATA stamp_line (G, B).
End Admittance.


(** A line of floats, as the source writes its tuples. *)
Definition Line (i j : Z) (r x : float) : line float := (i, j, r, x).

(** The repository's own line table. *)
Definition LINE_DATA : list (line float) :=
  [ Line 0 1 0.02 0.06; Line 0 2 0.08 0.24; Line 1 2 0.06 0.18;
    Line 1 3 0.06 0.18; Line 1 4 0.04 0.12; Line 2 3 0.01 0.03;
    Line 3 4 0.08 0.24 ].

Definition N_BUS : nat := 5.


(** ** Bus data *)

(** [BUS_DATA]: bus number to a dictionary of named quantities. *)
Abbreviation bus_table := (gmap nat (gmap string float)).

Definition bus_row (PGmax PGmin QGmax QGmin Pload Qload Vmax Vmin a b c : float)
  : gmap string float :=
  list_to_map
    [ ("PGmax", PGmax); ("PGmin", PGmin); ("QGmax", QGmax); ("QGmin", QGmin);
      ("Pload", Pload); ("Qload", Qload); ("Vmax", Vmax); ("Vmin", Vmin);
      ("a", a); ("b", b); ("c", c) ].

Definition BUS_DATA : bus_table :=
  list_to_map
    [ (0, bus_row 2.0 0.0 1.5 (-1.5) 0.0 0.0 1.06 1.06 0.0 14.0 0.0);
      (1, bus_row 0.8 0.0 0.6 (-0.4) 0.2 0.1 1.05 0.95 15.0 16.0 10.0);
      (2, bus_row 0.5 0.0 0.4 (-0.3) 0.45 0.15 1.05 0.95 18.0 20.0 12.0);
      (3, bus_row 0.0 0.0 0.0 0.0 0.40 0.05 1.05 0.95 0.0 0.0 0.0);
      (4, bus_row 0.0 0.0 0.0 0.0 0.60 0.10 1.05 0.95 0.0 0.0 0.0) ].

(** [BUS_DATA[i][key]]. *)
Definition bus_field (BUS_DATA : bus_table) (i : nat) (key : string)
  : result float :=
  row ← getitem BUS_DATA i; getitem row key.

Definition range (n : nat) : list nat := seq 0 n.

(** A list comprehension with a condition that may raise. *)
Fixpoint filterM {A : Type} (p : A → result bool) (xs : list A)
  : result (list A) :=
  match xs with
  | [] => Ok []
  | x :: xs' => b ← p x; r ← filterM p xs'; Ok (if b : bool then x :: r else r)
  end.

(** A dictionary comprehension [{i: f(i) for i in keys}]. *)
Definition dict_comp (keys : list nat) (f : nat → result float)
  : result (gmap nat float) :=
  for_each keys (λ d i, v ← f i; Ok (<[i := v]> d)) ∅.

(** [sum(f(i) for i in xs)] on floats: left to right, starting from 0. *)
Definition py_sum (xs : list nat) (f : nat → result float) : result float :=
  for_each xs (λ acc i, v ← f i; Ok (acc + v)%float) 0%float.

(** [GEN_BUSES = [i for i in range(N_BUS) if BUS_DATA[i]['PGmax'] > 0]]. *)
Definition GEN_BUSES (N_BUS : nat) (BUS_DATA : bus_table) : result (list nat) :=
  filterM (λ i, pgmax ← bus_field BUS_DATA i "PGmax"; Ok (0 <? pgmax)%float)
          (range N_BUS).

(** [LOAD_BUSES = [i for i in range(N_BUS) if i not in GEN_BUSES]]. *)
Definition LOAD_BUSES (N_BUS : nat) (GEN : list nat) : list nat :=
  filter (λ i, i ∉ GEN) (range N_BUS).

(** ** Pyomo models *)

(** Symbolic expressions, as the rules write them with the overloaded
    operators. [EVar c i] is the variable [m.c[i]]; [ENum] a plain float;
    [EPow2 e] is [e ** 2]. The trees record the operations in the order of
    the program text; the library may store a sum without the 0 it starts
    from or drop a product with a zero coefficient, which changes no value
    on finite numbers; it may also store a sum of sums as one sum of all
    the terms, which leaves a sum of products as it is and can change the
    last bit of the value of a sum of sums, such as the quadratic cost. *)
Inductive expr : Type :=
  | ENum (v : float)
  | EVar (comp : string) (idx : nat)
  | EAdd (e1 e2 : expr)
  | ESub (e1 e2 : expr)
  | EMul (e1 e2 : expr)
  | EPow2 (e : expr)
  | ECos (e : expr)
  | ESin (e : expr).

(** [sum(...)] over expressions: Python's [sum] starts from 0 and adds the
    terms from left to right. *)
Definition sum_expr (ts : list expr) : expr :=
  foldl EAdd (ENum 0) ts.

Inductive var_domain : Type := Reals | NonNegativeReals.
Inductive sense : Type := minimize | maximize.

(** One variable of an indexed [Var]. *)
Record VarData : Type := mkVarData {
  value : option float;
  fixed : bool;
  lb : option float;
  ub : option float;
  domain : var_domain
}.

(** An equality constraint [lhs == rhs]. *)
Record relation : Type := EqualityExpression { lhs : expr; rhs : expr }.

Inductive component : Type :=
  | CSet (members : list nat)
  | CParam (vals : gmap nat float)
  | CVar (data : gmap nat VarData)
  | CObjective (e : expr) (s : sense)
  | CConstraint (body : gmap nat relation).

(** A model: its name and the components set as attributes on it. *)
Record model : Type := mkModel {
  name : string;
  components : gmap string component
}.

Definition ConcreteModel (nm : string) : model :=
  {| name := nm; components := ∅ |}.

(** [m.attr = c] and [m.attr]. *)
Definition setattr (m : model) (attr : string) (c : component) : model :=
  {| name := name m; components := <[attr := c]> (components m) |}.

Definition getattr (m : model) (attr : string) : result component :=
  match components m !! attr with
  | Some c => Ok c
  | None => Raise (AttributeError attr)
  end.

(** [pyo.Var(index, within=dom, initialize=init)]; a dictionary initializer
    is sparse, an index it lacks starts without a value. *)
Definition Var (index : list nat) (dom : var_domain)
    (initialize : nat → option float) : component :=
  CVar (list_to_map
          ((λ i, (i, mkVarData (initialize i) false None None dom)) <$> index)).

(** [pyo.Var(index, within=dom, initialize=d)] for a dictionary [d]. When
    the variable is constructed every key of [d] is looked up in the
    variable, so a key that is no member of the index set raises [KeyError];
    an index that is no key of [d] starts without a value. *)
Definition Var_from_dict (index : list nat) (dom : var_domain)
    (d : gmap nat float) : result component :=
  if forallb (λ k, bool_decide (k ∈ index)) (map_to_list d).*1
  then Ok (Var index dom (λ i, d !! i))
  else Raise KeyError.

(** [m.c[i]] for an indexed variable. *)
Definition var_data (m : model) (c : string) (i : nat) : result VarData :=
  comp ← getattr m c;
  match comp with
  | CVar d => getitem d i
  | _ => Raise TypeError
  end.

(** A method call on [m.c[i]] that changes the variable in place. *)
Definition var_update (c : string) (i : nat) (f : VarData → VarData)
    (m : model) : result model :=
  comp ← getattr m c;
  match comp with
  | CVar d => vd ← getitem d i; Ok (setattr m c (CVar (<[i := f vd]> d)))
  | _ => Raise TypeError
  end.

(** [.fix(v)], [.setlb(v)], [.setub(v)]. *)
Definition fix_ (v : float) (vd : VarData) : VarData :=
  mkVarData (Some v) true (lb vd) (ub vd) (domain vd).
Definition setlb (v : float) (vd : VarData) : VarData :=
  mkVarData (value vd) (fixed vd) (Some v) (ub vd) (domain vd).
Definition setub (v : float) (vd : VarData) : VarData :=
  mkVarData (value vd) (fixed vd) (lb vd) (Some v) (domain vd).

(** [m.c[i]] used inside an expression. *)
Definition var_ref (m : model) (c : string) (i : nat) : result expr :=
  _ ← var_data m c i; Ok (EVar c i).

(** [m.c[i]] for a parameter: its float. *)
Definition param_get (m : model) (c : string) (i : nat) : result float :=
  comp ← getattr m c;
  match comp with
  | CParam d => getitem d i
  | _ => Raise TypeError
  end.

(** [pyo.Constraint(index, rule=rule)]: the rule is called once per index. *)
Definition Constraint (index : list nat) (rule : nat → result relation)
  : result component :=
  body ← for_each index (λ d i, r ← rule i; Ok (<[i := r]> d)) ∅;
  Ok (CConstraint body).

(** The items of a generator expression [f(x) for x in xs], each of which
    may raise. *)
Fixpoint mapM {A B : Type} (f : A → result B) (xs : list A) : result (list B) :=
  match xs with
  | [] => Ok []
  | x :: xs' => y ← f x; ys ← mapM f xs'; Ok (y :: ys)
  end.

Definition np_pi : float := 3.141592653589793%float.

(** *** The AC model *)

(** [p_balance_rule] and [q_balance_rule] of the AC model; [G], [B] and
    [N_BUS] are the variables the closures capture. *)
Definition ac_p_balance_rule (G B : matrix float) (N_BUS : nat)
    (m : model) (i : nat) : result relation :=
  terms ← mapM (λ k,
      Vi ← var_ref m "V" i; Vk ← var_ref m "V" k;
      Gik ← np_getitem G (Z.of_nat i) (Z.of_nat k);
      ti ← var_ref m "theta" i; tk ← var_ref m "theta" k;
      Bik ← np_getitem B (Z.of_nat i) (Z.of_nat k);
      ti' ← var_ref m "theta" i; tk' ← var_ref m "theta" k;
      Ok (EMul (EMul Vi Vk)
               (EAdd (EMul (ENum Gik) (ECos (ESub ti tk)))
                     (EMul (ENum Bik) (ESin (ESub ti' tk'))))))
    (range N_BUS);
  let Pflow := sum_expr terms in
  Pg ← var_ref m "Pg" i;
  Pload ← param_get m "Pload" i;
  Ok (EqualityExpression (ESub Pg (ENum Pload)) Pflow).

Definition ac_q_balance_rule (G B : matrix float) (N_BUS : nat)
    (m : model) (i : nat) : result relation :=
  terms ← mapM (λ k,
      Vi ← var_ref m "V" i; Vk ← var_ref m "V" k;
      Gik ← np_getitem G (Z.of_nat i) (Z.of_nat k);
      ti ← var_ref m "theta" i; tk ← var_ref m "theta" k;
      Bik ← np_getitem B (Z.of_nat i) (Z.of_nat k);
      ti' ← var_ref m "theta" i; tk' ← var_ref m "theta" k;
      Ok (EMul (EMul Vi Vk)
               (ESub (EMul (ENum Gik) (ESin (ESub ti tk)))
                     (EMul (ENum Bik) (ECos (ESub ti' tk'))))))
    (range N_BUS);
  let Qflow := sum_expr terms in
  Qg ← var_ref m "Qg" i;
  Qload ← param_get m "Qload" i;
  Ok (EqualityExpression (ESub Qg (ENum Qload)) Qflow).

(** One term of the quadratic cost, [a * Pg[i]**2 + b * Pg[i] + c]. *)
Definition ac_cost_term (BUS_DATA : bus_table) (m : model) (i : nat)
  : result expr :=
  a ← bus_field BUS_DATA i "a";
  Pg ← var_ref m "Pg" i;
  b ← bus_field BUS_DATA i "b";
  Pg' ← var_ref m "Pg" i;
  c ← bus_field BUS_DATA i "c";
  Ok (EAdd (EAdd (EMul (ENum a) (EPow2 Pg)) (EMul (ENum b) Pg')) (ENum c)).

(** The body of the loop that sets the bounds of the AC variables. *)
Definition ac_set_bounds (BUS_DATA : bus_table) (m : model) (i : nat)
  : result model :=
  v ← bus_field BUS_DATA i "PGmin"; m ← var_update "Pg" i (setlb v) m;
  v ← bus_field BUS_DATA i "PGmax"; m ← var_update "Pg" i (setub v) m;
  v ← bus_field BUS_DATA i "QGmin"; m ← var_update "Qg" i (setlb v) m;
  v ← bus_field BUS_DATA i "QGmax"; m ← var_update "Qg" i (setub v) m;
  v ← bus_field BUS_DATA i "Vmin"; m ← var_update "V" i (setlb v) m;
  v ← bus_field BUS_DATA i "Vmax"; m ← var_update "V" i (setub v) m;
  m ← var_update "theta" i (setlb (- np_pi)%float) m;
  var_update "theta" i (setub np_pi) m.

(** The body of the loop over [LOAD_BUSES]. *)
Definition ac_fix_load (m : model) (i : nat) : result model :=
  m ← var_update "Pg" i (fix_ 0) m;
  var_update "Qg" i (fix_ 0) m.

(** [build_ac_model]. The sets [GEN_BUSES] and [LOAD_BUSES] are computed
    when the module is loaded, so before anything the function does. *)
Definition build_ac_model (N_BUS : nat) (BUS_DATA : bus_table)
    (LINE_DATA : list (line float)) : result model :=
  GEN ← GEN_BUSES N_BUS BUS_DATA;
  let LOAD := LOAD_BUSES N_BUS GEN in
  '(G, B) ← build_admittance_matrices N_BUS LINE_DATA;
  let m := ConcreteModel "AC_OPF" in
  let buses := range N_BUS in
  let m := setattr m "buses" (CSet buses) in
  pload ← dict_comp (range N_BUS) (λ i, bus_field BUS_DATA i "Pload");
  let m := setattr m "Pload" (CParam pload) in
  qload ← dict_comp (range N_BUS) (λ i, bus_field BUS_DATA i "Qload");
  let m := setattr m "Qload" (CParam qload) in
  total_load ← py_sum (range N_BUS) (λ i, bus_field BUS_DATA i "Pload");
  Pg ← Var_from_dict buses Reals
          (list_to_map [(0, total_load); (1, 0.1%float); (2, 0.1%float);
                        (3, 0%float); (4, 0%float)]);
  let m := setattr m "Pg" Pg in
  let m := setattr m "Qg" (Var buses Reals (λ _, Some 0%float)) in
  let m := setattr m "V"
    (Var buses NonNegativeReals
         (λ i, Some (if decide (i = 0) then 1.06%float else 1.0%float))) in
  let m := setattr m "theta" (Var buses Reals (λ _, Some 0%float)) in
  m ← var_update "V" 0 (fix_ 1.06) m;
  m ← var_update "theta" 0 (fix_ 0.0) m;
  m ← for_each LOAD ac_fix_load m;
  m ← for_each (range N_BUS) (ac_set_bounds BUS_DATA) m;
  cost ← mapM (ac_cost_term BUS_DATA m) GEN;
  let m := setattr m "obj" (CObjective (sum_expr cost) minimize) in
  p_balance ← Constraint buses (ac_p_balance_rule G B N_BUS m);
  let m := setattr m "p_balance" p_balance in
  q_balance ← Constraint buses (ac_q_balance_rule G B N_BUS m);
  let m := setattr m "q_balance" q_balance in
  Ok m.

(** *** The DC model *)

(** [p_balance_rule] of the DC model. *)
Definition dc_p_balance_rule (B : matrix float) (N_BUS : nat)
    (m : model) (i : nat) : result relation :=
  terms ← mapM (λ k,
      Bik ← np_getitem B (Z.of_nat i) (Z.of_nat k);
      ti ← var_ref m "theta" i; tk ← var_ref m "theta" k;
      Ok (EMul (ENum Bik) (ESub ti tk)))
    (range N_BUS);
  let Pflow := sum_expr terms in
  Pg ← var_ref m "Pg" i;
  Pload ← param_get m "Pload" i;
  Ok (EqualityExpression (ESub Pg (ENum Pload)) Pflow).

(** One term of the linear cost, [b * Pg[i]]. *)
Definition dc_cost_term (BUS_DATA : bus_table) (m : model) (i : nat)
  : result expr :=
  b ← bus_field BUS_DATA i "b";
  Pg ← var_ref m "Pg" i;
  Ok (EMul (ENum b) Pg).

(** The body of the loop that sets the bounds of the DC variables. *)
Definition dc_set_bounds (BUS_DATA : bus_table) (m : model) (i : nat)
  : result model :=
  v ← bus_field BUS_DATA i "PGmin"; m ← var_update "Pg" i (setlb v) m;
  v ← bus_field BUS_DATA i "PGmax"; m ← var_update "Pg" i (setub v) m;
  m ← var_update "theta" i (setlb (- np_pi)%float) m;
  var_update "theta" i (setub np_pi) m.

(** [build_dc_model], with [GEN_BUSES] and [LOAD_BUSES] as above. *)
Definition build_dc_model (N_BUS : nat) (BUS_DATA : bus_table)
    (LINE_DATA : list (line float)) : result model :=
  GEN ← GEN_BUSES N_BUS BUS_DATA;
  let LOAD := LOAD_BUSES N_BUS GEN in
  '(_, B) ← build_admittance_matrices N_BUS LINE_DATA;
  let m := ConcreteModel "DC_OPF" in
  let buses := range N_BUS in
  let m := setattr m "buses" (CSet buses) in
  pload ← dict_comp (range N_BUS) (λ i, bus_field BUS_DATA i "Pload");
  let m := setattr m "Pload" (CParam pload) in
  let m := setattr m "Pg" (Var buses Reals (λ _, Some 0%float)) in
  let m := setattr m "theta" (Var buses Reals (λ _, Some 0%float)) in
  m ← var_update "theta" 0 (fix_ 0.0) m;
  m ← for_each LOAD (λ m i, var_update "Pg" i (fix_ 0.0) m) m;
  m ← for_each (range N_BUS) (dc_set_bounds BUS_DATA) m;
  cost ← mapM (dc_cost_term BUS_DATA m) GEN;
  let m := setattr m "obj" (CObjective (sum_expr cost) minimize) in
  p_balance ← Constraint buses (dc_p_balance_rule B N_BUS m);
  let m := setattr m "p_balance" p_balance in
  Ok m.

(** ** Reporting *)

(** Python values that reach the output. *)
Inductive pyobj : Type :=
  | PNone
  | PStr (s : string)
  | PInt (z : Z)
  | PFloat (f : float)
  | PDict (items : list (string * pyobj)).

(** A piece of an f-string: literal text, or a value with its format
    specification (the text after the colon, empty when there is none). *)
Inductive piece : Type :=
  | Lit (s : string)
  | Fmt (v : pyobj) (spec : string).

(** What a reporter does to the outside world. *)
Inductive event : Type :=
  | Print (text : list piece)
  | WriteFile (filename : string) (doc : pyobj).

(** Code that prints and may raise: the events so far and the outcome. *)
Definition io (A : Type) : Type := list event * result A.

#[export] Instance io_ret : MRet io := λ A a, ([], Ok a).
#[export] Instance io_bind : MBind io :=
  λ A B f x,
    match x.2 with
    | Ok a => (x.1 ++ (f a).1, (f a).2)
    | Raise e => (x.1, Raise e)
    end.

Definition lift {A : Type} (r : result A) : io A := ([], r).
Definition print (text : list piece) : io unit := ([Print text], Ok tt).
Definition write_file (filename : string) (doc : pyobj) : io unit :=
  ([WriteFile filename doc], Ok tt).

Fixpoint io_for {A S : Type} (xs : list A) (body : S → A → io S) (s : S) : io S :=
  match xs with
  | [] => mret s
  | x :: xs' => s' ← body s x; io_for xs' body s'
  end.

Definition NL : string := String "010"%char EmptyString.
Definition TAB : string := String "009"%char EmptyString.

(** ["-" * n]. *)
Fixpoint dashes (n : nat) : string :=
  match n with O => EmptyString | S n' => String "-"%char (dashes n') end.

(** [np.degrees]: multiplication by the double nearest to 180/pi. *)
Definition np_degrees (x : float) : float := (x * 57.29577951308232)%float.

(** [for i in m.attr] where the attribute is a set, the only components the
    reporters iterate over; iteration over another kind of component is not
    modelled and stands as a [TypeError]. *)
Definition iter_set (m : model) (attr : string) : result (list nat) :=
  c ← getattr m attr;
  match c with
  | CSet members => Ok members
  | _ => Raise TypeError
  end.

(** [x if x is not None else 0.0]. *)
Definition or_zero (v : option float) : float := default 0%float v.

(** What [m.attr[i]] can be. *)
Inductive item : Type :=
  | IVar (vd : VarData)
  | IFloat (v : float)
  | IInt (n : nat)
  | IRelation (r : relation).

(** [m.attr[i]] on any component: a variable, a parameter's float, a
    constraint, the [i]-th member of a set (counted from 1). *)
Definition index_component (m : model) (attr : string) (i : nat) : result item :=
  c ← getattr m attr;
  match c with
  | CVar d => vd ← getitem d i; Ok (IVar vd)
  | CParam d => v ← getitem d i; Ok (IFloat v)
  | CConstraint d => r ← getitem d i; Ok (IRelation r)
  | CSet members =>
      match i with
      | O => Raise IndexError
      | S i' => match members !! i' with
                | Some n => Ok (IInt n)
                | None => Raise IndexError
                end
      end
  | CObjective _ _ => Raise KeyError
  end.

(** [x.value if hasattr(x, 'value') else None]: only variables have a
    [value]. *)
Definition value_or_None (x : item) : option float :=
  match x with IVar vd => value vd | _ => None end.

Definition py_of (v : option float) : pyobj :=
  match v with Some f => PFloat f | None => PNone end.

(** [d[k] = v] on a dictionary kept in insertion order. *)
Fixpoint dict_set (d : list (string * pyobj)) (k : string) (v : pyobj)
  : list (string * pyobj) :=
  match d with
  | [] => [(k, v)]
  | (k', v') :: d' =>
      if decide (k' = k) then (k, v) :: d' else (k', v') :: dict_set d' k v
  end.

(** What a solver hands back: for the variable [m.c[i]] a value, or none. *)
Definition solution : Type := string → nat → option float.

(** Loading a solution: a fixed variable is a constant of the problem and
    keeps its value, every other variable takes the solver's. *)
Definition load_var (v : option float) (vd : VarData) : VarData :=
  if fixed vd then vd
  else mkVarData v (fixed vd) (lb vd) (ub vd) (domain vd).

Definition load_component (sol : solution) (c : string) (comp : component)
  : component :=
  match comp with
  | CVar d => CVar (map_imap (λ i vd, Some (load_var (sol c i) vd)) d)
  | _ => comp
  end.

Definition load_solution (sol : solution) (m : model) : model :=
  {| name := name m;
     components := map_imap (λ c comp, Some (load_component sol c comp))
                            (components m) |}.

Section Reporters.
(** The math library's cosine and sine, and the solver behind
    [SolverFactory] and [SolverManagerFactory]: given the solver's name and
    a model it raises, or returns a results object and the values it found,
    which are loaded into the model. *)
Variables (libm_cos libm_sin : float → float).
Variable SolverResults : Type.
Variable solve : string → model → result (solution * SolverResults).

(** [pyo.value(e)] with the variables read through [val]. *)
Fixpoint pyo_value (val : string → nat → result float) (e : expr)
  : result float :=
  match e with
  | ENum v => Ok v
  | EVar c i => val c i
  | EAdd e1 e2 =>
      x ← pyo_value val e1; y ← pyo_value val e2; Ok (x + y)%float
  | ESub e1 e2 =>
      x ← pyo_value val e1; y ← pyo_value val e2; Ok (x - y)%float
  | EMul e1 e2 =>
      x ← pyo_value val e1; y ← pyo_value val e2; Ok (x * y)%float
  | EPow2 e1 => x ← pyo_value val e1; float_pow2 x
  | ECos e1 => x ← pyo_value val e1; Ok (libm_cos x)
  | ESin e1 => x ← pyo_value val e1; Ok (libm_sin x)
  end.

(** The current value of [m.c[i]]; a variable without a value cannot be
    evaluated. *)
Definition model_val (m : model) (c : string) (i : nat) : result float :=
  vd ← var_data m c i;
  match value vd with Some v => Ok v | None => Raise ValueError end.

(** [pyo.value(m.attr)] for an objective. *)
Definition objective_value (m : model) (attr : string) : result float :=
  c ← getattr m attr;
  match c with
  | CObjective e _ => pyo_value (model_val m) e
  | _ => Raise TypeError
  end.

(** *** [print_results] of [opf_corrected.py] *)

Definition print_results_row (m : model) (ac : bool) (i : nat) : io unit :=
  Pg ← lift (var_data m "Pg" i);
  let pg := or_zero (value Pg) in
  th ← lift (var_data m "theta" i);
  let theta := or_zero (np_degrees <$> value th) in
  let line := [Fmt (PInt (Z.of_nat i + 1)) "<6"; Fmt (PFloat pg) "<12.4f";
               Fmt (PFloat theta) "<14.4f"] in
  if ac then
    V ← lift (var_data m "V" i);
    let v := or_zero (value V) in
    Qg ← lift (var_data m "Qg" i);
    let qg := or_zero (value Qg) in
    print (line ++ [Fmt (PFloat v) "<12.4f"; Fmt (PFloat qg) "<12.4f"])
  else print line.

Definition print_results (m : model) (ac : bool) : io float :=
  _ ← print [Lit (NL +:+ dashes 60)];
  _ ← print [Lit "RESULTS"];
  _ ← print [Lit (dashes 60)];
  let header := [Fmt (PStr "Bus") "<6"; Fmt (PStr "Pg (MW)") "<12";
                 Fmt (PStr "Theta (deg)") "<14"] in
  let header :=
    if ac then header ++ [Fmt (PStr "|V| (pu)") "<12";
                          Fmt (PStr "Qg (MVAr)") "<12"]
    else header in
  _ ← print header;
  _ ← print [Lit (dashes 60)];
  buses ← lift (iter_set m "buses");
  _ ← io_for buses (λ _ i, print_results_row m ac i) tt;
  cost ← lift (objective_value m "obj");
  _ ← print [Lit (NL +:+ "Total Generation Cost: "); Fmt (PFloat cost) ".4f"];
  mret cost.

(** *** [solve_and_print] of [opf_utils.py] *)

(** One row of a table: the value when the entry has one, the text
    [Not solved] otherwise. *)
Definition print_entry (model : model) (attr : string) (i : nat) : io unit :=
  x ← lift (index_component model attr i);
  match value_or_None x with
  | Some v =>
      print [Fmt (PInt (Z.of_nat i + 1)) ""; Lit (" " +:+ TAB +:+ TAB +:+ " ");
             Fmt (PFloat v) ""]
  | None =>
      print [Fmt (PInt (Z.of_nat i + 1)) "";
             Lit (" " +:+ TAB +:+ TAB +:+ " Not solved")]
  end.

Definition print_table (model : model) (title attr : string) : io unit :=
  _ ← print [Lit title];
  nodes ← lift (iter_set model "nodes");
  io_for nodes (λ _ i, print_entry model attr i) tt.

Definition solve_and_print (model : model) (AC : bool) : io SolverResults :=
  '(sol, results) ← lift (solve (if AC then "conopt" else "glpk") model);
  let model := load_solution sol model in
  _ ← print [Lit (NL +:+ NL +:+ "Solution" +:+ NL)];
  _ ← print_table model (NL +:+ "Node" +:+ TAB +:+ TAB +:+ "Voltage angle [deg]")
                  "x_v_angle";
  _ ← (if AC
       then print_table model (NL +:+ "Node" +:+ TAB +:+ TAB +:+ "Voltage magnitude")
                        "x_v"
       else mret tt);
  _ ← print_table model (NL +:+ "Node" +:+ TAB +:+ TAB +:+ "Power") "x_p";
  _ ← (if AC
       then print_table model (NL +:+ "Node" +:+ TAB +:+ TAB +:+ "Reactive Power")
                        "x_q"
       else mret tt);
  objective ← lift (getattr model "objective_function");
  _ ← match objective with
      | CObjective _ _ =>
          obj_value ← lift (objective_value model "objective_function");
          print [Lit (NL +:+ "Cost:  "); Fmt (PFloat obj_value) ""]
      | _ => mret tt
      end;
  mret results.

(** *** [create_results_json] of [opf_utils.py] *)

Definition node_entry (model : model) (AC : bool)
    (nodes : list (string * pyobj)) (i : nat) : io (list (string * pyobj)) :=
  angle ← lift (index_component model "x_v_angle" i);
  power ← lift (index_component model "x_p" i);
  let node_data := [("voltage_angle", py_of (value_or_None angle));
                    ("power", py_of (value_or_None power))] in
  node_data ←
    (if AC then
       magnitude ← lift (index_component model "x_v" i);
       let node_data :=
         dict_set node_data "voltage_magnitude" (py_of (value_or_None magnitude)) in
       reactive ← lift (index_component model "x_q" i);
       mret (dict_set node_data "reactive_power" (py_of (value_or_None reactive)))
     else mret node_data);
  mret (dict_set nodes ("node_" +:+ pretty (i + 1)) (PDict node_data)).

Definition create_results_json (model : model) (team_name : string) (AC : bool)
  : io pyobj :=
  let model_type := if AC then "AC_OPF" else "DC_OPF" in
  ids ← lift (iter_set model "nodes");
  nodes ← io_for ids (node_entry model AC) [];
  let results := [("team_name", PStr team_name); ("model_type", PStr model_type);
                  ("nodes", PDict nodes)] in
  objective ← lift (getattr model "objective_function");
  results ←
    match objective with
    | CObjective _ _ =>
        total ← lift (objective_value model "objective_function");
        mret (dict_set results "total_cost" (PFloat total))
    | _ => mret results
    end;
  let filename :=
    team_name +:+ "_" +:+ (if AC then "AC" else "DC") +:+ "_results.json" in
  _ ← write_file filename (PDict results);
  _ ← print [Lit (NL +:+ "Results saved to "); Fmt (PStr filename) ""];
  mret (PDict results).
End Reporters.

(** ** The admittance matrices entry by entry *)

Section AdmittanceEntries.
Context {num : Type} `{!PyNum num}.

(** What one line between the buses [i] and [j] with admittance [v] does
    to the entry in row [a] and column [c]: [v] is added on the two
    diagonal positions and subtracted on the two off-diagonal ones, in the
    order of the four updates. *)
Definition stamp_entry (a c i j : nat) (v e : num) : num :=
  let e := if decide (a = i ∧ c = i) then nadd e v else e in
  let e := if decide (a = j ∧ c = j) then nadd e v else e in
  let e := if decide (a = i ∧ c = j) then nsub e v else e in
  if decide (a = j ∧ c = i) then nsub e v else e.

(** The entries [G[a][c]] and [B[a][c]] after all the lines, starting from
    [e]: every line contributes its own [g] and [b], one after the other. *)
Definition entries_after (N_BUS : nat) (LINE_DATA : list (line num))
    (a c : nat) (e : num * num) : result (num * num) :=
  for_each LINE_DATA
    (λ e l, let '(i, j, r, x) := l in
            '(g, b) ← line_admittance r x;
            i' ← np_index N_BUS i;
            j' ← np_index N_BUS j;
            Ok (stamp_entry a c i' j' g e.1, stamp_entry a c i' j' b e.2))
    e.

(** The four updates of [stamp], on normalized indices. *)
Definition stamp_at (a b : nat) (v : num) (M : matrix num) : matrix num :=
  alter (alter (λ e, nsub e v) a) b
    (alter (alter (λ e, nsub e v) b) a
       (alter (alter (λ e, nadd e v) b) b
          (alter (alter (λ e, nadd e v) a) a M))).

(** The sum of row [i], added up from the left. *)
Definition row_sum (M : matrix num) (i : nat) : num :=
  foldl nadd nzero (default [] (M !! i)).

(** An array of [N] rows of [N] entries. *)
Definition shaped (N : nat) (M : matrix num) : Prop :=
  length M = N ∧ Forall (λ r, length r = N) M.

(** A line without impedance: [r == 0 and x == 0]. *)
Definition zero_impedance (l : line num) : bool :=
  let '(_, _, r, x) := l in nis0 r && nis0 x.

(** Both bus numbers of a line are in [0 .. N-1]. *)
Definition in_range (N : nat) (l : line num) : Prop :=
  let '(i, j, _, _) := l in
  (0 ≤ i < Z.of_nat N)%Z ∧ (0 ≤ j < Z.of_nat N)%Z.
End AdmittanceEntries.

(** The laws of exact arithmetic that make a line's contributions to a row
    cancel: addition is a commutative group and subtraction adds the
    opposite. *)
Class ExactNum (num : Type) `{!PyNum num} : Prop := {
  nadd_comm : ∀ a b : num, nadd a b = nadd b a;
  nadd_assoc : ∀ a b c : num, nadd a (nadd b c) = nadd (nadd a b) c;
  nadd_zero_l : ∀ a : num, nadd nzero a = a;
  nadd_neg_r : ∀ a : num, nadd a (nneg a) = nzero;
  nsub_nadd : ∀ a b : num, nsub a b = nadd a (nneg b);
  npow2_total : ∀ a : num, ∃ s, npow2 a = Ok s;
  ndiv_total : ∀ a b : num, nis0 b = false → ∃ q, ndiv a b = Ok q;
  sum_squares_zero : ∀ a b sa sb : num,
    npow2 a = Ok sa → npow2 b = Ok sb → nis0 (nadd sa sb) = true →
    nis0 a = true ∧ nis0 b = true
}.

(** ** What the models say *)

(** [M[i][k]] as a number (0 outside the array). *)
Definition entry (M : matrix float) (i k : nat) : float :=
  default 0%float (mget M i k).

(** The sum of [f k] over all buses [k = 0 .. n-1], added up from the left
    starting from 0, as Python's [sum] does. *)
Definition sigma (n : nat) (f : nat → float) : float :=
  foldl (λ acc k, acc + f k)%float 0%float (range n).

Section Flows.
Variables (cos sin : float → float).
Variables (G B : matrix float) (V theta : nat → float) (n : nat).

(** The right-hand sides of the power balances, as the specification
    writes them. *)
Definition ac_P_flow (i : nat) : float :=
  sigma n (λ k, V i * V k * (entry G i k * cos (theta i - theta k)
                             + entry B i k * sin (theta i - theta k)))%float.

Definition ac_Q_flow (i : nat) : float :=
  sigma n (λ k, V i * V k * (entry G i k * sin (theta i - theta k)
                             - entry B i k * cos (theta i - theta k)))%float.

Definition dc_P_flow (i : nat) : float :=
  sigma n (λ k, entry B i k * (theta i - theta k))%float.
End Flows.

(** The linear cost: the sum of [b i * Pg i] over the generator buses. *)
Definition linear_cost (gen : list nat) (b Pg : nat → float) : float :=
  foldl (λ acc i, acc + b i * Pg i)%float 0%float gen.

(** The numeric constants that occur in an expression. *)
Fixpoint constants (e : expr) : list float :=
  match e with
  | ENum v => [v]
  | EVar _ _ => []
  | EAdd e1 e2 | ESub e1 e2 | EMul e1 e2 => constants e1 ++ constants e2
  | EPow2 e1 | ECos e1 | ESin e1 => constants e1
  end.

(** The terms of the balance rules, with the admittances read by [entry]. *)
Definition angle_diff (i k : nat) : expr := ESub (EVar "theta" i) (EVar "theta" k).

Definition ac_p_term (G B : matrix float) (i k : nat) : expr :=
  EMul (EMul (EVar "V" i) (EVar "V" k))
       (EAdd (EMul (ENum (entry G i k)) (ECos (angle_diff i k)))
             (EMul (ENum (entry B i k)) (ESin (angle_diff i k)))).

Definition ac_q_term (G B : matrix float) (i k : nat) : expr :=
  EMul (EMul (EVar "V" i) (EVar "V" k))
       (ESub (EMul (ENum (entry G i k)) (ESin (angle_diff i k)))
             (EMul (ENum (entry B i k)) (ECos (angle_diff i k)))).

Definition dc_p_term (B : matrix float) (i k : nat) : expr :=
  EMul (ENum (entry B i k)) (angle_diff i k).

(** The components of the two models, without the state of the variables. *)
Definition ac_skeleton (N : nat) (pload qload : gmap nat float)
    (obj : expr) (pb qb : gmap nat relation) : gmap string component :=
  <["q_balance" := CConstraint qb]>
    (<["p_balance" := CConstraint pb]>
       (<["obj" := CObjective obj minimize]>
          (<["theta" := CVar ∅]>
             (<["V" := CVar ∅]>
                (<["Qg" := CVar ∅]>
                   (<["Pg" := CVar ∅]>
                      (<["Qload" := CParam qload]>
                         (<["Pload" := CParam pload]>
                            (<["buses" := CSet (range N)]> ∅))))))))).

Definition dc_skeleton (N : nat) (pload : gmap nat float)
    (obj : expr) (pb : gmap nat relation) : gmap string component :=
  <["p_balance" := CConstraint pb]>
    (<["obj" := CObjective obj minimize]>
       (<["theta" := CVar ∅]>
          (<["Pg" := CVar ∅]>
             (<["Pload" := CParam pload]>
                (<["buses" := CSet (range N)]> ∅))))).

(** What the builders leave in a generation variable: at a bus of
    [LOAD_BUSES] it is fixed to 0, elsewhere it is free. *)
Definition generation_fixing (LOAD : list nat) (m : model) (c : string)
    (i : nat) : Prop :=
  ∃ vd, var_data m c i = Ok vd ∧
        fixed vd = bool_decide (i ∈ LOAD) ∧
        (i ∈ LOAD → value vd = Some 0%float).

(** The cost coefficient [BUS_DATA[i]['b']] as a number. *)
Definition cost_b (BUS_DATA : bus_table) (i : nat) : float :=
  match bus_field BUS_DATA i "b" with Ok v => v | Raise _ => 0%float end.

(** A total assignment of numbers to the variables, as [pyo_value] reads
    it. *)
Definition assignment (rho : string → nat → float) : string → nat → result float :=
  λ c k, Ok (rho c k).

(** [m.c[i]] is fixed to [v]; [m.c[i]] is not fixed. *)
Definition fixed_to (m : model) (c : string) (i : nat) (v : float) : Prop :=
  ∃ vd, var_data m c i = Ok vd ∧ fixed vd = true ∧ value vd = Some v.

Definition free (m : model) (c : string) (i : nat) : Prop :=
  ∃ vd, var_data m c i = Ok vd ∧ fixed vd = false.

(** The attributes the reporters of [opf_utils.py] read. *)
Definition reporter_attributes : list string :=
  ["nodes"; "x_v_angle"; "x_p"; "x_v"; "x_q"; "objective_function"].

(** What [solve_and_print] prints before it reads [model.nodes]. *)
Definition solve_and_print_preamble : list event :=
  [ Print [Lit (NL +:+ NL +:+ "Solution" +:+ NL)];
    Print [Lit (NL +:+ "Node" +:+ TAB +:+ TAB +:+ "Voltage angle [deg]")] ].

(** A model without the state of its variables: what no [fix], [setlb] or
    [setub] changes. *)
Definition static_of (comp : component) : component :=
  match comp with CVar _ => CVar ∅ | _ => comp end.

Definition skeleton (m : model) : gmap string component :=
  static_of <$> components m.

(** The value and the fixed flag of a variable. *)
Definition held (vd : VarData) : option float * bool := (value vd, fixed vd).

(** ** Missing values *)

(** The model in which every variable without a value has the value 0. *)
Definition fill_var (vd : VarData) : VarData :=
  mkVarData (Some (or_zero (value vd))) (fixed vd) (lb vd) (ub vd) (domain vd).

Definition fill_component (comp : component) : component :=
  match comp with CVar d => CVar (fill_var <$> d) | _ => comp end.

Definition zero_filled (m : model) : model :=
  {| name := name m; components := fill_component <$> components m |}.

(** The rows [solve_and_print] prints for an entry with and without a
    value. *)
Definition solved_row (i : nat) (v : float) : event :=
  Print [Fmt (PInt (Z.of_nat i + 1)) ""; Lit (" " +:+ TAB +:+ TAB +:+ " ");
         Fmt (PFloat v) ""].

Definition not_solved_row (i : nat) : event :=
  Print [Fmt (PInt (Z.of_nat i + 1)) "";
         Lit (" " +:+ TAB +:+ TAB +:+ " Not solved")].

Definition entry_row (items : nat → item) (i : nat) : event :=
  match value_or_None (items i) with
  | Some v => solved_row i v
  | None => not_solved_row i
  end.

(** The repository's DC model, and two solutions for it: one in which the
    solver has no value for [theta[1]], one in which that value is 0. *)
Definition dc_model_5bus : model :=
  match build_dc_model N_BUS BUS_DATA LINE_DATA with
  | Ok m => m
  | Raise _ => ConcreteModel "DC_OPF"
  end.

(** The AC model of the repository's data. *)
Definition ac_model_5bus : model :=
  match build_ac_model N_BUS BUS_DATA LINE_DATA with
  | Ok m => m
  | Raise _ => ConcreteModel "AC_OPF"
  end.

Definition sol_missing : solution :=
  λ c i, if decide (c = "theta" ∧ i = 1) then None else Some 0.1%float.

Definition sol_zero : solution :=
  λ c i, if decide (c = "theta" ∧ i = 1) then Some 0%float else Some 0.1%float.

(** A solver that is not installed: the call raises. *)
Definition solver_unavailable : string → model → result (solution * unit) :=
  λ _ _, Raise (SolverError "No executable found for solver").

(** A model with the attribute names of [opf_utils.py]: two nodes, the
    angle of the second one without a value. *)
Definition utils_model : model :=
  setattr
    (setattr
       (setattr
          (setattr (ConcreteModel "utils") "nodes" (CSet [0; 1]))
          "x_v_angle"
          (Var [0; 1] Reals (λ i, if decide (i = 0) then Some 0%float else None)))
       "x_p" (Var [0; 1] Reals (λ _, Some 0.5%float)))
    "objective_function" (CObjective (EVar "x_p" 0) minimize).

(** ** Concrete inputs *)

(** A line list with a line without impedance behind a line whose second
    bus does not exist. *)
Definition lines_bad_index_first : list (line float) :=
  [ Line 0 9 0.02 0.06; Line 0 1 0 0 ].

(** A line list within the input contract (two different buses of the
    five) with a line without impedance behind a line whose resistance has
    no square in binary64. *)
Definition lines_overflow_first : list (line float) :=
  [ Line 0 1 1e200 0; Line 0 1 0 0 ].

(** A line that has impedance, of a resistance whose square is less than
    the smallest positive number of binary64. *)
Definition line_underflow : line float := Line 0 1 1e-200 0.

(** binary64 without the checks of the interpreter, the arithmetic of
    [numpy.float64] scalars: a square that overflows is [inf] and a
    division by zero gives [inf] or [nan], nothing raises. It is no
    arithmetic of the program; the builder is run on it to see which
    checks are the builder's own. *)
Definition unchecked : PyNum float := {|
  nzero := 0%float;
  nadd := PrimFloat.add;
  nsub := PrimFloat.sub;
  nneg := PrimFloat.opp;
  npow2 := λ x, Ok (x * x)%float;
  ndiv := λ a b, Ok (a / b)%float;
  nis0 := λ x, (x =? 0)%float
|}.

(** Two lines out of bus 0 whose conductances are 1 and 2**53. *)
Definition lines_absorbing : list (line float) :=
  [ Line 0 1 1 0; Line 0 2 0x1p-53 0 ].

(** The single line of the worked example, in binary64 and exactly. *)
Definition lines_example : list (line float) := [ Line 0 1 0.02 0.06 ].
Definition lines_example_exact : list (line Qc) :=
  [ (0%Z, 1%Z, Q2Qc (2 # 100), Q2Qc (6 # 100)) ].

(** ** Lines and what they do to the matrices *)

Section Lines.
Context {num : Type} `{!PyNum num}.

(** The exception the loop body raises on a line, if any: the admittance
    is computed first, then bus [i] is used as an index, then bus [j]. *)
Definition line_error (N : nat) (l : line num) : option exn :=
  let '(i, j, r, x) := l in
  match line_admittance r x with
  | Raise e => Some e
  | Ok _ =>
      match np_index N i with
      | Raise e => Some e
      | Ok _ => match np_index N j with Raise e => Some e | Ok _ => None end
      end
  end.

(** Bus [a] is an end of the line. *)
Definition touches (N : nat) (l : line num) (a : nat) : Prop :=
  let '(i, j, _, _) := l in np_index N i = Ok a ∨ np_index N j = Ok a.

(** The same line with its buses counted from the end of the axis. *)
Definition from_end (N : nat) (l : line num) : line num :=
  let '(i, j, r, x) := l in ((i - Z.of_nat N)%Z, (j - Z.of_nat N)%Z, r, x).

(** A line from a bus to itself. *)
Definition self_loop (N : nat) (l : line num) : Prop :=
  let '(i, j, _, _) := l in np_index N i = np_index N j.

(** The admittances of the lines at bus [a], added up in the order of the
    lines, and those of the lines between [a] and [c], subtracted in that
    order. *)
Definition incident_sum (N : nat) (lines : list (line num)) (a : nat)
  : result (num * num) :=
  for_each lines
    (λ e l, let '(i, j, r, x) := l in
            '(g, b) ← line_admittance r x;
            i' ← np_index N i;
            j' ← np_index N j;
            Ok (if decide (a = i' ∨ a = j')
                then (nadd e.1 g, nadd e.2 b) else e))
    (nzero, nzero).

Definition joining_difference (N : nat) (lines : list (line num)) (a c : nat)
  : result (num * num) :=
  for_each lines
    (λ e l, let '(i, j, r, x) := l in
            '(g, b) ← line_admittance r x;
            i' ← np_index N i;
            j' ← np_index N j;
            Ok (if decide ((a = i' ∧ c = j') ∨ (a = j' ∧ c = i'))
                then (nsub e.1 g, nsub e.2 b) else e))
    (nzero, nzero).
End Lines.

(** ** The bus table and the variables of the models *)

(** The bus table has an entry [BUS_DATA[i][key]]. *)
Definition has_field (BUS_DATA : bus_table) (i : nat) (key : string) : Prop :=
  ∃ v, bus_field BUS_DATA i key = Ok v.

(** [BUS_DATA[i][key]] as a number. *)
Definition field (BUS_DATA : bus_table) (i : nat) (key : string) : float :=
  match bus_field BUS_DATA i key with Ok v => v | Raise _ => 0%float end.

(** Bus [i] is a generator bus: [BUS_DATA[i]['PGmax'] > 0]. *)
Definition generator (BUS_DATA : bus_table) (i : nat) : Prop :=
  (0 <? field BUS_DATA i "PGmax")%float = true.

(** The entries of the bus table that [build_dc_model] and
    [build_ac_model] read: the cost coefficients only at generator buses. *)
Definition dc_data (N : nat) (BUS_DATA : bus_table) : Prop :=
  ∀ i, i < N →
    has_field BUS_DATA i "PGmax" ∧ has_field BUS_DATA i "PGmin" ∧
    has_field BUS_DATA i "Pload" ∧
    (generator BUS_DATA i → has_field BUS_DATA i "b").

Definition ac_data (N : nat) (BUS_DATA : bus_table) : Prop :=
  ∀ i, i < N →
    (∀ key, key ∈ ["PGmax"; "PGmin"; "QGmax"; "QGmin"; "Pload"; "Qload";
                   "Vmax"; "Vmin"] → has_field BUS_DATA i key) ∧
    (generator BUS_DATA i →
     ∀ key, key ∈ ["a"; "b"; "c"] → has_field BUS_DATA i key).

(** Both bounds of a variable set, as the loops over the buses do. *)
Definition set_bounds (lo hi : float) (vd : VarData) : VarData :=
  setub hi (setlb lo vd).

(** The bounds the AC loop gives to [m.c[i]]; the DC loop sets those of
    [Pg] and [theta] only. *)
Definition ac_box (BUS_DATA : bus_table) (c : string) (i : nat)
  : option (float * float) :=
  if decide (c = "Pg")
  then Some (field BUS_DATA i "PGmin", field BUS_DATA i "PGmax")
  else if decide (c = "Qg")
  then Some (field BUS_DATA i "QGmin", field BUS_DATA i "QGmax")
  else if decide (c = "V")
  then Some (field BUS_DATA i "Vmin", field BUS_DATA i "Vmax")
  else if decide (c = "theta") then Some ((- np_pi)%float, np_pi)
  else None.

Definition dc_box (BUS_DATA : bus_table) (c : string) (i : nat)
  : option (float * float) :=
  if decide (c = "Pg")
  then Some (field BUS_DATA i "PGmin", field BUS_DATA i "PGmax")
  else if decide (c = "theta") then Some ((- np_pi)%float, np_pi)
  else None.

Definition boxed (box : option (float * float)) (vd : VarData) : VarData :=
  match box with Some (lo, hi) => set_bounds lo hi vd | None => vd end.

(** The starting values of [Pg] in the AC model. *)
Definition ac_Pg_start (total_load : float) (i : nat) : option float :=
  (list_to_map [(0, total_load); (1, 0.1%float); (2, 0.1%float);
                (3, 0%float); (4, 0%float)] : gmap nat float) !! i.

(** [m.c[i]] is declared within [dom] and has the bounds [lo] and [hi]. *)
Definition var_box (m : model) (c : string) (i : nat) (dom : var_domain)
    (lo hi : float) : Prop :=
  ∃ vd, var_data m c i = Ok vd ∧
        domain vd = dom ∧ lb vd = Some lo ∧ ub vd = Some hi.

(** [m.c[i]] is not fixed and has the value [v] (or none). *)
Definition starts_at (m : model) (c : string) (i : nat) (v : option float)
  : Prop :=
  ∃ vd, var_data m c i = Ok vd ∧ fixed vd = false ∧ value vd = v.

(** The variables that occur in an expression, from left to right. *)
Fixpoint variables (e : expr) : list (string * nat) :=
  match e with
  | ENum _ => []
  | EVar c i => [(c, i)]
  | EAdd e1 e2 | ESub e1 e2 | EMul e1 e2 => variables e1 ++ variables e2
  | EPow2 e1 | ECos e1 | ESin e1 => variables e1
  end.

(** The term of the AC objective at bus [i]. *)
Definition ac_cost_expr (BUS_DATA : bus_table) (i : nat) : expr :=
  EAdd (EAdd (EMul (ENum (field BUS_DATA i "a")) (EPow2 (EVar "Pg" i)))
             (EMul (ENum (field BUS_DATA i "b")) (EVar "Pg" i)))
       (ENum (field BUS_DATA i "c")).

(** ** What [print_results] prints *)

(** The five lines above the table. *)
Definition results_header (ac : bool) : list event :=
  [ Print [Lit (NL +:+ dashes 60)];
    Print [Lit "RESULTS"];
    Print [Lit (dashes 60)];
    Print ([Fmt (PStr "Bus") "<6"; Fmt (PStr "Pg (MW)") "<12";
            Fmt (PStr "Theta (deg)") "<14"]
           ++ (if ac then [Fmt (PStr "|V| (pu)") "<12";
                           Fmt (PStr "Qg (MVAr)") "<12"]
               else []));
    Print [Lit (dashes 60)] ].

(** The line below the table. *)
Definition cost_line (cost : float) : event :=
  Print [Lit (NL +:+ "Total Generation Cost: "); Fmt (PFloat cost) ".4f"].

(** What the table shows for bus [i] of a built model into which the
    solution [sol] has been loaded: the solver's generation at a generator
    bus and 0 elsewhere, the solver's angle in degrees but 0 at bus 0, the
    solver's voltage but 1.06 at bus 0; 0 where the solver has no value. *)
Definition shown_Pg (gen : list nat) (sol : solution) (c : string) (i : nat)
  : float :=
  if decide (i ∈ gen) then or_zero (sol c i) else 0%float.

Definition shown_theta (sol : solution) (i : nat) : float :=
  if decide (i = 0) then 0%float else or_zero (np_degrees <$> sol "theta" i).

Definition shown_V (sol : solution) (i : nat) : float :=
  if decide (i = 0) then 1.06%float else or_zero (sol "V" i).

Definition report_row (ac : bool) (gen : list nat) (sol : solution) (i : nat)
  : event :=
  Print ([Fmt (PInt (Z.of_nat i + 1)) "<6";
          Fmt (PFloat (shown_Pg gen sol "Pg" i)) "<12.4f";
          Fmt (PFloat (shown_theta sol i)) "<14.4f"]
         ++ (if ac then [Fmt (PFloat (shown_V sol i)) "<12.4f";
                         Fmt (PFloat (shown_Pg gen sol "Qg" i)) "<12.4f"]
             else [])).

(** ** What the reporters of [opf_utils.py] read and write *)

(** The indexed attributes the reporters read at every node. *)
Definition result_attributes (AC : bool) : list string :=
  ["x_v_angle"; "x_p"] ++ (if AC then ["x_v"; "x_q"] else []).

(** The name of the file [create_results_json] writes. *)
Definition results_filename (team_name : string) (AC : bool) : string :=
  team_name +:+ "_" +:+ (if AC then "AC" else "DC") +:+ "_results.json".


(** An entry of the model after a solution has been loaded. *)
Definition load_item (sol : solution) (attr : string) (i : nat) (x : item)
  : item :=
  match x with IVar vd => IVar (load_var (sol attr i) vd) | _ => x end.

(** ** [main] of [opf_corrected.py] *)

(** ["=" * n]. *)
Fixpoint equal_signs (n : nat) : string :=
  match n with O => EmptyString | S n' => String "="%char (equal_signs n') end.

(** What a [try] block of [main] can raise: an exception of the code it
    calls, or the [RuntimeError] it raises itself. *)
Inductive raised : Type :=
  | Builtin (e : exn)
  | RuntimeError (msg : string).

(** The outcome of the body of a [try] block. *)
Definition attempt (A : Type) : Type := list event * (raised + A).

Definition run {A : Type} (x : io A) : attempt A :=
  (x.1, match x.2 with Ok a => inr a | Raise e => inl (Builtin e) end).

(** [try: body except Exception as e: handler]: what the body printed
    stays printed. *)
Definition try_except {A : Type} (body : attempt A) (handler : raised → io A)
  : io A :=
  match body.2 with
  | inr a => (body.1, Ok a)
  | inl e => (body.1 ++ (handler e).1, (handler e).2)
  end.

Section Main.
(** The math library, the solvers ([solve name model], reached through
    NEOS for [ipopt] and locally for [appsi_highs]; what a solver itself
    writes to the terminal is not part of the model), [solver.available()],
    [str(results.solver.termination_condition)] and [str(e)] for the
    exceptions of the code. *)
Variables (libm_cos libm_sin : float → float).
Variable SolverResults : Type.
Variable solve : string → model → result (solution * SolverResults).
Variable available : string → bool.
Variable termination_condition : SolverResults → string.
Variable exn_str : exn → string.
Variables (N_BUS : nat) (BUS_DATA : bus_table) (LINE_DATA : list (line float)).

(** [str(e)]; for [RuntimeError(msg)] it is the message. *)
Definition str_raised (e : raised) : string :=
  match e with Builtin e => exn_str e | RuntimeError msg => msg end.

(** The body of the first [try] block. *)
Definition ac_attempt (model_ac : model) : attempt (option float) :=
  run ('(sol, results_ac) ← lift (solve "ipopt" model_ac);
       let model_ac := load_solution sol model_ac in
       let status := termination_condition results_ac in
       _ ← print [Lit (NL +:+ "Solver status: "); Fmt (PStr status) ""];
       ac_cost ← print_results libm_cos libm_sin model_ac true;
       mret (Some ac_cost)).

(** The body of the second [try] block. *)
Definition dc_attempt (model_dc : model) : attempt (option float) :=
  if negb (available "appsi_highs")
  then ([], inl (RuntimeError "HiGHS not available. Install: pip install highspy"))
  else
    run ('(sol, results_dc) ← lift (solve "appsi_highs" model_dc);
         let model_dc := load_solution sol model_dc in
         let status := termination_condition results_dc in
         _ ← print [Lit (NL +:+ "Solver status: "); Fmt (PStr status) ""];
         dc_cost ← print_results libm_cos libm_sin model_dc false;
         mret (Some dc_cost)).

(** The lines under [SUMMARY]. *)
Definition summary (total_load : float) (ac_cost dc_cost : option float)
  : list event :=
  [Print [Lit "Total System Load: "; Fmt (PFloat total_load) ".2f"; Lit " MW"]]
  ++ match ac_cost with
     | Some c => [Print [Lit "AC OPF Cost: "; Fmt (PFloat c) ".4f";
                         Lit " (with losses)"]]
     | None => []
     end
  ++ match dc_cost with
     | Some c => [Print [Lit "DC OPF Cost: "; Fmt (PFloat c) ".4f";
                         Lit " (lossless)"]]
     | None => []
     end.

Definition main : io unit :=
  _ ← print [Lit (equal_signs 60)];
  _ ← print [Lit "AC OPTIMAL POWER FLOW (NEOS + IPOPT)"];
  _ ← print [Lit (equal_signs 60)];
  model_ac ← lift (build_ac_model N_BUS BUS_DATA LINE_DATA);
  ac_cost ← try_except (ac_attempt model_ac)
    (λ e, _ ← print [Lit (NL +:+ "AC OPF failed: "); Fmt (PStr (str_raised e)) ""];
          _ ← print [Lit "Ensure NEOS_EMAIL is set and you have internet access."];
          mret None);
  _ ← print [Lit (NL +:+ equal_signs 60)];
  _ ← print [Lit "DC OPTIMAL POWER FLOW (HiGHS)"];
  _ ← print [Lit (equal_signs 60)];
  model_dc ← lift (build_dc_model N_BUS BUS_DATA LINE_DATA);
  dc_cost ← try_except (dc_attempt model_dc)
    (λ e, _ ← print [Lit (NL +:+ "DC OPF failed: "); Fmt (PStr (str_raised e)) ""];
          mret None);
  _ ← print [Lit (NL +:+ equal_signs 60)];
  _ ← print [Lit "SUMMARY"];
  _ ← print [Lit (equal_signs 60)];
  total_load ← lift (py_sum (range N_BUS) (λ i, bus_field BUS_DATA i "Pload"));
  _ ← print [Lit "Total System Load: "; Fmt (PFloat total_load) ".2f";
             Lit " MW"];
  _ ← match ac_cost with
      | Some c => print [Lit "AC OPF Cost: "; Fmt (PFloat c) ".4f";
                         Lit " (with losses)"]
      | None => mret tt
      end;
  match dc_cost with
  | Some c => print [Lit "DC OPF Cost: "; Fmt (PFloat c) ".4f";
                     Lit " (lossless)"]
  | None => mret tt
  end.

(** Running the file as a script: the module is loaded, which computes
    [GEN_BUSES], and [main] is called. *)
Definition run_script : io unit :=
  _ ← lift (GEN_BUSES N_BUS BUS_DATA);
  main.
End Main.

(** What the two [try] statements of [main] print and leave in [ac_cost]
    and [dc_cost]. *)
Definition ac_failure_lines (message : string) : list event :=
  [ Print [Lit (NL +:+ "AC OPF failed: "); Fmt (PStr message) ""];
    Print [Lit "Ensure NEOS_EMAIL is set and you have internet access."] ].

Definition dc_failure_lines (message : string) : list event :=
  [ Print [Lit (NL +:+ "DC OPF failed: "); Fmt (PStr message) ""] ].

Definition try_part (exn_str : exn → string)
    (failure_lines : string → list event) (body : attempt (option float))
  : list event * option float :=
  match body.2 with
  | inr cost => (body.1, cost)
  | inl e => (body.1 ++ failure_lines (str_raised exn_str e), None)
  end.

(** The line that reports the solver's status. *)
Definition status_line (status : string) : event :=
  Print [Lit (NL +:+ "Solver status: "); Fmt (PStr status) ""].

(** The three lines that open the AC and the DC part, and the summary. *)
Definition ac_banner : list event :=
  [ Print [Lit (equal_signs 60)];
    Print [Lit "AC OPTIMAL POWER FLOW (NEOS + IPOPT)"];
    Print [Lit (equal_signs 60)] ].

Definition dc_banner : list event :=
  [ Print [Lit (NL +:+ equal_signs 60)];
    Print [Lit "DC OPTIMAL POWER FLOW (HiGHS)"];
    Print [Lit (equal_signs 60)] ].

Definition summary_banner : list event :=
  [ Print [Lit (NL +:+ equal_signs 60)];
    Print [Lit "SUMMARY"];
    Print [Lit (equal_signs 60)] ].

(** Every variable of the families [cs] exists at the buses below [N]. *)
Definition declared (N : nat) (cs : list string) (m : model) : Prop :=
  ∀ c i, c ∈ cs → i < N → ∃ vd, var_data m c i = Ok vd.

(** * Properties *)

(** ** The error monad *)

Lemma bind_Ok {A B : Type} (r : result A) (f : A → result B) (b : B) :
  r ≫= f = Ok b ↔ ∃ a, r = Ok a ∧ f a = Ok b.
Proof.
  destruct r as [a|e]; simpl.
  - split; [eauto | intros (? & [= <-] & ?); done].
  - split; [done | intros (? & [=] & _)].
Qed.

Lemma for_each_app {A S : Type} (xs ys : list A) (body : S → A → result S) s :
  for_each (xs ++ ys) body s = for_each xs body s ≫= for_each ys body.
Proof.
  revert s. induction xs as [|x xs IH]; intros s; simpl; [done|].
  destruct (body s x); simpl; auto.
Qed.

(** ** Arrays *)

Section AdmittanceFacts.
Context {num : Type} `{!PyNum num}.
Implicit Types (M G B : matrix num) (l : line num).

Lemma np_index_lt n i a : np_index n i = Ok a → a < n.
Proof.
  unfold np_index. repeat case_bool_decide; intros [= <-]; lia.
Qed.

Lemma np_index_in_range n i :
  (0 ≤ i < Z.of_nat n)%Z → np_index n i = Ok (Z.to_nat i).
Proof. intros Hi. unfold np_index. by rewrite bool_decide_eq_true_2. Qed.

Lemma np_index_error n i e : np_index n i = Raise e → e = IndexError.
Proof. unfold np_index. repeat case_bool_decide; congruence. Qed.

Lemma np_zeros_shaped N : shaped N (np_zeros N N).
Proof.
  split; [apply length_replicate|].
  apply Forall_replicate, length_replicate.
Qed.

Lemma mget_np_zeros N a c :
  a < N → c < N → mget (np_zeros N N) a c = Some nzero.
Proof.
  intros Ha Hc. unfold mget, np_zeros.
  rewrite lookup_replicate_2 by done.
  by apply lookup_replicate_2.
Qed.

Lemma shaped_nrows N M : shaped N M → nrows M = N.
Proof. by intros [? _]. Qed.

Lemma shaped_ncols N M : shaped N M → ncols M = N.
Proof.
  intros [Hl Hr]. destruct M as [|r M]; simpl in *; [done|].
  by inversion Hr.
Qed.

Lemma shaped_mget N M a c : shaped N M → a < N → c < N → is_Some (mget M a c).
Proof.
  intros [Hl Hr] Ha Hc. unfold mget.
  destruct (M !! a) as [r|] eqn:Hrow; simpl.
  - apply lookup_lt_is_Some.
    rewrite Forall_lookup in Hr. by rewrite (Hr _ _ Hrow).
  - apply lookup_ge_None in Hrow. lia.
Qed.

Lemma shaped_mget_None N M a c : shaped N M → ¬ (a < N ∧ c < N) → mget M a c = None.
Proof.
  intros [Hl Hr] Hn. unfold mget.
  destruct (M !! a) as [r|] eqn:Hrow; simpl; [|done].
  apply lookup_ge_None. rewrite Forall_lookup in Hr.
  rewrite (Hr _ _ Hrow). apply lookup_lt_Some in Hrow. lia.
Qed.

Lemma shaped_alter N M f a b : shaped N M → shaped N (alter (alter f b) a M).
Proof.
  intros [Hl Hr]. split; [by rewrite length_alter|].
  apply Forall_alter; [done|]. intros r _ Hlen. by rewrite length_alter.
Qed.

Lemma mget_alter M f a b a' b' :
  mget (alter (alter f b) a M) a' b'
  = if decide (a' = a ∧ b' = b) then f <$> mget M a' b' else mget M a' b'.
Proof.
  unfold mget. destruct (decide (a = a')) as [<-|Ha].
  - rewrite list_lookup_alter_eq. destruct (M !! a) as [r|]; simpl.
    + destruct (decide (b = b')) as [<-|Hb].
      * rewrite list_lookup_alter_eq. by rewrite decide_True.
      * rewrite list_lookup_alter_ne by done.
        rewrite decide_False; [done|]. intros [_ ?]; congruence.
    + by case_decide.
  - rewrite list_lookup_alter_ne by done.
    rewrite decide_False; [done|]. intros [? _]; congruence.
Qed.

(** On an array of known shape an update only depends on the two
    normalized indices. *)
Lemma np_update_shaped N M f i j :
  shaped N M →
  np_update f M i j
  = a ← np_index N i; b ← np_index N j; Ok (alter (alter f b) a M).
Proof.
  intros HM. unfold np_update.
  by rewrite (shaped_nrows N M HM), (shaped_ncols N M HM).
Qed.

Lemma stamp_shaped N M i j v :
  shaped N M →
  stamp M i j v = a ← np_index N i; b ← np_index N j; Ok (stamp_at a b v M).
Proof.
  intros HM. unfold stamp, np_iadd, np_isub.
  rewrite (np_update_shaped N) by done.
  destruct (np_index N i) as [a|e] eqn:Hi; simpl.
  - rewrite (np_update_shaped N) by by apply shaped_alter.
    destruct (np_index N j) as [b|e] eqn:Hj; simpl; [|done].
    rewrite (np_update_shaped N) by by do 2 apply shaped_alter.
    rewrite Hi, Hj. simpl.
    rewrite (np_update_shaped N) by by do 3 apply shaped_alter.
    by rewrite Hi, Hj.
  - done.
Qed.

Lemma stamp_at_shaped N M a b v : shaped N M → shaped N (stamp_at a b v M).
Proof. intros. unfold stamp_at. by do 4 apply shaped_alter. Qed.

Lemma mget_stamp_at M a b v a' c' :
  mget (stamp_at a b v M) a' c' = stamp_entry a' c' a b v <$> mget M a' c'.
Proof.
  unfold stamp_at, stamp_entry. rewrite !mget_alter.
  destruct (mget M a' c') as [e|]; simpl; repeat case_decide; done.
Qed.
End AdmittanceFacts.

(** ** The admittance builder, entry by entry *)

Section AdmittanceBuild.
Context {num : Type} `{!PyNum num}.
Implicit Types (M G B : matrix num) (l : line num).

Lemma stamp_line_shaped N G B l :
  shaped N G → shaped N B →
  stamp_line (G, B) l
  = (let '(i, j, r, x) := l in
     '(g, b) ← line_admittance r x;
     i' ← np_index N i;
     j' ← np_index N j;
     Ok (stamp_at i' j' g G, stamp_at i' j' b B)).
Proof.
  intros HG HB. destruct l as [[[i j] r] x]. unfold stamp_line.
  destruct (line_admittance r x) as [[g b]|e]; simpl; [|done].
  rewrite !(stamp_shaped N) by done.
  destruct (np_index N i) as [i'|e]; simpl; [|done].
  by destruct (np_index N j) as [j'|e].
Qed.

(** The loop of [build_admittance_matrices] and the entry-wise rule agree
    at every position, on the result and on the exception. *)
Lemma for_each_stamp_line_entries N (lines : list (line num)) a c :
  ∀ G B e,
    shaped N G → shaped N B →
    mget G a c = Some e.1 → mget B a c = Some e.2 →
    match for_each lines stamp_line (G, B) with
    | Ok (G', B') =>
        shaped N G' ∧ shaped N B' ∧
        ∃ g b, entries_after N lines a c e = Ok (g, b) ∧
               mget G' a c = Some g ∧ mget B' a c = Some b
    | Raise err => entries_after N lines a c e = Raise err
    end.
Proof.
  induction lines as [|l lines IH]; intros G B e HG HB HGe HBe.
  - simpl. destruct e as [eg eb]. eauto 10.
  - unfold entries_after. simpl.
    rewrite (stamp_line_shaped N) by done.
    destruct l as [[[i j] r] x].
    destruct (line_admittance r x) as [[g b]|err]; simpl; [|done].
    destruct (np_index N i) as [i'|err]; simpl; [|done].
    destruct (np_index N j) as [j'|err]; simpl; [|done].
    apply (IH _ _ (_, _)); simpl.
    + by apply stamp_at_shaped.
    + by apply stamp_at_shaped.
    + by rewrite mget_stamp_at, HGe.
    + by rewrite mget_stamp_at, HBe.
Qed.

Lemma build_admittance_entries N (lines : list (line num)) a c :
  a < N → c < N →
  match build_admittance_matrices N lines with
  | Ok (G, B) =>
      ∃ g b, entries_after N lines a c (nzero, nzero) = Ok (g, b) ∧
             mget G a c = Some g ∧ mget B a c = Some b
  | Raise err => entries_after N lines a c (nzero, nzero) = Raise err
  end.
Proof.
  intros Ha Hc. unfold build_admittance_matrices.
  pose proof (for_each_stamp_line_entries N lines a c
                (np_zeros N N) (np_zeros N N) (nzero, nzero)
                (np_zeros_shaped N) (np_zeros_shaped N)
                (mget_np_zeros N a c Ha Hc) (mget_np_zeros N a c Ha Hc)) as H.
  destruct (for_each lines stamp_line _) as [[G B]|err]; [|done].
  by destruct H as (_ & _ & H).
Qed.

Lemma build_admittance_shaped N (lines : list (line num)) G B :
  build_admittance_matrices N lines = Ok (G, B) → shaped N G ∧ shaped N B.
Proof.
  unfold build_admittance_matrices.
  assert (∀ G0 B0, shaped N G0 → shaped N B0 →
          for_each lines stamp_line (G0, B0) = Ok (G, B) →
          shaped N G ∧ shaped N B) as Hgen.
  { induction lines as [|l lines IH]; intros G0 B0 HG HB; simpl.
    - by intros [= <- <-].
    - rewrite (stamp_line_shaped N) by done.
      destruct l as [[[i j] r] x].
      destruct (line_admittance r x) as [[g b]|err]; simpl; [|done].
      destruct (np_index N i) as [i'|err]; simpl; [|done].
      destruct (np_index N j) as [j'|err]; simpl; [|done].
      apply IH; by apply stamp_at_shaped. }
  apply Hgen; apply np_zeros_shaped.
Qed.

Lemma stamp_entry_cases i j v e :
  i ≠ j →
  stamp_entry i i i j v e = nadd e v ∧ stamp_entry j j i j v e = nadd e v ∧
  stamp_entry i j i j v e = nsub e v ∧ stamp_entry j i i j v e = nsub e v.
Proof.
  intros Hij. unfold stamp_entry.
  repeat split; repeat case_decide; try done; exfalso; intuition congruence.
Qed.

(** Two lines between the same two buses: their admittances add up. *)
Lemma build_admittance_parallel N (i j : nat) (r1 x1 r2 x2 g1 b1 g2 b2 : num) :
  i < N → j < N → i ≠ j →
  line_admittance r1 x1 = Ok (g1, b1) →
  line_admittance r2 x2 = Ok (g2, b2) →
  ∃ G B,
    build_admittance_matrices N
      [(Z.of_nat i, Z.of_nat j, r1, x1); (Z.of_nat i, Z.of_nat j, r2, x2)]
    = Ok (G, B) ∧
    mget G i i = Some (nadd (nadd nzero g1) g2) ∧
    mget G j j = Some (nadd (nadd nzero g1) g2) ∧
    mget G i j = Some (nsub (nsub nzero g1) g2) ∧
    mget G j i = Some (nsub (nsub nzero g1) g2) ∧
    mget B i i = Some (nadd (nadd nzero b1) b2) ∧
    mget B j j = Some (nadd (nadd nzero b1) b2) ∧
    mget B i j = Some (nsub (nsub nzero b1) b2) ∧
    mget B j i = Some (nsub (nsub nzero b1) b2).
Proof.
  intros Hi Hj Hij H1 H2.
  set (lines := [(Z.of_nat i, Z.of_nat j, r1, x1);
                 (Z.of_nat i, Z.of_nat j, r2, x2)]).
  assert (∀ a c, entries_after N lines a c (nzero, nzero)
                 = Ok (stamp_entry a c i j g2 (stamp_entry a c i j g1 nzero),
                       stamp_entry a c i j b2 (stamp_entry a c i j b1 nzero)))
    as Hent.
  { intros a c. unfold entries_after, lines. cbn [for_each].
    rewrite H1. cbn [mbind result_bind].
    rewrite !np_index_in_range by lia. cbn [mbind result_bind].
    rewrite H2. cbn [mbind result_bind fst snd].
    by rewrite !Nat2Z.id. }
  pose proof (build_admittance_entries N lines i i Hi Hi) as Hii.
  pose proof (build_admittance_entries N lines j j Hj Hj) as Hjj.
  pose proof (build_admittance_entries N lines i j Hi Hj) as Hij'.
  pose proof (build_admittance_entries N lines j i Hj Hi) as Hji.
  destruct (build_admittance_matrices N lines) as [[G B]|err];
    [|by rewrite Hent in Hii].
  exists G, B. split; [done|].
  rewrite Hent in Hii, Hjj, Hij', Hji.
  destruct Hii as (? & ? & [= <- <-] & -> & ->).
  destruct Hjj as (? & ? & [= <- <-] & -> & ->).
  destruct Hij' as (? & ? & [= <- <-] & -> & ->).
  destruct Hji as (? & ? & [= <- <-] & -> & ->).
  destruct (stamp_entry_cases i j g1 nzero Hij) as (-> & -> & -> & ->).
  destruct (stamp_entry_cases i j b1 nzero Hij) as (-> & -> & -> & ->).
  destruct (stamp_entry_cases i j g2 (nadd nzero g1) Hij) as (-> & -> & _).
  destruct (stamp_entry_cases i j b2 (nadd nzero b1) Hij) as (-> & -> & _).
  destruct (stamp_entry_cases i j g2 (nsub nzero g1) Hij) as (_ & _ & -> & ->).
  destruct (stamp_entry_cases i j b2 (nsub nzero b1) Hij) as (_ & _ & -> & ->).
  done.
Qed.

Lemma stamp_entry_swap a c i j v e :
  stamp_entry a c i j v e = stamp_entry c a i j v e.
Proof.
  unfold stamp_entry.
  repeat case_decide; try done; exfalso; intuition congruence.
Qed.

Lemma entries_after_swap N (lines : list (line num)) a c e :
  entries_after N lines a c e = entries_after N lines c a e.
Proof.
  unfold entries_after. revert e.
  induction lines as [|[[[i j] r] x] lines IH]; intros e; simpl; [done|].
  destruct (line_admittance r x) as [[g b]|err]; simpl; [|done].
  destruct (np_index N i) as [i'|err]; simpl; [|done].
  destruct (np_index N j) as [j'|err]; simpl; [|done].
  rewrite (stamp_entry_swap a c i' j' g), (stamp_entry_swap a c i' j' b).
  apply IH.
Qed.

Lemma build_admittance_symmetric N (lines : list (line num)) G B i j :
  build_admittance_matrices N lines = Ok (G, B) →
  mget G i j = mget G j i ∧ mget B i j = mget B j i.
Proof.
  intros Hb. destruct (build_admittance_shaped N lines G B Hb) as [HG HB].
  destruct (decide (i < N ∧ j < N)) as [[Hi Hj]|Hout].
  - pose proof (build_admittance_entries N lines i j Hi Hj) as H1.
    pose proof (build_admittance_entries N lines j i Hj Hi) as H2.
    rewrite Hb in H1, H2.
    destruct H1 as (g1 & b1 & E1 & -> & ->).
    destruct H2 as (g2 & b2 & E2 & -> & ->).
    rewrite entries_after_swap in E2. rewrite E1 in E2.
    by injection E2 as -> ->.
  - rewrite !(shaped_mget_None N) by (done || lia). done.
Qed.
End AdmittanceBuild.

(** ** Row sums in exact arithmetic *)

Section ExactRows.
Context {num : Type} `{!PyNum num} `{!ExactNum num}.
Implicit Types (M G B : matrix num) (l : line num).

Lemma nadd_cancel (x v : num) : nadd (nadd x v) (nneg v) = x.
Proof.
  rewrite <- nadd_assoc, nadd_neg_r, nadd_comm. apply nadd_zero_l.
Qed.

Lemma foldl_nadd_shift (row : list num) z v :
  foldl nadd (nadd z v) row = nadd (foldl nadd z row) v.
Proof.
  revert z. induction row as [|x row IH]; intros z; simpl; [done|].
  rewrite <- IH. f_equal.
  rewrite <- !nadd_assoc. f_equal. apply nadd_comm.
Qed.

Lemma foldl_nadd_alter (row : list num) z c f e v :
  row !! c = Some e → f e = nadd e v →
  foldl nadd z (alter f c row) = nadd (foldl nadd z row) v.
Proof.
  revert z c. induction row as [|x row IH]; intros z c Hc Hf; [done|].
  destruct c as [|c]; simpl in *.
  - injection Hc as ->. rewrite Hf, nadd_assoc. apply foldl_nadd_shift.
  - by apply IH.
Qed.

Lemma row_sum_alter N M a c f v i :
  shaped N M → a < N → c < N → (∀ e, f e = nadd e v) →
  row_sum (alter (alter f c) a M) i
  = if decide (i = a) then nadd (row_sum M i) v else row_sum M i.
Proof.
  intros [Hl Hr] Ha Hc Hf. unfold row_sum. case_decide as Hi.
  - subst i. rewrite list_lookup_alter_eq.
    destruct (M !! a) as [row|] eqn:Hrow; simpl.
    + rewrite Forall_lookup in Hr. specialize (Hr _ _ Hrow).
      destruct (lookup_lt_is_Some_2 row c) as [e He]; [lia|].
      by apply (foldl_nadd_alter row nzero c f e v).
    + apply lookup_ge_None in Hrow. lia.
  - by rewrite list_lookup_alter_ne.
Qed.

Lemma row_sum_stamp_at N M a b v i :
  shaped N M → a < N → b < N →
  row_sum (stamp_at a b v M) i = row_sum M i.
Proof.
  intros HM Ha Hb. unfold stamp_at.
  rewrite (row_sum_alter N _ b a _ (nneg v))
    by (try done; try (by do 3 apply shaped_alter); intros; apply nsub_nadd).
  rewrite (row_sum_alter N _ a b _ (nneg v))
    by (try done; try (by do 2 apply shaped_alter); intros; apply nsub_nadd).
  rewrite (row_sum_alter N _ b b _ v)
    by (try done; by apply shaped_alter).
  rewrite (row_sum_alter N _ a a _ v) by done.
  repeat case_decide; subst; try done; by rewrite ?nadd_cancel.
Qed.

Lemma row_sum_np_zeros N i : row_sum (np_zeros N N) i = nzero.
Proof.
  unfold row_sum, np_zeros.
  destruct (replicate N (replicate N nzero) !! i) as [row|] eqn:Hrow;
    simpl; [|done].
  apply lookup_replicate_1 in Hrow as [-> _].
  generalize N at 1. intros n.
  induction n as [|n IH]; simpl; [done|]. by rewrite nadd_zero_l.
Qed.

(** In exact arithmetic every row of both matrices sums to zero. *)
Lemma build_admittance_row_sums N (lines : list (line num)) G B i :
  build_admittance_matrices N lines = Ok (G, B) →
  row_sum G i = nzero ∧ row_sum B i = nzero.
Proof.
  unfold build_admittance_matrices.
  assert (∀ G0 B0, shaped N G0 → shaped N B0 →
          row_sum G0 i = nzero → row_sum B0 i = nzero →
          for_each lines stamp_line (G0, B0) = Ok (G, B) →
          row_sum G i = nzero ∧ row_sum B i = nzero) as Hgen.
  { induction lines as [|l lines IH]; intros G0 B0 HG HB HsG HsB; simpl.
    - by intros [= <- <-].
    - rewrite (stamp_line_shaped N) by done.
      destruct l as [[[a b] r] x].
      destruct (line_admittance r x) as [[g bb]|err]; simpl; [|done].
      destruct (np_index N a) as [a'|err] eqn:Ea; simpl; [|done].
      destruct (np_index N b) as [b'|err] eqn:Eb; simpl; [|done].
      apply np_index_lt in Ea, Eb.
      apply IH; try (by apply stamp_at_shaped);
        by rewrite (row_sum_stamp_at N). }
  apply Hgen; try apply np_zeros_shaped; apply row_sum_np_zeros.
Qed.

Lemma line_admittance_total (r x : num) :
  nis0 r && nis0 x = false → ∃ gb, line_admittance r x = Ok gb.
Proof.
  intros Hz. unfold line_admittance.
  destruct (npow2_total r) as [sr Hr], (npow2_total x) as [sx Hx].
  rewrite Hr, Hx. simpl.
  assert (nis0 (nadd sr sx) = false) as Hnz.
  { destruct (nis0 (nadd sr sx)) eqn:E; [|done].
    destruct (sum_squares_zero r x sr sx Hr Hx E) as [E1 E2].
    by rewrite E1, E2 in Hz. }
  destruct (ndiv_total r _ Hnz) as [g ->].
  destruct (ndiv_total (nneg x) _ Hnz) as [b ->]. simpl. eauto.
Qed.

(** With bus numbers in range and no line without impedance the builder
    returns. *)
Lemma build_admittance_total N (lines : list (line num)) :
  Forall (in_range N) lines →
  Forall (λ l, zero_impedance l = false) lines →
  ∃ G B, build_admittance_matrices N lines = Ok (G, B).
Proof.
  intros Hin Hnz. unfold build_admittance_matrices.
  assert (∀ G0 B0, shaped N G0 → shaped N B0 →
          ∃ G B, for_each lines stamp_line (G0, B0) = Ok (G, B)) as Hgen.
  { induction lines as [|l lines IH]; intros G0 B0 HG HB; simpl; [eauto|].
    rewrite (stamp_line_shaped N) by done.
    inversion Hin as [|? ? Hl Hin']; inversion Hnz as [|? ? Hz Hnz']; subst.
    destruct l as [[[a b] r] x]. simpl in Hl, Hz. destruct Hl as [Ha Hb].
    destruct (line_admittance_total r x Hz) as [[g bb] ->]. simpl.
    rewrite !np_index_in_range by done. simpl.
    apply IH; try done; by apply stamp_at_shaped. }
  apply Hgen; apply np_zeros_shaped.
Qed.
End ExactRows.

(** The rationals are exact. *)
Lemma Qc_sum_squares_zero (a b : Qc) :
  (a * a + b * b = 0)%Qc → a = 0%Qc ∧ b = 0%Qc.
Proof.
  intros H.
  assert (Hq : (this (a * a + b * b)%Qc == 0)%Q) by (rewrite H; reflexivity).
  unfold Qcplus, Qcmult, Q2Qc in Hq. cbn [this] in Hq.
  rewrite !Qred_correct in Hq.
  split; apply Qc_is_canon; change (this 0%Qc) with 0%Q; nra.
Qed.

#[export] Instance exact_ExactNum : ExactNum Qc.
Proof.
  split; simpl.
  - apply Qcplus_comm.
  - apply Qcplus_assoc.
  - apply Qcplus_0_l.
  - apply Qcplus_opp_r.
  - done.
  - eauto.
  - intros a b Hb. unfold Qc_truediv.
    apply bool_decide_eq_false in Hb. rewrite decide_False by done. eauto.
  - intros a b sa sb [= <-] [= <-] Hz. apply bool_decide_eq_true in Hz.
    apply Qc_sum_squares_zero in Hz as [-> ->].
    by rewrite !bool_decide_eq_true_2.
Qed.

(** ** Zero impedance in binary64 *)

Lemma float_eqb_zero (r : float) :
  (r =? 0)%float = true → r = 0%float ∨ r = (-0)%float.
Proof.
  intros H. rewrite FloatAxioms.eqb_spec in H.
  change (Prim2SF 0) with (S754_zero false) in H.
  rewrite <- (SF2Prim_Prim2SF r).
  destruct (Prim2SF r) as [s| | |s m e]; try discriminate H.
  - destruct s; [right|left]; reflexivity.
  - destruct s; discriminate H.
  - destruct s; discriminate H.
Qed.

Lemma line_admittance_zero (r x : float) :
  nis0 r && nis0 x = true → line_admittance r x = Raise ZeroDivisionError.
Proof.
  intros [Hr Hx]%andb_prop. simpl in Hr, Hx.
  destruct (float_eqb_zero r Hr) as [-> | ->],
           (float_eqb_zero x Hx) as [-> | ->]; by vm_compute.
Qed.

Lemma stamp_line_zero (GB : matrix float * matrix float) (l : line float) :
  zero_impedance l = true → stamp_line GB l = Raise ZeroDivisionError.
Proof.
  destruct l as [[[i j] r] x]. intros Hz. unfold stamp_line.
  by rewrite (line_admittance_zero r x Hz).
Qed.

(** The loop body tests nothing but what its arithmetic tests: on numbers
    whose square and division never raise, bus numbers in range are all it
    takes for the builder to return. *)
Section Unguarded.
Context {num : Type} `{!PyNum num}.
Hypothesis Hpow : ∀ a : num, ∃ s, npow2 a = Ok s.
Hypothesis Hdiv : ∀ a b : num, ∃ q, ndiv a b = Ok q.

Lemma build_admittance_unguarded N (lines : list (line num)) :
  Forall (in_range N) lines →
  ∃ G B, build_admittance_matrices N lines = Ok (G, B).
Proof.
  intros Hin. unfold build_admittance_matrices.
  assert (∀ G0 B0, shaped N G0 → shaped N B0 →
          ∃ G B, for_each lines stamp_line (G0, B0) = Ok (G, B)) as Hgen.
  { induction Hin as [|l lines Hl _ IH]; intros G0 B0 HG HB; simpl; [eauto|].
    rewrite (stamp_line_shaped N) by done.
    destruct l as [[[a b] r] x]. simpl in Hl. destruct Hl as [Ha Hb].
    unfold line_admittance.
    destruct (Hpow r) as [r2 ->]. destruct (Hpow x) as [x2 ->]. simpl.
    destruct (Hdiv r (nadd r2 x2)) as [g ->].
    destruct (Hdiv (nneg x) (nadd r2 x2)) as [bb ->]. simpl.
    rewrite !np_index_in_range by done. simpl.
    apply IH; by apply stamp_at_shaped. }
  apply Hgen; apply np_zeros_shaped.
Qed.
End Unguarded.

(** In binary64 the admittance of a line whose squares exist is decided by
    the division alone: it raises when [z_sq == 0]. *)
Lemma line_admittance_binary64 (r x r2 x2 : float) :
  float_pow2 r = Ok r2 → float_pow2 x = Ok x2 →
  line_admittance r x
  = if (r2 + x2 =? 0)%float then Raise ZeroDivisionError
    else Ok (r / (r2 + x2), - x / (r2 + x2))%float.
Proof.
  intros Hr Hx. unfold line_admittance. cbn [npow2 ndiv nadd nneg binary64].
  rewrite Hr, Hx. cbn [mbind result_bind]. unfold float_truediv.
  by destruct (r2 + x2 =? 0)%float.
Qed.

(** * The claims about the admittance builder *)

(** C1: for every line list, [build_admittance_matrices] computes for each
    line [z_sq = r**2 + x**2], [g = r/z_sq], [b = -x/z_sq], adds [g] to
    [G[i][i]] and [G[j][j]] and subtracts it from [G[i][j]] and [G[j][i]]
    (and likewise [b] in [B]), one line after the other: every entry of the
    result is what [entries_after] accumulates, and the builder raises
    exactly when that rule does. Two lines between the same two buses add
    up. The single line [(0, 1, 0.02, 0.06)] has [g = 5.0] and [b = -15.0]
    and gives [G = [[5,-5],[-5,5]]], [B = [[-15,15],[15,-15]]] over two
    buses, in binary64. *)
Theorem C1_admittance_accumulation :
  (∀ (num : Type) (PN : PyNum num) (N : nat) (lines : list (line num))
     (a c : nat),
      a < N → c < N →
      match build_admittance_matrices N lines with
      | Ok (G, B) =>
          ∃ g b, entries_after N lines a c (nzero, nzero) = Ok (g, b) ∧
                 mget G a c = Some g ∧ mget B a c = Some b
      | Raise err => entries_after N lines a c (nzero, nzero) = Raise err
      end)
  ∧ (∀ (num : Type) (PN : PyNum num) (N i j : nat)
       (r1 x1 r2 x2 g1 b1 g2 b2 : num),
      i < N → j < N → i ≠ j →
      line_admittance r1 x1 = Ok (g1, b1) →
      line_admittance r2 x2 = Ok (g2, b2) →
      ∃ G B,
        build_admittance_matrices N
          [(Z.of_nat i, Z.of_nat j, r1, x1); (Z.of_nat i, Z.of_nat j, r2, x2)]
        = Ok (G, B) ∧
        mget G i i = Some (nadd (nadd nzero g1) g2) ∧
        mget G j j = Some (nadd (nadd nzero g1) g2) ∧
        mget G i j = Some (nsub (nsub nzero g1) g2) ∧
        mget G j i = Some (nsub (nsub nzero g1) g2) ∧
        mget B i i = Some (nadd (nadd nzero b1) b2) ∧
        mget B j j = Some (nadd (nadd nzero b1) b2) ∧
        mget B i j = Some (nsub (nsub nzero b1) b2) ∧
        mget B j i = Some (nsub (nsub nzero b1) b2))
  ∧ line_admittance 0.02%float 0.06%float = Ok (5, -15)%float
  ∧ build_admittance_matrices 2 lines_example
    = Ok ([[5; -5]; [-5; 5]], [[-15; 15]; [15; -15]])%float.
Proof.
  split; [|split; [|split]].
  - intros num PN N lines a c Ha Hc. by apply build_admittance_entries.
  - intros num PN N i j r1 x1 r2 x2 g1 b1 g2 b2.
    apply build_admittance_parallel.
  - by vm_compute.
  - by vm_compute.
Qed.

Lemma C1_witness :
  (0 < 2 ∧ 1 < 2) ∧
  match build_admittance_matrices 2 lines_example with
  | Ok (G, B) =>
      ∃ g b, entries_after 2 lines_example 0 1 (nzero, nzero) = Ok (g, b) ∧
             mget G 0 1 = Some g ∧ mget B 0 1 = Some b
  | Raise err => entries_after 2 lines_example 0 1 (nzero, nzero) = Raise err
  end.
Proof.
  split; [lia|].
  apply (proj1 C1_admittance_accumulation float binary64 2 lines_example 0 1);
    lia.
Defined.

(** C2, as the code has it: a line with [r == 0] and [x == 0] makes the
    division [r / z_sq] raise [ZeroDivisionError], so a line list that
    contains one never yields matrices; the exception is
    [ZeroDivisionError] whenever the lines before it are processed without
    an exception of their own; and the model builders pass the builder's
    exception on without returning a model. There is no check of [r] and
    [x] in front of the division: what is tested is [z_sq == 0], by the
    division itself, and on numbers whose square and division never raise
    the builder returns matrices for every line list with bus numbers in
    range, lines without impedance included. *)
Theorem C2_zero_impedance_fails (N : nat) (pre post : list (line float))
    (l : line float) :
  zero_impedance l = true →
  (∃ e, build_admittance_matrices N (pre ++ l :: post) = Raise e)
  ∧ ((∃ GB, build_admittance_matrices N pre = Ok GB) →
     build_admittance_matrices N (pre ++ l :: post) = Raise ZeroDivisionError)
  ∧ (∀ (BUS : bus_table) e,
       build_admittance_matrices N (pre ++ l :: post) = Raise e →
       build_ac_model N BUS (pre ++ l :: post)
       = (GEN_BUSES N BUS ≫= λ _, Raise e)
       ∧ build_dc_model N BUS (pre ++ l :: post)
         = (GEN_BUSES N BUS ≫= λ _, Raise e))
  ∧ (∀ r x r2 x2 : float,
       float_pow2 r = Ok r2 → float_pow2 x = Ok x2 →
       line_admittance r x
       = if (r2 + x2 =? 0)%float then Raise ZeroDivisionError
         else Ok (r / (r2 + x2), - x / (r2 + x2))%float)
  ∧ (∀ (num : Type) (PN : PyNum num),
       (∀ a : num, ∃ s, npow2 a = Ok s) →
       (∀ a b : num, ∃ q, ndiv a b = Ok q) →
       ∀ lines : list (line num),
         Forall (in_range N) lines →
         ∃ G B, build_admittance_matrices N lines = Ok (G, B)).
Proof.
  intros Hz. split; [|split; [|split; [|split]]].
  - unfold build_admittance_matrices. rewrite for_each_app.
    destruct (for_each pre stamp_line _) as [GB|e]; simpl; [|eauto].
    rewrite stamp_line_zero by done. eauto.
  - intros [GB HGB]. unfold build_admittance_matrices in *.
    rewrite for_each_app, HGB. simpl. by rewrite stamp_line_zero.
  - intros BUS e He. unfold build_ac_model, build_dc_model.
    unfold build_admittance_matrices in *. rewrite He. done.
  - apply line_admittance_binary64.
  - intros num PN Hpow Hdiv lines. by apply build_admittance_unguarded.
Qed.

Lemma C2_witness :
  zero_impedance (Line 1 2 0 0) = true ∧
  build_admittance_matrices 5 ([Line 0 1 0.02 0.06] ++ Line 1 2 0 0 :: [])
  = Raise ZeroDivisionError.
Proof.
  split; [by vm_compute|].
  apply (C2_zero_impedance_fails 5 [Line 0 1 0.02 0.06] [] (Line 1 2 0 0));
    [by vm_compute|].
  eexists. by vm_compute.
Defined.

(** The claim as the specification words it fails on input within the
    contract of the builder (every line joins two different buses of the
    five). The exception of a line list with a line without impedance need
    not be [ZeroDivisionError]: the square of the resistance 1e200 of an
    earlier line raises [OverflowError]. And the zero-impedance case has no
    check of its own: the line [(0, 1, 1e-200, 0.0)] has impedance, its
    [z_sq] underflows to 0 and the division raises the very
    [ZeroDivisionError]; with the arithmetic of [numpy.float64], whose
    division does not raise, the builder returns matrices for the line
    [(0, 1, 0.0, 0.0)]. *)
Lemma C2_counterexample :
  (Forall (in_range 5) lines_overflow_first ∧
   Forall (λ l, l.1.1.1 ≠ l.1.1.2) lines_overflow_first ∧
   Exists (λ l, zero_impedance l = true) lines_overflow_first ∧
   build_admittance_matrices 5 lines_overflow_first = Raise OverflowError)
  ∧ (in_range 5 line_underflow ∧
     zero_impedance line_underflow = false ∧
     build_admittance_matrices 5 [line_underflow] = Raise ZeroDivisionError)
  ∧ (in_range 5 (Line 0 1 0 0 : line float) ∧
     @zero_impedance float unchecked (Line 0 1 0 0) = true ∧
     ∃ G B, @build_admittance_matrices float unchecked 5 [Line 0 1 0 0]
            = Ok (G, B)).
Proof.
  split; [|split].
  - split; [|split; [|split]].
    + unfold lines_overflow_first. repeat constructor; simpl; lia.
    + unfold lines_overflow_first. by repeat constructor.
    + apply Exists_cons_tl, Exists_cons_hd. by vm_compute.
    + by vm_compute.
  - split; [|split].
    + unfold line_underflow. simpl. lia.
    + by vm_compute.
    + by vm_compute.
  - split; [|split].
    + simpl. lia.
    + by vm_compute.
    + eexists _, _. by vm_compute.
Qed.

(** C3: the matrices returned by [build_admittance_matrices] are symmetric:
    [G[i][j]] and [G[j][i]] are the same number for all [i], [j], and so
    are [B[i][j]] and [B[j][i]]; inside the [N] buses the entries exist. *)
Theorem C3_admittance_symmetric (num : Type) (PN : PyNum num) (N : nat)
    (lines : list (line num)) (G B : matrix num) :
  build_admittance_matrices N lines = Ok (G, B) →
  ∀ i j,
    mget G i j = mget G j i ∧ mget B i j = mget B j i ∧
    (i < N → j < N → is_Some (mget G i j) ∧ is_Some (mget B i j)).
Proof.
  intros Hb i j.
  destruct (build_admittance_symmetric N lines G B i j Hb) as [HG HB].
  destruct (build_admittance_shaped N lines G B Hb) as [SG SB].
  split; [done|]. split; [done|].
  intros Hi Hj. split; by apply (shaped_mget N).
Qed.

Lemma C3_witness :
  build_admittance_matrices 2 lines_example
  = Ok ([[5; -5]; [-5; 5]], [[-15; 15]; [15; -15]])%float ∧
  mget [[5; -5]; [-5; 5]]%float 0 1 = mget [[5; -5]; [-5; 5]]%float 1 0 ∧
  mget [[-15; 15]; [15; -15]]%float 0 1
  = mget [[-15; 15]; [15; -15]]%float 1 0 ∧
  (0 < 2 → 1 < 2 →
   is_Some (mget [[5; -5]; [-5; 5]]%float 0 1) ∧
   is_Some (mget [[-15; 15]; [15; -15]]%float 0 1)).
Proof.
  split; [by vm_compute|].
  apply (C3_admittance_symmetric float binary64 2 lines_example).
  by vm_compute.
Defined.

(** C9, as the code has it: in exact arithmetic every row of [G] and of [B]
    sums to zero, for every line list the builder accepts, and it accepts
    every list whose bus numbers are in range and whose lines all have an
    impedance. In binary64 the rows of the repository's own line table sum
    to exactly zero as well. *)
Theorem C9_row_sums_exact :
  (∀ (num : Type) (PN : PyNum num), ExactNum num →
     ∀ (N : nat) (lines : list (line num)),
       (Forall (in_range N) lines →
        Forall (λ l, zero_impedance l = false) lines →
        ∃ G B, build_admittance_matrices N lines = Ok (G, B))
       ∧ (∀ G B, build_admittance_matrices N lines = Ok (G, B) →
          ∀ i, row_sum G i = nzero ∧ row_sum B i = nzero))
  ∧ (∃ G B, build_admittance_matrices N_BUS LINE_DATA = Ok (G, B) ∧
            ∀ i, i < N_BUS →
                 row_sum G i = 0%float ∧ row_sum B i = 0%float).
Proof.
  split.
  - intros num PN EX N lines. split.
    + apply build_admittance_total.
    + intros G B Hb i. by apply (build_admittance_row_sums N lines).
  - destruct (build_admittance_matrices N_BUS LINE_DATA) as [[G B]|e] eqn:E;
      [|by vm_compute in E].
    exists G, B. split; [done|].
    vm_compute in E. injection E as <- <-.
    intros i Hi. unfold N_BUS in Hi.
    do 5 (destruct i as [|i]; [by vm_compute|]). lia.
Qed.

Lemma C9_witness :
  ∃ G B, build_admittance_matrices 2 lines_example_exact = Ok (G, B) ∧
         ∀ i, row_sum G i = 0%Qc ∧ row_sum B i = 0%Qc.
Proof.
  destruct (proj1 C9_row_sums_exact Qc exact exact_ExactNum 2
              lines_example_exact) as [Htotal Hsum].
  destruct Htotal as (G & B & Hb).
  - repeat constructor; simpl; lia.
  - repeat constructor.
  - exists G, B. split; [done|]. by apply Hsum.
Defined.

(** In binary64 the claim fails: with conductances 1 and 2**53 out of bus 0
    the diagonal entry [1 + 2**53] rounds to [2**53] and row 0 sums to
    [-1]. *)
Lemma C9_counterexample :
  Forall (λ l, zero_impedance l = false) lines_absorbing ∧
  ∃ G B, build_admittance_matrices 3 lines_absorbing = Ok (G, B) ∧
         G !! 0 = Some [0x1p53; -1; -0x1p53]%float ∧
         row_sum G 0 = (-1)%float ∧ nis0 (row_sum G 0) = false.
Proof.
  split; [repeat constructor|].
  destruct (build_admittance_matrices 3 lines_absorbing) as [[G B]|e] eqn:E;
    [|by vm_compute in E].
  exists G, B. split; [done|].
  vm_compute in E. injection E as <- <-. by vm_compute.
Qed.


(** * Loops and comprehensions *)

Tactic Notation "inv_bind" hyp(H) "as" simple_intropattern(x)
    simple_intropattern(Hx) :=
  apply bind_Ok in H as (x & Hx & H).

Lemma getitem_Ok `{FinMap K M} {V : Type} (d : M V) (k : K) (v : V) :
  getitem d k = Ok v ↔ d !! k = Some v.
Proof.
  unfold getitem. destruct (d !! k); split; intros [=]; by subst.
Qed.

Lemma for_each_invariant {A S : Type} (P : S → Prop) (xs : list A)
    (body : S → A → result S) (s s' : S) :
  (∀ s x s', x ∈ xs → body s x = Ok s' → P s → P s') →
  P s → for_each xs body s = Ok s' → P s'.
Proof.
  revert s. induction xs as [|x xs IH]; intros s Hstep Hs; simpl.
  - by intros [= <-].
  - intros H. inv_bind H as s1 Hs1.
    apply (IH s1); [|by eapply Hstep; [left|..]|done].
    intros s2 y s3 Hy. apply Hstep. by right.
Qed.

Lemma filterM_Ok {A : Type} (p : A → result bool) (xs ys : list A) :
  filterM p xs = Ok ys →
  (∀ x, x ∈ ys ↔ x ∈ xs ∧ p x = Ok true) ∧
  Forall (λ x, ∃ b, p x = Ok b) xs.
Proof.
  revert ys. induction xs as [|x xs IH]; intros ys; simpl.
  - intros [= <-]. split; [|done]. intros x. split; [|by intros [? _]].
    by intros ?%elem_of_nil.
  - intros H. inv_bind H as b Hb. inv_bind H as r Hr. injection H as <-.
    destruct (IH _ Hr) as [Hmem Hall]. split; [|constructor; eauto].
    intros y. destruct b.
    + rewrite !elem_of_cons, Hmem. split.
      * intros [->|[? ?]]; eauto.
      * intros [[->|?] ?]; eauto.
    + rewrite elem_of_cons, Hmem. split.
      * intros [? ?]; eauto.
      * intros [[->|?] ?]; [congruence|eauto].
Qed.

Lemma mapM_Ok {A B : Type} (f : A → result B) (xs : list A) (ys : list B) :
  mapM f xs = Ok ys ↔ Forall2 (λ x y, f x = Ok y) xs ys.
Proof.
  revert ys. induction xs as [|x xs IH]; intros ys; simpl.
  - split; [intros [= <-]; constructor | by inversion 1].
  - split.
    + intros H. inv_bind H as y Hy. inv_bind H as ys' Hys. injection H as <-.
      constructor; [done|]. by apply IH.
    + inversion 1 as [|? y ? ys' Hy Hys]; subst.
      rewrite Hy. simpl. apply IH in Hys. by rewrite Hys.
Qed.

Lemma dict_comp_Ok (keys : list nat) (f : nat → result float)
    (d : gmap nat float) :
  dict_comp keys f = Ok d →
  ∀ i, d !! i = (if decide (i ∈ keys)
                 then match f i with Ok v => Some v | Raise _ => None end
                 else None).
Proof.
  unfold dict_comp.
  assert (∀ d0, for_each keys (λ d i, v ← f i; Ok (<[i := v]> d)) d0 = Ok d →
    ∀ i, d !! i = (if decide (i ∈ keys)
                   then match f i with Ok v => Some v | Raise _ => None end
                   else d0 !! i)) as Hgen.
  { induction keys as [|k keys IH]; intros d0; simpl.
    - by intros [= <-] i.
    - intros H i. inv_bind H as d1 Hd1. inv_bind Hd1 as v Hv.
      injection Hd1 as <-.
      rewrite (IH _ H i). destruct (decide (i ∈ keys)) as [Hin|Hin].
      + rewrite decide_True; [done|]. by right.
      + destruct (decide (i = k)) as [->|Hne].
        * rewrite decide_True by left. by rewrite lookup_insert_eq, Hv.
        * rewrite decide_False by (by intros [?|?]%elem_of_cons).
          by rewrite lookup_insert_ne. }
  intros H i. rewrite (Hgen ∅ H i). by rewrite lookup_empty.
Qed.

Lemma Constraint_Ok (index : list nat) (rule : nat → result relation)
    (comp : component) :
  Constraint index rule = Ok comp →
  ∃ body, comp = CConstraint body ∧
    ∀ i, body !! i = (if decide (i ∈ index)
                      then match rule i with Ok r => Some r | Raise _ => None end
                      else None).
Proof.
  unfold Constraint. intros H. inv_bind H as body Hbody. injection H as <-.
  exists body. split; [done|].
  assert (∀ d0 d : gmap nat relation,
    for_each index (λ d i, r ← rule i; Ok (<[i := r]> d)) d0 = Ok d →
    ∀ i, d !! i = (if decide (i ∈ index)
                   then match rule i with Ok r => Some r | Raise _ => None end
                   else d0 !! i)) as Hgen.
  { clear. induction index as [|k keys IH]; intros d0 d; simpl.
    - by intros [= <-] i.
    - intros H i. inv_bind H as d1 Hd1. inv_bind Hd1 as v Hv.
      injection Hd1 as <-.
      rewrite (IH _ _ H i). destruct (decide (i ∈ keys)) as [Hin|Hin].
      + rewrite decide_True; [done|]. by right.
      + destruct (decide (i = k)) as [->|Hne].
        * rewrite decide_True by left. by rewrite lookup_insert_eq, Hv.
        * rewrite decide_False by (by intros [?|?]%elem_of_cons).
          by rewrite lookup_insert_ne. }
  intros i. rewrite (Hgen ∅ body Hbody i). by rewrite lookup_empty.
Qed.

Lemma elem_of_range (n i : nat) : i ∈ range n ↔ i < n.
Proof. unfold range. rewrite elem_of_seq. lia. Qed.

(** * Models: attributes and variables *)

Lemma skeleton_setattr m a comp :
  skeleton (setattr m a comp) = <[a := static_of comp]> (skeleton m).
Proof. unfold skeleton, setattr. simpl. apply fmap_insert. Qed.

Lemma skeleton_lookup_None m a :
  skeleton m !! a = None ↔ components m !! a = None.
Proof. unfold skeleton. rewrite lookup_fmap. apply fmap_None. Qed.

Lemma skeleton_lookup_static m a comp :
  skeleton m !! a = Some comp → (∀ d, comp ≠ CVar d) →
  components m !! a = Some comp.
Proof.
  unfold skeleton. rewrite lookup_fmap.
  destruct (components m !! a) as [[]|]; simpl; intros [= <-] Hn;
    try done. by destruct (Hn ∅).
Qed.

Lemma getattr_skeleton_None m a :
  skeleton m !! a = None → getattr m a = Raise (AttributeError a).
Proof.
  intros H%skeleton_lookup_None. unfold getattr. by rewrite H.
Qed.

Lemma var_data_setattr m a comp c i :
  var_data (setattr m a comp) c i
  = if decide (a = c)
    then match comp with CVar d => getitem d i | _ => Raise TypeError end
    else var_data m c i.
Proof.
  unfold var_data, getattr, setattr. simpl. case_decide as Hac.
  - subst. by rewrite lookup_insert_eq.
  - by rewrite lookup_insert_ne.
Qed.

Lemma param_get_skeleton m c i d :
  skeleton m !! c = Some (CParam d) → param_get m c i = getitem d i.
Proof.
  intros H. apply skeleton_lookup_static in H; [|done].
  unfold param_get, getattr. by rewrite H.
Qed.

Lemma list_to_map_index {V : Type} (g : nat → V) (idx : list nat) (i : nat) :
  (list_to_map ((λ i, (i, g i)) <$> idx) : gmap nat V) !! i
  = if decide (i ∈ idx) then Some (g i) else None.
Proof.
  induction idx as [|k idx IH]; [done|].
  rewrite fmap_cons, list_to_map_cons. cbn [fst snd].
  destruct (decide (i = k)) as [->|Hne].
  - rewrite lookup_insert_eq. by rewrite decide_True by left.
  - rewrite lookup_insert_ne by done. rewrite IH.
    destruct (decide (i ∈ idx)).
    + by rewrite decide_True by by right.
    + by rewrite decide_False by (by intros [?|?]%elem_of_cons).
Qed.

Lemma getitem_Var index dom init i :
  match Var index dom init with
  | CVar d => getitem d i
  | _ => Raise TypeError
  end
  = if decide (i ∈ index) then Ok (mkVarData (init i) false None None dom)
    else Raise KeyError.
Proof.
  unfold Var, getitem.
  rewrite (list_to_map_index (λ i, mkVarData (init i) false None None dom)).
  by case_decide.
Qed.

Lemma var_data_Var m c index dom init i :
  var_data (setattr m c (Var index dom init)) c i
  = if decide (i ∈ index) then Ok (mkVarData (init i) false None None dom)
    else Raise KeyError.
Proof.
  rewrite var_data_setattr, decide_True by done. unfold Var, getitem.
  rewrite (list_to_map_index (λ i, mkVarData (init i) false None None dom)).
  by case_decide.
Qed.

Lemma var_update_Ok c i f m m' :
  var_update c i f m = Ok m' →
  ∃ d vd, components m !! c = Some (CVar d) ∧ d !! i = Some vd ∧
          m' = setattr m c (CVar (<[i := f vd]> d)).
Proof.
  unfold var_update, getattr. intros H.
  destruct (components m !! c) as [[]|] eqn:Hc; simpl in H; try done.
  inv_bind H as vd Hvd. injection H as <-.
  apply getitem_Ok in Hvd. eauto.
Qed.

Lemma var_update_skeleton c i f m m' :
  var_update c i f m = Ok m' → skeleton m' = skeleton m.
Proof.
  intros (d & vd & Hc & Hi & ->)%var_update_Ok.
  rewrite skeleton_setattr. apply insert_id.
  unfold skeleton. by rewrite lookup_fmap, Hc.
Qed.

Lemma var_update_var_data c i f m m' c' i' :
  var_update c i f m = Ok m' →
  var_data m' c' i'
  = if decide (c' = c ∧ i' = i) then f <$> var_data m c' i'
    else var_data m c' i'.
Proof.
  intros (d & vd & Hc & Hi & ->)%var_update_Ok.
  rewrite var_data_setattr. destruct (decide (c = c')) as [<-|Hne].
  - unfold var_data, getattr. rewrite Hc. simpl. unfold getitem.
    destruct (decide (i' = i)) as [->|Hi'].
    + rewrite decide_True by done. by rewrite lookup_insert_eq, Hi.
    + rewrite decide_False by (by intros [_ ?]). by rewrite lookup_insert_ne.
  - rewrite decide_False; [done|]. by intros [? _].
Qed.

Lemma var_update_held c i f m m' c' i' :
  (∀ vd, held (f vd) = held vd) →
  var_update c i f m = Ok m' →
  held <$> var_data m' c' i' = held <$> var_data m c' i'.
Proof.
  intros Hf H. rewrite (var_update_var_data c i f m m' c' i' H).
  case_decide; [|done]. destruct (var_data m c' i'); simpl; [|done].
  by rewrite Hf.
Qed.

Lemma held_setlb v vd : held (setlb v vd) = held vd.
Proof. done. Qed.
Lemma held_setub v vd : held (setub v vd) = held vd.
Proof. done. Qed.

Lemma fix_fix v vd : fix_ v (fix_ v vd) = fix_ v vd.
Proof. done. Qed.

(** The loop that fixes one family at the buses of a list. *)
Lemma for_each_fix c v (xs : list nat) m m' :
  for_each xs (λ m i, var_update c i (fix_ v) m) m = Ok m' →
  skeleton m' = skeleton m ∧
  ∀ c' i', var_data m' c' i'
           = if decide (c' = c ∧ i' ∈ xs) then fix_ v <$> var_data m c' i'
             else var_data m c' i'.
Proof.
  revert m. induction xs as [|x xs IH]; intros m; simpl.
  - intros [= <-]. split; [done|]. intros c' i'.
    rewrite decide_False; [done|]. intros [_ []%elem_of_nil].
  - intros H. inv_bind H as m1 Hm1. destruct (IH _ H) as [Hsk Hvd].
    split; [by rewrite Hsk, (var_update_skeleton _ _ _ _ _ Hm1)|].
    intros c' i'. rewrite Hvd, (var_update_var_data _ _ _ _ _ c' i' Hm1).
    repeat case_decide; destruct_and?; subst; try done;
      try (destruct (var_data m c _); simpl; done);
      exfalso; rewrite elem_of_cons in *; intuition congruence.
Qed.

(** The loop over [LOAD_BUSES] of the AC model. *)
Lemma for_each_ac_fix_load (xs : list nat) m m' :
  for_each xs ac_fix_load m = Ok m' →
  skeleton m' = skeleton m ∧
  ∀ c i, var_data m' c i
         = if decide ((c = "Pg" ∨ c = "Qg") ∧ i ∈ xs)
           then fix_ 0 <$> var_data m c i
           else var_data m c i.
Proof.
  revert m. induction xs as [|x xs IH]; intros m; simpl.
  - intros [= <-]. split; [done|]. intros c i.
    rewrite decide_False; [done|]. intros [_ []%elem_of_nil].
  - intros H. inv_bind H as m2 Hm2. unfold ac_fix_load in Hm2.
    inv_bind Hm2 as m1 Hm1. destruct (IH _ H) as [Hsk Hvd].
    split.
    { by rewrite Hsk, (var_update_skeleton _ _ _ _ _ Hm2),
                      (var_update_skeleton _ _ _ _ _ Hm1). }
    intros c i. rewrite Hvd, (var_update_var_data _ _ _ _ _ c i Hm2),
                         (var_update_var_data _ _ _ _ _ c i Hm1).
    repeat case_decide; destruct_and?; destruct_or?; subst; try done;
      try (destruct (var_data m _ _); simpl; done);
      exfalso; rewrite elem_of_cons in *; intuition congruence.
Qed.

(** Setting bounds changes neither values nor fixings. *)
Lemma ac_set_bounds_held BUS m i m' :
  ac_set_bounds BUS m i = Ok m' →
  skeleton m' = skeleton m ∧
  ∀ c k, held <$> var_data m' c k = held <$> var_data m c k.
Proof.
  unfold ac_set_bounds. intros H.
  inv_bind H as v0 Hv0. inv_bind H as m0 Hm0.
  inv_bind H as v1 Hv1. inv_bind H as m1 Hm1.
  inv_bind H as v2 Hv2. inv_bind H as m2 Hm2.
  inv_bind H as v3 Hv3. inv_bind H as m3 Hm3.
  inv_bind H as v4 Hv4. inv_bind H as m4 Hm4.
  inv_bind H as v5 Hv5. inv_bind H as m5 Hm5.
  inv_bind H as m6 Hm6.
  split.
  - rewrite (var_update_skeleton _ _ _ _ _ H),
      (var_update_skeleton _ _ _ _ _ Hm6), (var_update_skeleton _ _ _ _ _ Hm5),
      (var_update_skeleton _ _ _ _ _ Hm4), (var_update_skeleton _ _ _ _ _ Hm3),
      (var_update_skeleton _ _ _ _ _ Hm2), (var_update_skeleton _ _ _ _ _ Hm1).
    by apply (var_update_skeleton _ _ _ _ _ Hm0).
  - intros c k.
    rewrite (var_update_held _ _ _ _ _ c k (held_setub _) H),
      (var_update_held _ _ _ _ _ c k (held_setlb _) Hm6),
      (var_update_held _ _ _ _ _ c k (held_setub _) Hm5),
      (var_update_held _ _ _ _ _ c k (held_setlb _) Hm4),
      (var_update_held _ _ _ _ _ c k (held_setub _) Hm3),
      (var_update_held _ _ _ _ _ c k (held_setlb _) Hm2),
      (var_update_held _ _ _ _ _ c k (held_setub _) Hm1).
    by apply (var_update_held _ _ _ _ _ c k (held_setlb _) Hm0).
Qed.

Lemma dc_set_bounds_held BUS m i m' :
  dc_set_bounds BUS m i = Ok m' →
  skeleton m' = skeleton m ∧
  ∀ c k, held <$> var_data m' c k = held <$> var_data m c k.
Proof.
  unfold dc_set_bounds. intros H.
  inv_bind H as v Hv. inv_bind H as m1 Hm1.
  inv_bind H as v' Hv'. inv_bind H as m2 Hm2. inv_bind H as m3 Hm3.
  split.
  - rewrite (var_update_skeleton _ _ _ _ _ H),
      (var_update_skeleton _ _ _ _ _ Hm3), (var_update_skeleton _ _ _ _ _ Hm2).
    by apply (var_update_skeleton _ _ _ _ _ Hm1).
  - intros c k.
    rewrite (var_update_held _ _ _ _ _ c k (held_setub _) H),
      (var_update_held _ _ _ _ _ c k (held_setlb _) Hm3),
      (var_update_held _ _ _ _ _ c k (held_setub _) Hm2).
    by apply (var_update_held _ _ _ _ _ c k (held_setlb _) Hm1).
Qed.

Lemma for_each_held {A : Type} (body : model → A → result model)
    (xs : list A) m m' :
  (∀ m x m', body m x = Ok m' →
     skeleton m' = skeleton m ∧
     ∀ c k, held <$> var_data m' c k = held <$> var_data m c k) →
  for_each xs body m = Ok m' →
  skeleton m' = skeleton m ∧
  ∀ c k, held <$> var_data m' c k = held <$> var_data m c k.
Proof.
  intros Hbody H.
  apply (for_each_invariant
           (λ m1, skeleton m1 = skeleton m ∧
                  ∀ c k, held <$> var_data m1 c k = held <$> var_data m c k)
           xs body m m'); [|done|done].
  intros s x s' _ Hs [Hsk Hvd]. destruct (Hbody _ _ _ Hs) as [Hsk' Hvd'].
  split; [congruence|]. intros c k. by rewrite Hvd', Hvd.
Qed.

(** * The builders, step by step *)

Lemma skeleton_ConcreteModel nm : skeleton (ConcreteModel nm) = ∅.
Proof. unfold skeleton. simpl. apply fmap_empty. Qed.

Lemma elem_of_LOAD_BUSES N gen i :
  i ∈ LOAD_BUSES N gen ↔ i < N ∧ i ∉ gen.
Proof.
  unfold LOAD_BUSES. rewrite list_elem_of_filter, elem_of_range. tauto.
Qed.

Lemma GEN_BUSES_Ok N BUS gen :
  GEN_BUSES N BUS = Ok gen →
  ∀ i, i ∈ gen ↔
       i < N ∧ ∃ v, bus_field BUS i "PGmax" = Ok v ∧ (0 <? v)%float = true.
Proof.
  unfold GEN_BUSES. intros [Hmem _]%filterM_Ok i.
  rewrite Hmem, elem_of_range. split.
  - intros [Hi H]. split; [done|]. inv_bind H as v Hv.
    injection H as H. eauto.
  - intros [Hi (v & Hv & Hp)]. split; [done|].
    rewrite Hv. simpl. by rewrite Hp.
Qed.

Lemma var_ref_Ok m c i e : var_ref m c i = Ok e → e = EVar c i.
Proof. unfold var_ref. intros H. inv_bind H as vd Hvd. by injection H. Qed.

Lemma np_getitem_Ok (M : matrix float) (i k : nat) v :
  np_getitem M (Z.of_nat i) (Z.of_nat k) = Ok v → entry M i k = v.
Proof.
  unfold np_getitem, np_index. intros H.
  inv_bind H as a Ha. inv_bind H as b Hb.
  repeat case_bool_decide; simplify_eq; try lia.
  rewrite !Nat2Z.id in H. unfold entry.
  by destruct (mget M i k); simplify_eq.
Qed.

Lemma mapM_fmap {A B : Type} (f : A → result B) (g : A → B) xs ys :
  (∀ x y, x ∈ xs → f x = Ok y → y = g x) →
  mapM f xs = Ok ys → ys = g <$> xs.
Proof.
  intros Hfg H%mapM_Ok. induction H as [|x y xs ys Hxy _ IH]; [done|].
  rewrite fmap_cons. f_equal.
  - apply Hfg; [left|done].
  - apply IH. intros x' y' Hx'. apply Hfg. by right.
Qed.

Lemma Constraint_rule_Ok (index : list nat) (rule : nat → result relation)
    (comp : component) :
  Constraint index rule = Ok comp → ∀ i, i ∈ index → ∃ r, rule i = Ok r.
Proof.
  unfold Constraint. intros H. inv_bind H as body Hbody. clear H.
  revert Hbody. generalize (∅ : gmap nat relation).
  induction index as [|k keys IH]; intros d0 H i Hi; simpl in H.
  - by apply elem_of_nil in Hi.
  - inv_bind H as d1 Hd1. inv_bind Hd1 as r Hr.
    apply elem_of_cons in Hi as [->|Hi]; eauto.
Qed.

Lemma dict_comp_each_Ok (keys : list nat) (f : nat → result float)
    (d : gmap nat float) :
  dict_comp keys f = Ok d → ∀ i, i ∈ keys → ∃ v, f i = Ok v ∧ d !! i = Some v.
Proof.
  intros H i Hi. pose proof (dict_comp_Ok keys f d H i) as Hl.
  rewrite decide_True in Hl by done.
  assert (∃ v, f i = Ok v) as [v Hv].
  { clear Hl. unfold dict_comp in H. revert H. generalize (∅ : gmap nat float).
    induction keys as [|k keys IH]; intros d0 H; simpl in H.
    - by apply elem_of_nil in Hi.
    - inv_bind H as d1 Hd1. inv_bind Hd1 as v Hv.
      apply elem_of_cons in Hi as [->|Hi]; eauto. }
  exists v. by rewrite Hl, Hv.
Qed.

Lemma held_fmap_Ok (r : result VarData) h :
  held <$> r = Ok h → ∃ vd, r = Ok vd ∧ held vd = h.
Proof. destruct r; simpl; intros [=]; eauto. Qed.

(** What [build_dc_model] returns, read off its text. *)
Lemma build_dc_model_inv N BUS lines m :
  build_dc_model N BUS lines = Ok m →
  ∃ gen G B pload cost pb m3,
    GEN_BUSES N BUS = Ok gen ∧
    build_admittance_matrices N lines = Ok (G, B) ∧
    dict_comp (range N) (λ i, bus_field BUS i "Pload") = Ok pload ∧
    mapM (dc_cost_term BUS m3) gen = Ok cost ∧
    Constraint (range N)
      (dc_p_balance_rule B N
         (setattr m3 "obj" (CObjective (sum_expr cost) minimize)))
    = Ok (CConstraint pb) ∧
    skeleton m3
    = <["theta" := CVar ∅]>
        (<["Pg" := CVar ∅]>
           (<["Pload" := CParam pload]> (<["buses" := CSet (range N)]> ∅))) ∧
    skeleton m = dc_skeleton N pload (sum_expr cost) pb ∧
    ∀ i, i < N → generation_fixing (LOAD_BUSES N gen) m "Pg" i.
Proof.
  unfold build_dc_model. intros H.
  inv_bind H as gen Hgen. inv_bind H as GB HGB. destruct GB as [G B].
  cbv beta iota zeta in H.
  inv_bind H as pload Hpload. inv_bind H as m1 Hm1. inv_bind H as m2 Hm2.
  inv_bind H as m3 Hm3. inv_bind H as cost Hcost. inv_bind H as pbc Hpb.
  injection H as <-.
  destruct (Constraint_Ok _ _ _ Hpb) as (pb & -> & _).
  destruct (for_each_fix _ _ _ _ _ Hm2) as [Hsk2 Hvd2].
  destruct (for_each_held _ _ _ _ (dc_set_bounds_held BUS) Hm3) as [Hsk3 Hvd3].
  assert (skeleton m3
          = <["theta" := CVar ∅]>
              (<["Pg" := CVar ∅]>
                 (<["Pload" := CParam pload]>
                    (<["buses" := CSet (range N)]> ∅)))) as Hsk.
  { rewrite Hsk3, Hsk2, (var_update_skeleton _ _ _ _ _ Hm1).
    by rewrite !skeleton_setattr, skeleton_ConcreteModel. }
  exists gen, G, B, pload, cost, pb, m3.
  repeat split; try done.
  - rewrite !skeleton_setattr, Hsk. done.
  - intros i Hi. unfold generation_fixing.
    rewrite !var_data_setattr, !decide_False by done.
    specialize (Hvd3 "Pg" i). rewrite Hvd2 in Hvd3.
    rewrite (var_update_var_data _ _ _ _ _ "Pg" i Hm1) in Hvd3.
    rewrite (decide_False (P := "Pg" = "theta" ∧ i = 0)) in Hvd3
      by (by intros [? _]).
    rewrite var_data_setattr in Hvd3.
    rewrite (decide_False (P := "theta" = "Pg")) in Hvd3 by done.
    rewrite var_data_Var in Hvd3.
    rewrite (decide_True (P := i ∈ range N)) in Hvd3 by by apply elem_of_range.
    destruct (decide (i ∈ LOAD_BUSES N gen)) as [Hl|Hl].
    + rewrite decide_True in Hvd3 by done. simpl in Hvd3.
      apply held_fmap_Ok in Hvd3 as (vd & -> & Hh). exists vd.
      injection Hh as Hv Hf. rewrite bool_decide_eq_true_2 by done. done.
    + rewrite decide_False in Hvd3 by (by intros [_ ?]). simpl in Hvd3.
      apply held_fmap_Ok in Hvd3 as (vd & -> & Hh). exists vd.
      injection Hh as Hv Hf. rewrite bool_decide_eq_false_2 by done. done.
Qed.

(** * The value of the expressions *)

Section Values.
Variables (cos sin : float → float).
Variable rho : string → nat → float.
Abbreviation value_of := (pyo_value cos sin (assignment rho)).

Lemma pyo_value_foldl_EAdd (g : nat → expr) (h : nat → float) xs acc a :
  (∀ k, k ∈ xs → value_of (g k) = Ok (h k)) →
  value_of acc = Ok a →
  value_of (foldl EAdd acc (g <$> xs))
  = Ok (foldl (λ acc k, acc + h k)%float a xs).
Proof.
  revert acc a. induction xs as [|x xs IH]; intros acc a Hg Hacc; [done|].
  rewrite fmap_cons. simpl foldl. apply IH.
  - intros k Hk. apply Hg. by right.
  - simpl. rewrite Hacc, (Hg x) by left. done.
Qed.

Lemma pyo_value_sum_expr (g : nat → expr) (h : nat → float) xs :
  (∀ k, k ∈ xs → value_of (g k) = Ok (h k)) →
  value_of (sum_expr (g <$> xs))
  = Ok (foldl (λ acc k, acc + h k)%float 0%float xs).
Proof. intros Hg. by apply pyo_value_foldl_EAdd. Qed.

Lemma pyo_value_dc_flow (B : matrix float) N i :
  value_of (sum_expr (dc_p_term B i <$> range N))
  = Ok (dc_P_flow B (rho "theta") N i).
Proof. by apply pyo_value_sum_expr. Qed.

Lemma pyo_value_ac_P_flow (G B : matrix float) N i :
  value_of (sum_expr (ac_p_term G B i <$> range N))
  = Ok (ac_P_flow cos sin G B (rho "V") (rho "theta") N i).
Proof. by apply pyo_value_sum_expr. Qed.

Lemma pyo_value_ac_Q_flow (G B : matrix float) N i :
  value_of (sum_expr (ac_q_term G B i <$> range N))
  = Ok (ac_Q_flow cos sin G B (rho "V") (rho "theta") N i).
Proof. by apply pyo_value_sum_expr. Qed.

Lemma pyo_value_linear_cost (b : nat → float) gen :
  value_of (sum_expr ((λ i, EMul (ENum (b i)) (EVar "Pg" i)) <$> gen))
  = Ok (linear_cost gen b (rho "Pg")).
Proof. by apply pyo_value_sum_expr. Qed.
End Values.

(** * The rules *)

Lemma dc_p_balance_rule_Ok B N m i rel pload :
  skeleton m !! "Pload" = Some (CParam pload) →
  dc_p_balance_rule B N m i = Ok rel →
  ∃ pl, pload !! i = Some pl ∧
        rel = EqualityExpression (ESub (EVar "Pg" i) (ENum pl))
                                 (sum_expr (dc_p_term B i <$> range N)).
Proof.
  intros Hsk H. unfold dc_p_balance_rule in H.
  inv_bind H as terms Hterms. cbv zeta in H.
  inv_bind H as Pg HPg. inv_bind H as pl Hpl. injection H as <-.
  rewrite (param_get_skeleton _ _ _ _ Hsk) in Hpl. apply getitem_Ok in Hpl.
  apply var_ref_Ok in HPg as ->.
  exists pl. split; [done|]. f_equal. f_equal.
  apply (mapM_fmap _ (dc_p_term B i)) in Hterms; [done|].
  intros k y _ Hy.
  inv_bind Hy as Bik HB. inv_bind Hy as ti Hti. inv_bind Hy as tk Htk.
  injection Hy as <-.
  apply var_ref_Ok in Hti as ->. apply var_ref_Ok in Htk as ->.
  by apply np_getitem_Ok in HB as <-.
Qed.

Lemma ac_p_balance_rule_Ok G B N m i rel pload :
  skeleton m !! "Pload" = Some (CParam pload) →
  ac_p_balance_rule G B N m i = Ok rel →
  ∃ pl, pload !! i = Some pl ∧
        rel = EqualityExpression (ESub (EVar "Pg" i) (ENum pl))
                                 (sum_expr (ac_p_term G B i <$> range N)).
Proof.
  intros Hsk H. unfold ac_p_balance_rule in H.
  inv_bind H as terms Hterms. cbv zeta in H.
  inv_bind H as Pg HPg. inv_bind H as pl Hpl. injection H as <-.
  rewrite (param_get_skeleton _ _ _ _ Hsk) in Hpl. apply getitem_Ok in Hpl.
  apply var_ref_Ok in HPg as ->.
  exists pl. split; [done|]. f_equal. f_equal.
  apply (mapM_fmap _ (ac_p_term G B i)) in Hterms; [done|].
  intros k y _ Hy.
  inv_bind Hy as Vi HVi. inv_bind Hy as Vk HVk. inv_bind Hy as Gik HG.
  inv_bind Hy as ti Hti. inv_bind Hy as tk Htk. inv_bind Hy as Bik HB.
  inv_bind Hy as ti' Hti'. inv_bind Hy as tk' Htk'.
  injection Hy as <-.
  apply var_ref_Ok in HVi as ->. apply var_ref_Ok in HVk as ->.
  apply var_ref_Ok in Hti as ->. apply var_ref_Ok in Htk as ->.
  apply var_ref_Ok in Hti' as ->. apply var_ref_Ok in Htk' as ->.
  apply np_getitem_Ok in HG as <-. by apply np_getitem_Ok in HB as <-.
Qed.

Lemma ac_q_balance_rule_Ok G B N m i rel qload :
  skeleton m !! "Qload" = Some (CParam qload) →
  ac_q_balance_rule G B N m i = Ok rel →
  ∃ ql, qload !! i = Some ql ∧
        rel = EqualityExpression (ESub (EVar "Qg" i) (ENum ql))
                                 (sum_expr (ac_q_term G B i <$> range N)).
Proof.
  intros Hsk H. unfold ac_q_balance_rule in H.
  inv_bind H as terms Hterms. cbv zeta in H.
  inv_bind H as Qg HQg. inv_bind H as ql Hql. injection H as <-.
  rewrite (param_get_skeleton _ _ _ _ Hsk) in Hql. apply getitem_Ok in Hql.
  apply var_ref_Ok in HQg as ->.
  exists ql. split; [done|]. f_equal. f_equal.
  apply (mapM_fmap _ (ac_q_term G B i)) in Hterms; [done|].
  intros k y _ Hy.
  inv_bind Hy as Vi HVi. inv_bind Hy as Vk HVk. inv_bind Hy as Gik HG.
  inv_bind Hy as ti Hti. inv_bind Hy as tk Htk. inv_bind Hy as Bik HB.
  inv_bind Hy as ti' Hti'. inv_bind Hy as tk' Htk'.
  injection Hy as <-.
  apply var_ref_Ok in HVi as ->. apply var_ref_Ok in HVk as ->.
  apply var_ref_Ok in Hti as ->. apply var_ref_Ok in Htk as ->.
  apply var_ref_Ok in Hti' as ->. apply var_ref_Ok in Htk' as ->.
  apply np_getitem_Ok in HG as <-. by apply np_getitem_Ok in HB as <-.
Qed.

Lemma dc_cost_term_Ok BUS m i e :
  dc_cost_term BUS m i = Ok e →
  bus_field BUS i "b" = Ok (cost_b BUS i) ∧
  e = EMul (ENum (cost_b BUS i)) (EVar "Pg" i).
Proof.
  unfold dc_cost_term, cost_b. intros H.
  inv_bind H as b Hb. inv_bind H as Pg HPg. injection H as <-.
  apply var_ref_Ok in HPg as ->. by rewrite Hb.
Qed.

Lemma filterM_ext {A : Type} (p q : A → result bool) (xs : list A) :
  (∀ x, p x = q x) → filterM p xs = filterM q xs.
Proof.
  intros Hpq. induction xs as [|x xs IH]; simpl; [done|].
  by rewrite Hpq, IH.
Qed.

(** * The claims about the DC model *)

(** C5: for every bus [i] the DC model contains the equality
    [Pg[i] - Pload[i] == sum over all buses k of B[i,k] * (theta[i] -
    theta[k])], with [B] the susceptance matrix of the admittance builder:
    whatever numbers the variables take, the two sides of [p_balance[i]]
    evaluate to these two quantities. *)
Theorem C5_dc_power_balance (N : nat) (BUS : bus_table)
    (lines : list (line float)) (m : model) :
  build_dc_model N BUS lines = Ok m →
  ∃ G B pb,
    build_admittance_matrices N lines = Ok (G, B) ∧
    components m !! "p_balance" = Some (CConstraint pb) ∧
    (∀ i, N ≤ i → pb !! i = None) ∧
    ∀ i, i < N →
      ∃ r Pload,
        pb !! i = Some r ∧ bus_field BUS i "Pload" = Ok Pload ∧
        rhs r = sum_expr (dc_p_term B i <$> range N) ∧
        ∀ cos sin rho,
          pyo_value cos sin (assignment rho) (lhs r)
          = Ok (rho "Pg" i - Pload)%float ∧
          pyo_value cos sin (assignment rho) (rhs r)
          = Ok (dc_P_flow B (rho "theta") N i).
Proof.
  intros (gen & G & B & pload & cost & pb & m3 & Hgen & HGB & Hpload & Hcost
          & Hpb & Hsk3 & Hsk & Hfix)%build_dc_model_inv.
  exists G, B, pb. split; [done|]. split.
  { apply skeleton_lookup_static; [|done]. by rewrite Hsk. }
  destruct (Constraint_Ok _ _ _ Hpb) as (pb' & [= <-] & Hlook).
  split.
  { intros i Hi. rewrite Hlook, decide_False; [done|].
    rewrite elem_of_range. lia. }
  intros i Hi. apply elem_of_range in Hi.
  destruct (Constraint_rule_Ok _ _ _ Hpb i Hi) as [r Hr].
  specialize (Hlook i). rewrite decide_True, Hr in Hlook by done.
  apply (dc_p_balance_rule_Ok _ _ _ _ _ pload) in Hr as (pl & Hpl & ->).
  2:{ rewrite skeleton_setattr, Hsk3. done. }
  destruct (dict_comp_each_Ok _ _ _ Hpload i Hi) as (v & Hv & Hv').
  assert (v = pl) as -> by congruence.
  exists (EqualityExpression (ESub (EVar "Pg" i) (ENum pl))
            (sum_expr (dc_p_term B i <$> range N))), pl.
  repeat split; try done. apply pyo_value_dc_flow.
Qed.

Lemma C5_witness :
  ∃ m G B pb r,
    build_dc_model N_BUS BUS_DATA LINE_DATA = Ok m ∧
    build_admittance_matrices N_BUS LINE_DATA = Ok (G, B) ∧
    components m !! "p_balance" = Some (CConstraint pb) ∧
    pb !! 3 = Some r ∧
    rhs r = sum_expr (dc_p_term B 3 <$> range N_BUS) ∧
    ∀ cos sin rho,
      pyo_value cos sin (assignment rho) (lhs r)
      = Ok (rho "Pg" 3%nat - 0.4)%float.
Proof.
  destruct (build_dc_model N_BUS BUS_DATA LINE_DATA) as [m|e] eqn:E;
    [|by vm_compute in E].
  destruct (C5_dc_power_balance N_BUS BUS_DATA LINE_DATA m E)
    as (G & B & pb & HGB & Hpb & _ & Hi).
  destruct (Hi 3) as (r & Pload & Hr & HP & Hrhs & Hval); [unfold N_BUS; lia|].
  exists m, G, B, pb, r.
  split; [reflexivity|]. split; [exact HGB|]. split; [exact Hpb|].
  split; [exact Hr|]. split; [exact Hrhs|].
  intros cos sin rho. vm_compute in HP. injection HP as <-.
  apply Hval.
Defined.

Lemma constants_sum_expr_costs (b : nat → float) (gen : list nat) :
  constants (sum_expr ((λ i, EMul (ENum (b i)) (EVar "Pg" i)) <$> gen))
  = 0%float :: (b <$> gen).
Proof.
  unfold sum_expr.
  assert (∀ acc, constants
            (foldl EAdd acc ((λ i, EMul (ENum (b i)) (EVar "Pg" i)) <$> gen))
          = constants acc ++ (b <$> gen)) as Hgen.
  { induction gen as [|i gen IH]; intros acc.
    - simpl. by rewrite app_nil_r.
    - rewrite !fmap_cons. simpl foldl. rewrite IH. simpl.
      by rewrite <- app_assoc. }
  by rewrite Hgen.
Qed.

(** C6: the objective of the DC model is minimized and is the linear sum,
    over the generator buses, of [b * Pg]: it evaluates to that sum for
    every assignment, the only numbers in it are the [b] coefficients (and
    the 0 the sum starts from), and a bus table that differs in other
    entries, such as [a] and [c], gives the same objective. *)
Theorem C6_dc_objective (N : nat) (BUS : bus_table)
    (lines : list (line float)) (m : model) :
  build_dc_model N BUS lines = Ok m →
  ∃ gen obj,
    GEN_BUSES N BUS = Ok gen ∧
    components m !! "obj" = Some (CObjective obj minimize) ∧
    obj = sum_expr ((λ i, EMul (ENum (cost_b BUS i)) (EVar "Pg" i)) <$> gen) ∧
    (∀ i, i ∈ gen → bus_field BUS i "b" = Ok (cost_b BUS i)) ∧
    constants obj = 0%float :: (cost_b BUS <$> gen) ∧
    (∀ cos sin rho,
       pyo_value cos sin (assignment rho) obj
       = Ok (linear_cost gen (cost_b BUS) (rho "Pg"))) ∧
    (∀ BUS' m',
       (∀ i, bus_field BUS' i "b" = bus_field BUS i "b") →
       (∀ i, bus_field BUS' i "PGmax" = bus_field BUS i "PGmax") →
       build_dc_model N BUS' lines = Ok m' →
       components m' !! "obj" = Some (CObjective obj minimize)).
Proof.
  intros (gen & G & B & pload & cost & pb & m3 & Hgen & HGB & Hpload & Hcost
          & Hpb & Hsk3 & Hsk & Hfix)%build_dc_model_inv.
  assert (cost = (λ i, EMul (ENum (cost_b BUS i)) (EVar "Pg" i)) <$> gen)
    as ->.
  { apply (mapM_fmap (dc_cost_term BUS m3)); [|done].
    intros i e _ He. by apply dc_cost_term_Ok in He as [_ ->]. }
  eexists gen, _. split; [done|]. split.
  { apply skeleton_lookup_static; [|done]. by rewrite Hsk. }
  split; [done|]. split.
  { intros i Hi. apply mapM_Ok in Hcost.
    apply list_elem_of_lookup in Hi as [k Hk].
    destruct (Forall2_lookup_l _ _ _ _ _ Hcost Hk) as (e & _ & He).
    by apply dc_cost_term_Ok in He as [? _]. }
  split; [apply constants_sum_expr_costs|].
  split; [intros; apply pyo_value_linear_cost|].
  intros BUS' m' Hb HP
    (gen' & G' & B' & pload' & cost' & pb' & m3' & Hgen' & _ & _ & Hcost'
     & _ & _ & Hsk' & _)%build_dc_model_inv.
  assert (gen' = gen) as ->.
  { unfold GEN_BUSES in Hgen, Hgen'.
    rewrite (filterM_ext _ (λ i, pgmax ← bus_field BUS i "PGmax";
                                 Ok (0 <? pgmax)%float)) in Hgen'.
    - congruence.
    - intros i. by rewrite HP. }
  apply skeleton_lookup_static; [|done]. rewrite Hsk'.
  unfold dc_skeleton. rewrite lookup_insert_ne, lookup_insert_eq by done.
  do 2 f_equal. f_equal.
  apply (mapM_fmap (dc_cost_term BUS' m3')); [|done].
  intros i e _ He. apply dc_cost_term_Ok in He as [_ ->].
  unfold cost_b. by rewrite Hb.
Qed.

Lemma C6_witness :
  ∃ m, build_dc_model N_BUS BUS_DATA LINE_DATA = Ok m ∧
       components m !! "obj"
       = Some (CObjective
                 (sum_expr ((λ i, EMul (ENum (cost_b BUS_DATA i)) (EVar "Pg" i))
                              <$> [0; 1; 2]))
                 minimize).
Proof.
  destruct (build_dc_model N_BUS BUS_DATA LINE_DATA) as [m|e] eqn:E;
    [|by vm_compute in E].
  exists m. split; [done|].
  destruct (C6_dc_objective N_BUS BUS_DATA LINE_DATA m E)
    as (gen & obj & Hgen & Hobj & -> & _).
  vm_compute in Hgen. by injection Hgen as <-.
Defined.

(** * The AC builder, step by step *)

Lemma generation_fixing_intro LOAD m c i vd0 :
  fixed vd0 = false →
  held <$> var_data m c i
  = held <$> (if decide (i ∈ LOAD) then fix_ 0 <$> Ok vd0 else Ok vd0) →
  generation_fixing LOAD m c i.
Proof.
  intros Hfree H. unfold generation_fixing. case_decide as Hl; simpl in H.
  - apply held_fmap_Ok in H as (vd & -> & Hh). exists vd.
    injection Hh as Hv Hf. by rewrite bool_decide_eq_true_2.
  - apply held_fmap_Ok in H as (vd & -> & Hh). exists vd.
    injection Hh as Hv Hf. rewrite bool_decide_eq_false_2 by done.
    split; [done|]. split; [congruence|done].
Qed.

(** A variable built from a dictionary is the sparse variable, and exists
    exactly when the keys of the dictionary are members of the index set. *)
Lemma Var_from_dict_Ok index dom d c :
  Var_from_dict index dom d = Ok c →
  c = Var index dom (λ i, d !! i) ∧ ∀ k, is_Some (d !! k) → k ∈ index.
Proof.
  unfold Var_from_dict.
  destruct (forallb _ _) eqn:Hall; [|done]. intros [= <-]. split; [done|].
  intros k [v Hk]. apply elem_of_map_to_list in Hk.
  rewrite forallb_forall in Hall.
  eapply bool_decide_eq_true_1, Hall, list_elem_of_In, list_elem_of_fmap.
  by exists (k, v).
Qed.

(** The dictionary of [m.Pg] has the keys 0 to 4: the variable exists
    exactly when there are five buses or more. *)
Lemma Var_from_dict_Pg N total :
  Var_from_dict (range N) Reals
    (list_to_map [(0, total); (1, 0.1%float); (2, 0.1%float);
                  (3, 0%float); (4, 0%float)])
  = if decide (5 ≤ N) then Ok (Var (range N) Reals (λ i,
        (list_to_map [(0, total); (1, 0.1%float); (2, 0.1%float);
                      (3, 0%float); (4, 0%float)] : gmap nat float) !! i))
    else Raise KeyError.
Proof.
  unfold Var_from_dict.
  assert ((map_to_list (list_to_map [(0, total); (1, 0.1%float);
             (2, 0.1%float); (3, 0%float); (4, 0%float)] : gmap nat float)).*1
          = [4; 2; 3; 1; 0]) as -> by by vm_compute.
  cbn [forallb]. destruct (decide (5 ≤ N)) as [HN|HN].
  - rewrite !bool_decide_eq_true_2 by (apply elem_of_range; lia). done.
  - rewrite (bool_decide_eq_false_2 (4 ∈ range N))
      by (rewrite elem_of_range; lia). done.
Qed.

(** What [build_ac_model] returns, read off its text. *)
Lemma build_ac_model_inv N BUS lines m :
  build_ac_model N BUS lines = Ok m →
  ∃ gen G B pload qload cost pb qb m4,
    GEN_BUSES N BUS = Ok gen ∧
    build_admittance_matrices N lines = Ok (G, B) ∧
    dict_comp (range N) (λ i, bus_field BUS i "Pload") = Ok pload ∧
    dict_comp (range N) (λ i, bus_field BUS i "Qload") = Ok qload ∧
    Constraint (range N)
      (ac_p_balance_rule G B N
         (setattr m4 "obj" (CObjective (sum_expr cost) minimize)))
    = Ok (CConstraint pb) ∧
    Constraint (range N)
      (ac_q_balance_rule G B N
         (setattr (setattr m4 "obj" (CObjective (sum_expr cost) minimize))
                  "p_balance" (CConstraint pb)))
    = Ok (CConstraint qb) ∧
    skeleton m4
    = <["theta" := CVar ∅]>
        (<["V" := CVar ∅]>
           (<["Qg" := CVar ∅]>
              (<["Pg" := CVar ∅]>
                 (<["Qload" := CParam qload]>
                    (<["Pload" := CParam pload]>
                       (<["buses" := CSet (range N)]> ∅)))))) ∧
    skeleton m = ac_skeleton N pload qload (sum_expr cost) pb qb ∧
    ∀ i, i < N →
         generation_fixing (LOAD_BUSES N gen) m "Pg" i ∧
         generation_fixing (LOAD_BUSES N gen) m "Qg" i.
Proof.
  unfold build_ac_model. intros H.
  inv_bind H as gen Hgen. inv_bind H as GB HGB. destruct GB as [G B].
  cbv beta iota zeta in H.
  inv_bind H as pload Hpload. inv_bind H as qload Hqload.
  inv_bind H as total Htotal.
  inv_bind H as Pgc HPgc. apply Var_from_dict_Ok in HPgc as [-> _].
  inv_bind H as m1 Hm1. inv_bind H as m2 Hm2. inv_bind H as m3 Hm3.
  inv_bind H as m4 Hm4. inv_bind H as cost Hcost.
  inv_bind H as pbc Hpb. inv_bind H as qbc Hqb.
  injection H as <-.
  destruct (Constraint_Ok _ _ _ Hpb) as (pb & -> & _).
  destruct (Constraint_Ok _ _ _ Hqb) as (qb & -> & _).
  destruct (for_each_ac_fix_load _ _ _ Hm3) as [Hsk3 Hvd3].
  destruct (for_each_held _ _ _ _ (ac_set_bounds_held BUS) Hm4) as [Hsk4 Hvd4].
  assert (skeleton m4
          = <["theta" := CVar ∅]>
              (<["V" := CVar ∅]>
                 (<["Qg" := CVar ∅]>
                    (<["Pg" := CVar ∅]>
                       (<["Qload" := CParam qload]>
                          (<["Pload" := CParam pload]>
                             (<["buses" := CSet (range N)]> ∅))))))) as Hsk.
  { rewrite Hsk4, Hsk3, (var_update_skeleton _ _ _ _ _ Hm2),
      (var_update_skeleton _ _ _ _ _ Hm1).
    by rewrite !skeleton_setattr, skeleton_ConcreteModel. }
  exists gen, G, B, pload, qload, cost, pb, qb, m4.
  repeat split; try done.
  - rewrite !skeleton_setattr, Hsk. done.
  - eapply generation_fixing_intro; [shelve|].
    rewrite !var_data_setattr, !decide_False by done.
    rewrite (Hvd4 "Pg" i), (Hvd3 "Pg" i).
    rewrite (var_update_var_data _ _ _ _ _ "Pg" i Hm2).
    rewrite (decide_False (P := "Pg" = "theta" ∧ i = 0)) by (by intros [? _]).
    rewrite (var_update_var_data _ _ _ _ _ "Pg" i Hm1).
    rewrite (decide_False (P := "Pg" = "V" ∧ i = 0)) by (by intros [? _]).
    rewrite !var_data_setattr.
    rewrite (decide_False (P := "theta" = "Pg")) by done.
    rewrite (decide_False (P := "V" = "Pg")) by done.
    rewrite (decide_False (P := "Qg" = "Pg")) by done.
    rewrite (decide_True (P := "Pg" = "Pg")) by done.
    rewrite getitem_Var.
    rewrite (decide_True (P := i ∈ range N)) by by apply elem_of_range.
    destruct (decide (i ∈ LOAD_BUSES N gen)).
    + rewrite decide_True by auto. reflexivity.
    + rewrite decide_False by (by intros [_ ?]). reflexivity.
  - eapply generation_fixing_intro; [shelve|].
    rewrite !var_data_setattr, !decide_False by done.
    rewrite (Hvd4 "Qg" i), (Hvd3 "Qg" i).
    rewrite (var_update_var_data _ _ _ _ _ "Qg" i Hm2).
    rewrite (decide_False (P := "Qg" = "theta" ∧ i = 0)) by (by intros [? _]).
    rewrite (var_update_var_data _ _ _ _ _ "Qg" i Hm1).
    rewrite (decide_False (P := "Qg" = "V" ∧ i = 0)) by (by intros [? _]).
    rewrite !var_data_setattr.
    rewrite (decide_False (P := "theta" = "Qg")) by done.
    rewrite (decide_False (P := "V" = "Qg")) by done.
    rewrite (decide_True (P := "Qg" = "Qg")) by done.
    rewrite getitem_Var.
    rewrite (decide_True (P := i ∈ range N)) by by apply elem_of_range.
    destruct (decide (i ∈ LOAD_BUSES N gen)).
    + rewrite decide_True by auto. reflexivity.
    + rewrite decide_False by (by intros [_ ?]). reflexivity.
  Unshelve. all: done.
Qed.

(** * Loading a solution *)

Lemma components_load_solution sol m a :
  components (load_solution sol m) !! a
  = load_component sol a <$> components m !! a.
Proof.
  unfold load_solution. simpl. rewrite map_lookup_imap.
  by destruct (components m !! a).
Qed.

Lemma var_data_load_solution sol m c i :
  var_data (load_solution sol m) c i = load_var (sol c i) <$> var_data m c i.
Proof.
  unfold var_data, getattr. rewrite components_load_solution.
  destruct (components m !! c) as [[]|]; simpl; try done.
  unfold getitem. rewrite map_lookup_imap. by destruct (data !! i).
Qed.

Lemma skeleton_load_solution sol m :
  skeleton (load_solution sol m) = skeleton m.
Proof.
  apply map_eq. intros a. unfold skeleton.
  rewrite !lookup_fmap, components_load_solution.
  by destruct (components m !! a) as [[]|].
Qed.

Lemma fixed_to_load_solution sol m c i v :
  fixed_to m c i v → model_val (load_solution sol m) c i = Ok v.
Proof.
  intros (vd & Hvd & Hf & Hv). unfold model_val.
  rewrite var_data_load_solution, Hvd. simpl.
  unfold load_var. by rewrite Hf, Hv.
Qed.

Lemma generation_fixing_cases N gen m c i :
  i < N → generation_fixing (LOAD_BUSES N gen) m c i →
  (i ∈ gen → free m c i) ∧ (i ∉ gen → fixed_to m c i 0).
Proof.
  intros Hi (vd & Hvd & Hf & Hv). split; intros Hg.
  - exists vd. split; [done|]. rewrite Hf. apply bool_decide_eq_false_2.
    rewrite elem_of_LOAD_BUSES. tauto.
  - assert (i ∈ LOAD_BUSES N gen) as Hl by by apply elem_of_LOAD_BUSES.
    exists vd. split; [done|]. split; [|by apply Hv].
    rewrite Hf. by apply bool_decide_eq_true_2.
Qed.

(** * The claims about the models *)

(** C4: for every bus [i] the AC model contains the two equalities
    [Pg[i] - Pload[i] == sum over all buses k of V[i]*V[k]*(G[i,k]*cos(theta[i]
    - theta[k]) + B[i,k]*sin(theta[i] - theta[k]))] and
    [Qg[i] - Qload[i] == sum over all buses k of V[i]*V[k]*(G[i,k]*sin(theta[i]
    - theta[k]) - B[i,k]*cos(theta[i] - theta[k]))]: whatever numbers the
    variables take, the sides of [p_balance[i]] and [q_balance[i]] evaluate
    to these quantities, the sums running over every bus. *)
Theorem C4_ac_power_balance (N : nat) (BUS : bus_table)
    (lines : list (line float)) (m : model) :
  build_ac_model N BUS lines = Ok m →
  ∃ G B pb qb,
    build_admittance_matrices N lines = Ok (G, B) ∧
    components m !! "p_balance" = Some (CConstraint pb) ∧
    components m !! "q_balance" = Some (CConstraint qb) ∧
    (∀ i, N ≤ i → pb !! i = None ∧ qb !! i = None) ∧
    ∀ i, i < N →
      ∃ rp rq Pload Qload,
        pb !! i = Some rp ∧ qb !! i = Some rq ∧
        bus_field BUS i "Pload" = Ok Pload ∧
        bus_field BUS i "Qload" = Ok Qload ∧
        rhs rp = sum_expr (ac_p_term G B i <$> range N) ∧
        rhs rq = sum_expr (ac_q_term G B i <$> range N) ∧
        ∀ cos sin rho,
          pyo_value cos sin (assignment rho) (lhs rp)
          = Ok (rho "Pg" i - Pload)%float ∧
          pyo_value cos sin (assignment rho) (rhs rp)
          = Ok (ac_P_flow cos sin G B (rho "V") (rho "theta") N i) ∧
          pyo_value cos sin (assignment rho) (lhs rq)
          = Ok (rho "Qg" i - Qload)%float ∧
          pyo_value cos sin (assignment rho) (rhs rq)
          = Ok (ac_Q_flow cos sin G B (rho "V") (rho "theta") N i).
Proof.
  intros (gen & G & B & pload & qload & cost & pb & qb & m4 & Hgen & HGB
          & Hpload & Hqload & Hpb & Hqb & Hsk4 & Hsk & Hfix)%build_ac_model_inv.
  exists G, B, pb, qb. split; [done|]. split.
  { apply skeleton_lookup_static; [|done]. by rewrite Hsk. }
  split.
  { apply skeleton_lookup_static; [|done]. by rewrite Hsk. }
  destruct (Constraint_Ok _ _ _ Hpb) as (pb' & [= <-] & Hlp).
  destruct (Constraint_Ok _ _ _ Hqb) as (qb' & [= <-] & Hlq).
  split.
  { intros i Hi. rewrite Hlp, Hlq, !decide_False; [done|..];
      rewrite elem_of_range; lia. }
  intros i Hi. apply elem_of_range in Hi.
  destruct (Constraint_rule_Ok _ _ _ Hpb i Hi) as [rp Hrp].
  destruct (Constraint_rule_Ok _ _ _ Hqb i Hi) as [rq Hrq].
  specialize (Hlp i). rewrite decide_True, Hrp in Hlp by done.
  specialize (Hlq i). rewrite decide_True, Hrq in Hlq by done.
  apply (ac_p_balance_rule_Ok _ _ _ _ _ _ pload) in Hrp as (pl & Hpl & ->).
  2:{ rewrite skeleton_setattr, Hsk4. done. }
  apply (ac_q_balance_rule_Ok _ _ _ _ _ _ qload) in Hrq as (ql & Hql & ->).
  2:{ rewrite !skeleton_setattr, Hsk4. done. }
  destruct (dict_comp_each_Ok _ _ _ Hpload i Hi) as (v & Hv & Hv').
  assert (v = pl) as -> by congruence.
  destruct (dict_comp_each_Ok _ _ _ Hqload i Hi) as (w & Hw & Hw').
  assert (w = ql) as -> by congruence.
  eexists _, _, pl, ql. repeat split; try done.
  - apply pyo_value_ac_P_flow.
  - apply pyo_value_ac_Q_flow.
Qed.

Lemma C4_witness :
  ∃ m G B pb qb rp rq,
    build_ac_model N_BUS BUS_DATA LINE_DATA = Ok m ∧
    build_admittance_matrices N_BUS LINE_DATA = Ok (G, B) ∧
    components m !! "p_balance" = Some (CConstraint pb) ∧
    components m !! "q_balance" = Some (CConstraint qb) ∧
    pb !! 1 = Some rp ∧ qb !! 1 = Some rq ∧
    rhs rp = sum_expr (ac_p_term G B 1 <$> range N_BUS) ∧
    rhs rq = sum_expr (ac_q_term G B 1 <$> range N_BUS) ∧
    ∀ cos sin rho,
      pyo_value cos sin (assignment rho) (lhs rp)
      = Ok (rho "Pg" 1%nat - 0.2)%float ∧
      pyo_value cos sin (assignment rho) (lhs rq)
      = Ok (rho "Qg" 1%nat - 0.1)%float.
Proof.
  destruct (build_ac_model N_BUS BUS_DATA LINE_DATA) as [m|e] eqn:E;
    [|by vm_compute in E].
  destruct (C4_ac_power_balance N_BUS BUS_DATA LINE_DATA m E)
    as (G & B & pb & qb & HGB & Hpb & Hqb & _ & Hi).
  destruct (Hi 1) as (rp & rq & Pload & Qload & Hrp & Hrq & HP & HQ & Hrhs
                      & Hrhs' & Hval); [unfold N_BUS; lia|].
  exists m, G, B, pb, qb, rp, rq.
  split; [reflexivity|]. split; [exact HGB|]. split; [exact Hpb|].
  split; [exact Hqb|]. split; [exact Hrp|]. split; [exact Hrq|].
  split; [exact Hrhs|]. split; [exact Hrhs'|].
  intros cos sin rho. vm_compute in HP, HQ.
  injection HP as <-. injection HQ as <-.
  destruct (Hval cos sin rho) as (H1 & _ & H2 & _). by split.
Defined.

(** C7: in both models the generator set is exactly the buses with
    [PGmax > 0]; at every other bus [Pg] (and in the AC model [Qg]) is
    fixed to 0, at the generator buses it is left free, and whatever a
    solver returns, the value read back at a non-generator bus is 0. *)
Theorem C7_non_generators_fixed (N : nat) (BUS : bus_table)
    (lines : list (line float)) :
  (∀ gen, GEN_BUSES N BUS = Ok gen →
     ∀ i, i ∈ gen ↔
          i < N ∧ ∃ v, bus_field BUS i "PGmax" = Ok v ∧ (0 <? v)%float = true)
  ∧ (∀ m, build_ac_model N BUS lines = Ok m →
      ∃ gen, GEN_BUSES N BUS = Ok gen ∧
        ∀ i, i < N →
          (i ∈ gen → free m "Pg" i ∧ free m "Qg" i) ∧
          (i ∉ gen →
           fixed_to m "Pg" i 0 ∧ fixed_to m "Qg" i 0 ∧
           ∀ sol, model_val (load_solution sol m) "Pg" i = Ok 0%float ∧
                  model_val (load_solution sol m) "Qg" i = Ok 0%float))
  ∧ (∀ m, build_dc_model N BUS lines = Ok m →
      ∃ gen, GEN_BUSES N BUS = Ok gen ∧
        ∀ i, i < N →
          (i ∈ gen → free m "Pg" i) ∧
          (i ∉ gen →
           fixed_to m "Pg" i 0 ∧
           ∀ sol, model_val (load_solution sol m) "Pg" i = Ok 0%float)).
Proof.
  split; [|split].
  - intros gen Hgen. apply (GEN_BUSES_Ok N BUS gen Hgen).
  - intros m (gen & G & B & pload & qload & cost & pb & qb & m4 & Hgen & _ & _
              & _ & _ & _ & _ & _ & Hfix)%build_ac_model_inv.
    exists gen. split; [done|]. intros i Hi.
    destruct (Hfix i Hi) as [HP HQ].
    apply (generation_fixing_cases N gen) in HP as [HP1 HP2]; [|done].
    apply (generation_fixing_cases N gen) in HQ as [HQ1 HQ2]; [|done].
    split; [auto|]. intros Hg. repeat split; auto.
    + by apply fixed_to_load_solution, HP2.
    + by apply fixed_to_load_solution, HQ2.
  - intros m (gen & G & B & pload & cost & pb & m3 & Hgen & _ & _ & _ & _ & _
              & _ & Hfix)%build_dc_model_inv.
    exists gen. split; [done|]. intros i Hi. specialize (Hfix i Hi).
    apply (generation_fixing_cases N gen) in Hfix as [HP1 HP2]; [|done].
    split; [auto|]. intros Hg. split; [auto|].
    intros sol. by apply fixed_to_load_solution, HP2.
Qed.

Lemma C7_witness :
  GEN_BUSES N_BUS BUS_DATA = Ok [0; 1; 2] ∧
  ∃ m, build_ac_model N_BUS BUS_DATA LINE_DATA = Ok m ∧
       fixed_to m "Pg" 3 0 ∧ fixed_to m "Qg" 3 0 ∧
       fixed_to m "Pg" 4 0 ∧ fixed_to m "Qg" 4 0.
Proof.
  split; [by vm_compute|].
  destruct (build_ac_model N_BUS BUS_DATA LINE_DATA) as [m|e] eqn:E;
    [|by vm_compute in E].
  exists m. split; [done|].
  destruct (proj1 (proj2 (C7_non_generators_fixed N_BUS BUS_DATA LINE_DATA))
              m E) as (gen & Hgen & Hi).
  vm_compute in Hgen. injection Hgen as <-.
  destruct (Hi 3) as [_ H3]; [unfold N_BUS; lia|].
  destruct (Hi 4) as [_ H4]; [unfold N_BUS; lia|].
  destruct H3 as (? & ? & _); [by apply (bool_decide_unpack _)|].
  destruct H4 as (? & ? & _); [by apply (bool_decide_unpack _)|].
  repeat split; assumption.
Defined.

Lemma iter_set_missing m a :
  skeleton m !! a = None → iter_set m a = Raise (AttributeError a).
Proof. intros H. unfold iter_set. by rewrite getattr_skeleton_None. Qed.

Lemma ac_skeleton_reporter_attributes N pload qload obj pb qb a :
  a ∈ reporter_attributes → ac_skeleton N pload qload obj pb qb !! a = None.
Proof.
  unfold reporter_attributes, ac_skeleton. intros Ha.
  repeat (apply elem_of_cons in Ha as [->|Ha]; [done|]).
  by apply elem_of_nil in Ha.
Qed.

Lemma dc_skeleton_reporter_attributes N pload obj pb a :
  a ∈ reporter_attributes → dc_skeleton N pload obj pb !! a = None.
Proof.
  unfold reporter_attributes, dc_skeleton. intros Ha.
  repeat (apply elem_of_cons in Ha as [->|Ha]; [done|]).
  by apply elem_of_nil in Ha.
Qed.

Lemma built_model_reporter_attributes N BUS lines m a :
  build_ac_model N BUS lines = Ok m ∨ build_dc_model N BUS lines = Ok m →
  a ∈ reporter_attributes → skeleton m !! a = None.
Proof.
  intros [H|H] Ha.
  - apply build_ac_model_inv in H
      as (gen & G & B & pload & qload & cost & pb & qb & m4 & _ & _ & _ & _ & _
          & _ & _ & -> & _).
    by apply ac_skeleton_reporter_attributes.
  - apply build_dc_model_inv in H
      as (gen & G & B & pload & cost & pb & m3 & _ & _ & _ & _ & _ & _ & -> & _).
    by apply dc_skeleton_reporter_attributes.
Qed.

(** C10, as the code has it: a model returned by [build_ac_model] or
    [build_dc_model] has none of the attributes [nodes], [x_v_angle],
    [x_p], [x_v], [x_q], [objective_function]; [create_results_json] on it
    raises [AttributeError] for [nodes] before doing anything else;
    [solve_and_print] calls the solver first and raises that
    [AttributeError] once the call has returned, after the two heading
    lines; when the solver call itself raises, its exception is the one
    that leaves the function. *)
Theorem C10_reporters_reject_built_models (N : nat) (BUS : bus_table)
    (lines : list (line float)) (m : model) :
  build_ac_model N BUS lines = Ok m ∨ build_dc_model N BUS lines = Ok m →
  (∀ a, a ∈ reporter_attributes → getattr m a = Raise (AttributeError a))
  ∧ (∀ cos sin team AC,
       create_results_json cos sin m team AC
       = ([], Raise (AttributeError "nodes")))
  ∧ (∀ cos sin (R : Type) (solve : string → model → result (solution * R)) AC,
       solve_and_print cos sin R solve m AC
       = match solve (if AC then "conopt" else "glpk") m with
         | Ok _ => (solve_and_print_preamble, Raise (AttributeError "nodes"))
         | Raise e => ([], Raise e)
         end).
Proof.
  intros Hm.
  assert (∀ a, a ∈ reporter_attributes → skeleton m !! a = None) as Hmiss.
  { intros a. by apply (built_model_reporter_attributes N BUS lines). }
  assert ("nodes" ∈ reporter_attributes) as Hnodes by left.
  split; [|split].
  - intros a Ha. by apply getattr_skeleton_None, Hmiss.
  - intros cos sin team AC. unfold create_results_json.
    by rewrite (iter_set_missing m "nodes") by auto.
  - intros cos sin R solve AC. unfold solve_and_print.
    destruct (solve _ m) as [[sol r]|e]; [|done].
    unfold print_table, mbind, io_bind, lift, print. cbn [fst snd].
    rewrite (iter_set_missing (load_solution sol m) "nodes")
      by (rewrite skeleton_load_solution; auto).
    done.
Qed.

Lemma C10_witness :
  ∃ m, build_ac_model N_BUS BUS_DATA LINE_DATA = Ok m ∧
       getattr m "nodes" = Raise (AttributeError "nodes") ∧
       (∀ cos sin team AC,
          create_results_json cos sin m team AC
          = ([], Raise (AttributeError "nodes"))).
Proof.
  destruct (build_ac_model N_BUS BUS_DATA LINE_DATA) as [m|e] eqn:E;
    [|by vm_compute in E].
  exists m. split; [done|].
  destruct (C10_reporters_reject_built_models N_BUS BUS_DATA LINE_DATA m
              (or_introl E)) as (Hattr & Hjson & _).
  split; [|exact Hjson]. apply Hattr. left.
Defined.

(** The claim as worded fails for [solve_and_print] when the solver cannot
    be run: the function is left by the solver's exception and never
    reaches [model.nodes]. *)
Lemma C10_counterexample :
  build_dc_model N_BUS BUS_DATA LINE_DATA = Ok dc_model_5bus ∧
  ∀ cos sin,
    solve_and_print cos sin unit solver_unavailable dc_model_5bus false
    = ([], Raise (SolverError "No executable found for solver")).
Proof. split; [by vm_compute|]. intros cos sin. reflexivity. Qed.

(** * Missing values in the reports *)

Lemma var_data_zero_filled m c i :
  var_data (zero_filled m) c i = fill_var <$> var_data m c i.
Proof.
  unfold var_data, getattr, zero_filled. simpl. rewrite lookup_fmap.
  destruct (components m !! c) as [[]|]; simpl; try done.
  unfold getitem. rewrite lookup_fmap. by destruct (data !! i).
Qed.

Lemma np_degrees_0 : np_degrees 0 = 0%float.
Proof. by vm_compute. Qed.

Lemma or_zero_fill_var vd : or_zero (value (fill_var vd)) = or_zero (value vd).
Proof. done. Qed.

Lemma or_zero_degrees_fill_var vd :
  or_zero (np_degrees <$> value (fill_var vd))
  = or_zero (np_degrees <$> value vd).
Proof. destruct vd as [[v|] ? ? ? ?]; simpl; [done|apply np_degrees_0]. Qed.

Lemma print_results_row_zero_filled m ac i :
  print_results_row (zero_filled m) ac i = print_results_row m ac i.
Proof.
  unfold print_results_row, mbind, io_bind, lift. cbn [fst snd].
  rewrite !var_data_zero_filled.
  destruct (var_data m "Pg" i) as [Pg|e]; [|done].
  destruct (var_data m "theta" i) as [th|e]; [|done].
  cbn [fmap result_fmap fst snd].
  destruct ac.
  - destruct (var_data m "V" i) as [V|e]; [|done].
    destruct (var_data m "Qg" i) as [Qg|e]; [|done].
    cbn [fmap result_fmap fst snd].
    by rewrite !or_zero_fill_var, or_zero_degrees_fill_var.
  - by rewrite !or_zero_fill_var, or_zero_degrees_fill_var.
Qed.

Lemma io_for_ext {A S : Type} (f g : S → A → io S) (xs : list A) (s : S) :
  (∀ s x, f s x = g s x) → io_for xs f s = io_for xs g s.
Proof.
  intros Hfg. revert s. induction xs as [|x xs IH]; intros s; [done|].
  simpl. unfold mbind, io_bind. rewrite Hfg.
  destruct (g s x).2; [|done]. by rewrite IH.
Qed.

Lemma getattr_zero_filled m a :
  getattr (zero_filled m) a = fill_component <$> getattr m a.
Proof.
  unfold getattr, zero_filled. simpl. rewrite lookup_fmap.
  by destruct (components m !! a).
Qed.

Lemma iter_set_zero_filled m a : iter_set (zero_filled m) a = iter_set m a.
Proof.
  unfold iter_set. rewrite getattr_zero_filled.
  by destruct (getattr m a) as [[]|].
Qed.

Lemma model_val_zero_filled m c i v :
  model_val m c i = Ok v → model_val (zero_filled m) c i = Ok v.
Proof.
  unfold model_val. rewrite var_data_zero_filled.
  destruct (var_data m c i) as [vd|]; simpl; [|done].
  by destruct (value vd); intros [= <-].
Qed.

Lemma pyo_value_zero_filled cos sin m e v :
  pyo_value cos sin (model_val m) e = Ok v →
  pyo_value cos sin (model_val (zero_filled m)) e = Ok v.
Proof.
  revert v. induction e as [| |e1 IH1 e2 IH2|e1 IH1 e2 IH2|e1 IH1 e2 IH2
                            |e1 IH1|e1 IH1|e1 IH1]; intros w; simpl; try done.
  - apply model_val_zero_filled.
  - intros H. inv_bind H as x Hx. inv_bind H as y Hy.
    by rewrite (IH1 _ Hx), (IH2 _ Hy).
  - intros H. inv_bind H as x Hx. inv_bind H as y Hy.
    by rewrite (IH1 _ Hx), (IH2 _ Hy).
  - intros H. inv_bind H as x Hx. inv_bind H as y Hy.
    by rewrite (IH1 _ Hx), (IH2 _ Hy).
  - intros H. inv_bind H as x Hx. by rewrite (IH1 _ Hx).
  - intros H. inv_bind H as x Hx. by rewrite (IH1 _ Hx).
  - intros H. inv_bind H as x Hx. by rewrite (IH1 _ Hx).
Qed.

Lemma objective_value_zero_filled cos sin m a v :
  objective_value cos sin m a = Ok v →
  objective_value cos sin (zero_filled m) a = Ok v.
Proof.
  unfold objective_value. rewrite getattr_zero_filled.
  destruct (getattr m a) as [[]|]; simpl; try done.
  apply pyo_value_zero_filled.
Qed.

(** Whenever [print_results] returns, everything it printed and the cost it
    returned are those of the model with 0 for every missing value. *)
Lemma print_results_zero_filled cos sin m ac cost :
  (print_results cos sin m ac).2 = Ok cost →
  print_results cos sin (zero_filled m) ac = print_results cos sin m ac.
Proof.
  unfold print_results, mbind, io_bind, lift, print, mret, io_ret.
  cbn [fst snd]. rewrite iter_set_zero_filled.
  destruct (iter_set m "buses") as [buses|e]; cbn [fst snd]; [|done].
  rewrite (io_for_ext (λ _ i, print_results_row (zero_filled m) ac i)
             (λ _ i, print_results_row m ac i))
    by (intros; apply print_results_row_zero_filled).
  destruct (io_for buses _ tt) as [out [[]|e]]; cbn [fst snd]; [|done].
  destruct (objective_value cos sin m "obj") as [v|e] eqn:Hobj;
    cbn [fst snd]; [|done].
  by rewrite (objective_value_zero_filled _ _ _ _ _ Hobj).
Qed.

Lemma value_fill_var vd : value (fill_var vd) ≠ None.
Proof. done. Qed.

Lemma io_for_print_entry m attr (items : nat → item) (xs : list nat) :
  (∀ i, i ∈ xs → index_component m attr i = Ok (items i)) →
  io_for xs (λ _ i, print_entry m attr i) tt = (entry_row items <$> xs, Ok tt).
Proof.
  induction xs as [|x xs IH]; intros Hx; [done|].
  simpl io_for. unfold mbind, io_bind.
  assert (print_entry m attr x = ([entry_row items x], Ok tt)) as ->.
  { unfold print_entry, mbind, io_bind, lift. cbn [fst snd].
    rewrite (Hx x) by left. unfold entry_row.
    by destruct (value_or_None (items x)). }
  cbn [fst snd]. rewrite IH; [done|]. intros i Hi. apply Hx. by right.
Qed.

Lemma print_table_rows m title attr (items : nat → item) (nodes : list nat) :
  iter_set m "nodes" = Ok nodes →
  (∀ i, i ∈ nodes → index_component m attr i = Ok (items i)) →
  print_table m title attr
  = (Print [Lit title] :: (entry_row items <$> nodes), Ok tt).
Proof.
  intros Hn Hitems. unfold print_table, mbind, io_bind, lift, print.
  cbn [fst snd]. rewrite Hn. cbn [fst snd].
  by rewrite (io_for_print_entry m attr items nodes Hitems).
Qed.

(** C8, as the code has it: [print_results] puts 0.0 in place of a missing
    [Pg], [theta], [V] or [Qg]: every row, and whenever the function
    returns its whole output and the cost, are those of the model in which
    every missing value is 0. The reporters of [opf_utils.py] keep a
    missing value apart: [solve_and_print] prints the row [Not solved],
    which is no row of a number, and [create_results_json] stores [None],
    for the angle and the power of a node and, in AC mode, for its voltage
    magnitude and its reactive power as well. *)
Theorem C8_missing_values :
  (∀ m ac i,
     print_results_row m ac i = print_results_row (zero_filled m) ac i)
  ∧ (∀ cos sin m ac cost,
       (print_results cos sin m ac).2 = Ok cost →
       print_results cos sin m ac = print_results cos sin (zero_filled m) ac)
  ∧ (∀ m c i vd, var_data (zero_filled m) c i = Ok vd → value vd ≠ None)
  ∧ (∀ m title attr (items : nat → item) nodes,
       iter_set m "nodes" = Ok nodes →
       (∀ i, i ∈ nodes → index_component m attr i = Ok (items i)) →
       print_table m title attr
       = (Print [Lit title] :: (entry_row items <$> nodes), Ok tt))
  ∧ (∀ (items : nat → item) i vd,
       items i = IVar vd → value vd = None →
       entry_row items i = not_solved_row i)
  ∧ (∀ i v, not_solved_row i ≠ solved_row i v)
  ∧ (∀ m nodes i a p,
       index_component m "x_v_angle" i = Ok a →
       index_component m "x_p" i = Ok p →
       node_entry m false nodes i
       = ([], Ok (dict_set nodes ("node_" +:+ pretty (i + 1))
                    (PDict [("voltage_angle", py_of (value_or_None a));
                            ("power", py_of (value_or_None p))]))))
  ∧ py_of None = PNone
  ∧ (∀ m nodes i a p v q,
       index_component m "x_v_angle" i = Ok a →
       index_component m "x_p" i = Ok p →
       index_component m "x_v" i = Ok v →
       index_component m "x_q" i = Ok q →
       node_entry m true nodes i
       = ([], Ok (dict_set nodes ("node_" +:+ pretty (i + 1))
                    (PDict [("voltage_angle", py_of (value_or_None a));
                            ("power", py_of (value_or_None p));
                            ("voltage_magnitude", py_of (value_or_None v));
                            ("reactive_power", py_of (value_or_None q))])))).
Proof.
  repeat split.
  - intros m ac i. by rewrite print_results_row_zero_filled.
  - intros cos sin m ac cost H. symmetry.
    by apply (print_results_zero_filled cos sin m ac cost).
  - intros m c i vd. rewrite var_data_zero_filled.
    destruct (var_data m c i) as [vd0|]; simpl; [|done].
    intros [= <-]. apply value_fill_var.
  - intros m title attr items nodes. apply print_table_rows.
  - intros items i vd Hi Hv. unfold entry_row. by rewrite Hi; simpl; rewrite Hv.
  - intros i v. unfold not_solved_row, solved_row. by intros [=].
  - intros m nodes i a p Ha Hp.
    unfold node_entry, mbind, io_bind, lift. cbn [fst snd].
    rewrite Ha. cbn [fst snd]. rewrite Hp. done.
  - intros m nodes i a p v q Ha Hp Hv Hq.
    unfold node_entry, mbind, io_bind, lift. cbn [fst snd].
    rewrite Ha. cbn [fst snd]. rewrite Hp. cbn [fst snd].
    rewrite Hv. cbn [fst snd]. rewrite Hq. done.
Qed.

Lemma C8_witness :
  print_table utils_model "angles" "x_v_angle"
  = ([Print [Lit "angles"]; solved_row 0 0; not_solved_row 1], Ok tt).
Proof.
  rewrite (proj1 (proj2 (proj2 (proj2 C8_missing_values))) utils_model "angles"
             "x_v_angle"
             (λ i, IVar (mkVarData
                           (if decide (i = 0) then Some 0%float else None)
                           false None None Reals))
             [0; 1]).
  - by vm_compute.
  - by vm_compute.
  - intros i Hi.
    apply elem_of_cons in Hi as [->|Hi]; [by vm_compute|].
    apply elem_of_cons in Hi as [->|Hi]; [by vm_compute|].
    by apply elem_of_nil in Hi.
Defined.

(** The claim as the specification words it fails in [print_results]: with
    no value for [theta[1]] it prints the very table, and returns the very
    cost, it prints for the value 0, the row of bus 2 showing 0.0. *)
Lemma C8_counterexample :
  build_dc_model N_BUS BUS_DATA LINE_DATA = Ok dc_model_5bus ∧
  value <$> var_data (load_solution sol_missing dc_model_5bus) "theta" 1
  = Ok None ∧
  value <$> var_data (load_solution sol_zero dc_model_5bus) "theta" 1
  = Ok (Some 0%float) ∧
  (∀ cos sin,
     print_results cos sin (load_solution sol_missing dc_model_5bus) false
     = print_results cos sin (load_solution sol_zero dc_model_5bus) false) ∧
  (∀ cos sin,
     Print [Fmt (PInt 2) "<6"; Fmt (PFloat 0.1) "<12.4f";
            Fmt (PFloat 0) "<14.4f"]
     ∈ (print_results cos sin (load_solution sol_missing dc_model_5bus)
          false).1).
Proof.
  split; [by vm_compute|]. split; [by vm_compute|]. split; [by vm_compute|].
  split.
  - intros cos sin. by vm_compute.
  - intros cos sin. vm_compute. do 6 right. left.
Qed.

(** * Further properties of the program *)

(** ** The admittance builder: failures *)

Section LineErrors.
Context {num : Type} `{!PyNum num}.
Implicit Types (M G B : matrix num) (l : line num).

Lemma stamp_line_outcome N G B l :
  shaped N G → shaped N B →
  match line_error N l with
  | Some e => stamp_line (G, B) l = Raise e
  | None => ∃ G' B', stamp_line (G, B) l = Ok (G', B') ∧
                     shaped N G' ∧ shaped N B'
  end.
Proof.
  intros HG HB. rewrite (stamp_line_shaped N) by done.
  destruct l as [[[i j] r] x]. unfold line_error.
  destruct (line_admittance r x) as [[g b]|e]; simpl; [|done].
  destruct (np_index N i) as [i'|e]; simpl; [|done].
  destruct (np_index N j) as [j'|e]; simpl; [|done].
  eexists _, _. split; [done|]. split; by apply stamp_at_shaped.
Qed.

Lemma for_each_stamp_line_total N (lines : list (line num)) :
  Forall (λ l, line_error N l = None) lines →
  ∀ G B, shaped N G → shaped N B →
    ∃ G' B', for_each lines stamp_line (G, B) = Ok (G', B') ∧
             shaped N G' ∧ shaped N B'.
Proof.
  induction 1 as [|l lines Hl _ IH]; intros G B HG HB; simpl; [eauto|].
  pose proof (stamp_line_outcome N G B l HG HB) as H. rewrite Hl in H.
  destruct H as (G' & B' & -> & HG' & HB'). simpl. by apply IH.
Qed.

Lemma for_each_stamp_line_no_error N (lines : list (line num)) :
  ∀ G B GB', shaped N G → shaped N B →
    for_each lines stamp_line (G, B) = Ok GB' →
    Forall (λ l, line_error N l = None) lines.
Proof.
  induction lines as [|l lines IH]; intros G B GB' HG HB; simpl; [done|].
  pose proof (stamp_line_outcome N G B l HG HB) as H.
  destruct (line_error N l) as [e|] eqn:Hl.
  - by rewrite H.
  - destruct H as (G' & B' & -> & HG' & HB'). simpl. intros Hrest.
    constructor; [done|]. by apply (IH G' B' GB').
Qed.

Lemma for_each_stamp_line_first_error N (pre post : list (line num)) l e :
  Forall (λ l, line_error N l = None) pre → line_error N l = Some e →
  ∀ G B, shaped N G → shaped N B →
    for_each (pre ++ l :: post) stamp_line (G, B) = Raise e.
Proof.
  intros Hpre Hl G B HG HB. rewrite for_each_app.
  destruct (for_each_stamp_line_total N pre Hpre G B HG HB)
    as (G' & B' & -> & HG' & HB'). simpl.
  pose proof (stamp_line_outcome N G' B' l HG' HB') as H. rewrite Hl in H.
  by rewrite H.
Qed.
End LineErrors.

Lemma line_error_binary64 N (l : line float) e :
  line_error N l = Some e →
  e = ZeroDivisionError ∨ e = OverflowError ∨ e = IndexError.
Proof.
  destruct l as [[[i j] r] x]. unfold line_error, line_admittance.
  simpl. unfold float_pow2, float_truediv.
  repeat (case_match; simpl in *; simplify_eq; eauto);
    intros; simplify_eq; eauto using np_index_error.
Qed.

(** X1. The admittance builder returns exactly when no line raises, and
    otherwise its exception is that of the first line that raises: the
    arithmetic error of that line if it has one, else the [IndexError] of
    its first bus that is no index of the arrays. In binary64 the only
    exceptions are [ZeroDivisionError], [OverflowError] and
    [IndexError]. *)
Theorem X1_first_failing_line :
  (∀ (num : Type) (PN : PyNum num) (N : nat) (lines : list (line num)),
     ((∃ G B, build_admittance_matrices N lines = Ok (G, B))
      ↔ Forall (λ l, line_error N l = None) lines)
     ∧ (∀ pre l post e,
          lines = pre ++ l :: post →
          Forall (λ l, line_error N l = None) pre →
          line_error N l = Some e →
          build_admittance_matrices N lines = Raise e))
  ∧ (∀ N (lines : list (line float)) e,
       build_admittance_matrices N lines = Raise e →
       e = ZeroDivisionError ∨ e = OverflowError ∨ e = IndexError).
Proof.
  split.
  - intros num PN N lines. split; [split|].
    + intros (G & B & H).
      by apply (for_each_stamp_line_no_error N lines _ _ _
                  (np_zeros_shaped N) (np_zeros_shaped N) H).
    + intros H.
      destruct (for_each_stamp_line_total N lines H _ _
                  (np_zeros_shaped N) (np_zeros_shaped N))
        as (G & B & HGB & _). eauto.
    + intros pre l post e -> Hpre Hl.
      by apply (for_each_stamp_line_first_error N); try apply np_zeros_shaped.
  - intros N lines e. unfold build_admittance_matrices.
    assert (∀ G B : matrix float, shaped N G → shaped N B →
            for_each lines stamp_line (G, B) = Raise e →
            e = ZeroDivisionError ∨ e = OverflowError ∨ e = IndexError)
      as Hgen.
    { induction lines as [|l lines IH]; intros G B HG HB; simpl; [done|].
      pose proof (stamp_line_outcome N G B l HG HB) as H.
      destruct (line_error N l) as [e'|] eqn:Hl.
      - rewrite H. intros [= <-]. by apply (line_error_binary64 N l).
      - destruct H as (G' & B' & -> & HG' & HB'). simpl. by apply IH. }
    apply Hgen; apply np_zeros_shaped.
Qed.

Lemma X1_witness :
  lines_bad_index_first = [] ++ Line 0 9 0.02 0.06 :: [Line 0 1 0 0] ∧
  line_error 5 (Line 0 9 0.02 0.06) = Some IndexError ∧
  build_admittance_matrices 5 lines_bad_index_first = Raise IndexError.
Proof.
  split; [done|]. split; [by vm_compute|].
  apply (proj2 (proj1 X1_first_failing_line float _ 5 lines_bad_index_first)
           [] (Line 0 9 0.02 0.06) [Line 0 1 0 0] IndexError).
  - done.
  - constructor.
  - by vm_compute.
Defined.

(** ** The admittance builder: which entries a line reaches *)

Section Reach.
Context {num : Type} `{!PyNum num}.
Implicit Types (M G B : matrix num) (l : line num).

Lemma stamp_entry_untouched a c i j (v e : num) :
  ¬ ((a = i ∨ a = j) ∧ (c = i ∨ c = j)) → stamp_entry a c i j v e = e.
Proof.
  intros H. unfold stamp_entry.
  rewrite !decide_False; [done|intros []; apply H; auto..].
Qed.

Lemma entries_after_untouched N (lines : list (line num)) a c :
  Forall (λ l, ¬ (touches N l a ∧ touches N l c)) lines →
  ∀ e r, entries_after N lines a c e = Ok r → r = e.
Proof.
  unfold entries_after.
  induction 1 as [|l lines Hl _ IH]; intros e r; simpl; [by intros [=]|].
  destruct l as [[[i j] ri] x]. intros H.
  inv_bind H as s Hs.
  destruct (line_admittance ri x) as [[g b]|]; simpl in Hs; [|done].
  destruct (np_index N i) as [i'|] eqn:Hi; simpl in Hs; [|done].
  destruct (np_index N j) as [j'|] eqn:Hj; simpl in Hs; [|done].
  injection Hs as <-. apply IH in H as ->.
  assert (¬ ((a = i' ∨ a = j') ∧ (c = i' ∨ c = j'))) as Hn.
  { intros [Ha Hc]. apply Hl. unfold touches. rewrite Hi, Hj.
    split; [destruct Ha as [->| ->]|destruct Hc as [->| ->]]; auto. }
  rewrite !stamp_entry_untouched by done. by destruct e.
Qed.

Lemma np_index_from_end N i :
  (0 ≤ i < Z.of_nat N)%Z → np_index N (i - Z.of_nat N) = np_index N i.
Proof.
  intros Hi. unfold np_index.
  rewrite (bool_decide_eq_false_2 (0 ≤ i - Z.of_nat N < Z.of_nat N)%Z) by lia.
  rewrite (bool_decide_eq_true_2 (- Z.of_nat N ≤ i - Z.of_nat N < 0)%Z) by lia.
  rewrite (bool_decide_eq_true_2 (0 ≤ i < Z.of_nat N)%Z) by done.
  f_equal. lia.
Qed.

Lemma for_each_stamp_line_from_end N (lines : list (line num)) :
  Forall (in_range N) lines →
  ∀ G B, shaped N G → shaped N B →
    for_each (from_end N <$> lines) stamp_line (G, B)
    = for_each lines stamp_line (G, B).
Proof.
  induction 1 as [|l lines Hl _ IH]; intros G B HG HB; [done|].
  rewrite fmap_cons. simpl.
  assert (stamp_line (G, B) (from_end N l) = stamp_line (G, B) l) as ->.
  { rewrite !(stamp_line_shaped N) by done.
    destruct l as [[[i j] r] x]. destruct Hl as [Hi Hj]. simpl.
    by rewrite !np_index_from_end. }
  pose proof (stamp_line_outcome N G B l HG HB) as H.
  destruct (line_error N l) as [e|].
  - by rewrite H.
  - destruct H as (G' & B' & -> & HG' & HB'). simpl. by apply IH.
Qed.
End Reach.

(** X2. An entry of [G] or [B] is still the zero of [np.zeros] when no
    line has both its row and its column among its two buses: the loop
    writes only at the four positions of a line, so buses that no line
    joins have a zero between them and a bus without lines has a zero on
    the diagonal. *)
Theorem X2_unreached_entries_zero (num : Type) (PN : PyNum num) (N : nat)
    (lines : list (line num)) (G B : matrix num) (a c : nat) :
  build_admittance_matrices N lines = Ok (G, B) →
  a < N → c < N →
  Forall (λ l, ¬ (touches N l a ∧ touches N l c)) lines →
  mget G a c = Some nzero ∧ mget B a c = Some nzero.
Proof.
  intros HGB Ha Hc Hl.
  pose proof (build_admittance_entries N lines a c Ha Hc) as H.
  rewrite HGB in H. destruct H as (g & b & He & -> & ->).
  by apply (entries_after_untouched N lines a c Hl) in He as [= -> ->].
Qed.

Lemma X2_witness :
  ∃ G B, build_admittance_matrices 5 LINE_DATA = Ok (G, B) ∧
         mget G 0 3 = Some 0%float ∧ mget B 0 3 = Some 0%float.
Proof.
  destruct (build_admittance_matrices 5 LINE_DATA) as [[G B]|] eqn:H;
    [|by vm_compute in H].
  exists G, B. split; [done|].
  apply (X2_unreached_entries_zero float _ 5 LINE_DATA G B 0 3 H); [lia..|].
  repeat constructor; intros [[H1|H1] [H2|H2]]; by vm_compute in H1, H2.
Defined.

(** X3. Bus numbers counted from the end of the axis, [-N .. -1], address
    the same buses as [0 .. N-1]: [numpy] wraps them, so the builder
    accepts them and returns the same matrices (or raises the same
    exception). *)
Theorem X3_negative_bus_numbers (num : Type) (PN : PyNum num) (N : nat)
    (lines : list (line num)) :
  Forall (in_range N) lines →
  build_admittance_matrices N (from_end N <$> lines)
  = build_admittance_matrices N lines.
Proof.
  intros H. unfold build_admittance_matrices.
  apply (for_each_stamp_line_from_end N lines H); apply np_zeros_shaped.
Qed.

Lemma X3_witness :
  Forall (in_range 2) lines_example ∧
  build_admittance_matrices 2 [Line (-2) (-1) 0.02 0.06]
  = Ok ([[5; -5]; [-5; 5]], [[-15; 15]; [15; -15]])%float.
Proof.
  assert (Forall (in_range 2) lines_example) as H.
  { repeat constructor; simpl; lia. }
  split; [done|].
  change [Line (-2) (-1) 0.02 0.06] with (from_end 2 <$> lines_example).
  rewrite (X3_negative_bus_numbers float _ 2 lines_example H).
  by vm_compute.
Defined.

(** ** The admittance builder: the entries in closed form *)

Lemma for_each_ext {A S : Type} (f g : S → A → result S) (xs : list A) (s : S) :
  (∀ s x, x ∈ xs → f s x = g s x) → for_each xs f s = for_each xs g s.
Proof.
  revert s. induction xs as [|x xs IH]; intros s H; [done|]. simpl.
  rewrite H by left. destruct (g s x) as [s'|e]; simpl; [|done].
  apply IH. intros s0 y Hy. apply H. by right.
Qed.

Section ClosedForm.
Context {num : Type} `{!PyNum num}.
Implicit Types (M G B : matrix num) (l : line num).

Lemma stamp_entry_diagonal a i j (v e : num) :
  i ≠ j →
  stamp_entry a a i j v e = if decide (a = i ∨ a = j) then nadd e v else e.
Proof.
  intros Hij. unfold stamp_entry.
  repeat case_decide; try done; exfalso; intuition congruence.
Qed.

Lemma stamp_entry_off_diagonal a c i j (v e : num) :
  a ≠ c →
  stamp_entry a c i j v e
  = if decide ((a = i ∧ c = j) ∨ (a = j ∧ c = i)) then nsub e v else e.
Proof.
  intros Hac. unfold stamp_entry.
  repeat case_decide; try done; exfalso; intuition congruence.
Qed.

Lemma shaped_ext N M M' :
  shaped N M → shaped N M' →
  (∀ a c, a < N → c < N → mget M a c = mget M' a c) → M = M'.
Proof.
  intros [HM HMr] [HM' HMr'] H. apply list_eq. intros a.
  destruct (decide (a < N)) as [Ha|Ha].
  - destruct (lookup_lt_is_Some_2 M a) as [r Hr]; [lia|].
    destruct (lookup_lt_is_Some_2 M' a) as [r' Hr']; [lia|].
    rewrite Hr, Hr'. f_equal.
    pose proof (proj1 (Forall_lookup _ _) HMr a r Hr) as Hlr.
    pose proof (proj1 (Forall_lookup _ _) HMr' a r' Hr') as Hlr'.
    simpl in Hlr, Hlr'.
    apply list_eq. intros c. destruct (decide (c < N)) as [Hc|Hc].
    + specialize (H a c Ha Hc). unfold mget in H.
      by rewrite Hr, Hr' in H.
    + rewrite !lookup_ge_None_2; [done|lia..].
  - rewrite !lookup_ge_None_2; [done|lia..].
Qed.

Lemma for_each_stamp_line_shaped' N (lines : list (line num)) G B G' B' :
  shaped N G → shaped N B →
  for_each lines stamp_line (G, B) = Ok (G', B') → shaped N G' ∧ shaped N B'.
Proof.
  intros HG HB H.
  pose proof (for_each_stamp_line_no_error N lines G B _ HG HB H) as Hl.
  destruct (for_each_stamp_line_total N lines Hl G B HG HB)
    as (G1 & B1 & H1 & HG1 & HB1).
  rewrite H in H1. by injection H1 as -> ->.
Qed.
End ClosedForm.

(** X4. Without lines from a bus to itself, the diagonal entry of a bus is
    what adding the admittances of the lines at that bus gives, in the
    order of the lines and starting from 0; and the entry between two
    different buses is what subtracting the admittances of the lines that
    join them gives, starting from 0. This holds in the arithmetic of the
    program as well as exactly. *)
Theorem X4_entries_closed_form (num : Type) (PN : PyNum num) (N : nat)
    (lines : list (line num)) (G B : matrix num) :
  build_admittance_matrices N lines = Ok (G, B) →
  (Forall (λ l, ¬ self_loop N l) lines →
   ∀ a, a < N →
     ∃ g b, incident_sum N lines a = Ok (g, b) ∧
            mget G a a = Some g ∧ mget B a a = Some b)
  ∧ (∀ a c, a < N → c < N → a ≠ c →
       ∃ g b, joining_difference N lines a c = Ok (g, b) ∧
              mget G a c = Some g ∧ mget B a c = Some b).
Proof.
  intros HGB. split.
  - intros Hloop a Ha.
    pose proof (build_admittance_entries N lines a a Ha Ha) as H.
    rewrite HGB in H. destruct H as (g & b & He & HG & HB).
    exists g, b. split; [|done]. rewrite <- He.
    unfold incident_sum, entries_after. apply for_each_ext.
    intros e [[[i j] r] x] Hl.
    destruct (line_admittance r x) as [[g' b']|]; simpl; [|done].
    destruct (np_index N i) as [i'|] eqn:Hi; simpl; [|done].
    destruct (np_index N j) as [j'|] eqn:Hj; simpl; [|done].
    assert (i' ≠ j') as Hij.
    { intros ->. apply (proj1 (Forall_forall _ _) Hloop _ Hl).
      unfold self_loop. by rewrite Hi, Hj. }
    rewrite !stamp_entry_diagonal by done.
    destruct e. by case_decide.
  - intros a c Ha Hc Hac.
    pose proof (build_admittance_entries N lines a c Ha Hc) as H.
    rewrite HGB in H. destruct H as (g & b & He & HG & HB).
    exists g, b. split; [|done]. rewrite <- He.
    unfold joining_difference, entries_after. apply for_each_ext.
    intros e [[[i j] r] x] Hl.
    destruct (line_admittance r x) as [[g' b']|]; simpl; [|done].
    destruct (np_index N i) as [i'|] eqn:Hi; simpl; [|done].
    destruct (np_index N j) as [j'|] eqn:Hj; simpl; [|done].
    rewrite !stamp_entry_off_diagonal by done.
    destruct e. by case_decide.
Qed.

Lemma X4_witness :
  ∃ G B, build_admittance_matrices 5 LINE_DATA = Ok (G, B) ∧
    (∃ g b, incident_sum 5 LINE_DATA 1 = Ok (g, b) ∧
            mget G 1 1 = Some g ∧ mget B 1 1 = Some b) ∧
    (∃ g b, joining_difference 5 LINE_DATA 1 2 = Ok (g, b) ∧
            mget G 1 2 = Some g ∧ mget B 1 2 = Some b).
Proof.
  destruct (build_admittance_matrices 5 LINE_DATA) as [[G B]|] eqn:H;
    [|by vm_compute in H].
  exists G, B. split; [done|].
  pose proof (X4_entries_closed_form float _ 5 LINE_DATA G B H) as [H1 H2].
  split.
  - apply H1; [|lia]. repeat constructor; intros Hl; by vm_compute in Hl.
  - apply H2; lia.
Defined.

(** ** The admittance builder in exact arithmetic: order and loops *)

Section ExactOrder.
Context {num : Type} `{!PyNum num} `{!ExactNum num}.
Implicit Types (M G B : matrix num) (l : line num).

Lemma nadd_zero_r (a : num) : nadd a nzero = a.
Proof. by rewrite nadd_comm, nadd_zero_l. Qed.

(** In exact arithmetic a line adds its contribution to the entry. *)
Lemma stamp_entry_contribution a c i j (v e : num) :
  stamp_entry a c i j v e = nadd e (stamp_entry a c i j v nzero).
Proof.
  unfold stamp_entry.
  repeat case_decide;
    rewrite ?nsub_nadd, ?nadd_zero_l, ?nadd_zero_r, ?nadd_assoc; done.
Qed.

Lemma stamp_entry_comm a c i j i' j' (v v' e : num) :
  stamp_entry a c i j v (stamp_entry a c i' j' v' e)
  = stamp_entry a c i' j' v' (stamp_entry a c i j v e).
Proof.
  rewrite (stamp_entry_contribution a c i j v (stamp_entry _ _ _ _ _ _)).
  rewrite (stamp_entry_contribution a c i' j' v' e).
  rewrite (stamp_entry_contribution a c i' j' v' (stamp_entry _ _ _ _ _ _)).
  rewrite (stamp_entry_contribution a c i j v e).
  rewrite <- !nadd_assoc. f_equal. apply nadd_comm.
Qed.

Lemma stamp_entry_self_loop a c i (v e : num) : stamp_entry a c i i v e = e.
Proof.
  unfold stamp_entry. case_decide.
  - by rewrite !nsub_nadd, !nadd_cancel.
  - done.
Qed.

Lemma entries_after_Permutation N (lines lines' : list (line num)) a c :
  lines ≡ₚ lines' →
  ∀ e r, entries_after N lines a c e = Ok r →
         entries_after N lines' a c e = Ok r.
Proof.
  unfold entries_after.
  induction 1 as [|l lines lines' _ IH|l1 l2 lines|l1 l2 l3 _ IH1 _ IH2];
    intros e r; simpl.
  - done.
  - intros H. inv_bind H as s Hs. rewrite Hs. simpl. by apply IH.
  - destruct l1 as [[[i1 j1] r1] x1], l2 as [[[i2 j2] r2] x2].
    destruct (line_admittance r1 x1) as [[g1 b1]|],
      (line_admittance r2 x2) as [[g2 b2]|],
      (np_index N i1) as [i1'|], (np_index N i2) as [i2'|],
      (np_index N j1) as [j1'|], (np_index N j2) as [j2'|];
      simpl; try done.
    by rewrite (stamp_entry_comm a c i1' j1' i2' j2' g1 g2),
               (stamp_entry_comm a c i1' j1' i2' j2' b1 b2).
  - intros H. by apply IH2, IH1.
Qed.

Lemma stamp_at_self_loop N M i (v : num) :
  shaped N M → stamp_at i i v M = M.
Proof.
  intros HM. apply (shaped_ext N); [by apply stamp_at_shaped|done|].
  intros a c _ _. rewrite mget_stamp_at.
  destruct (mget M a c) as [e|]; simpl; [|done].
  by rewrite stamp_entry_self_loop.
Qed.
End ExactOrder.

(** X5. In exact arithmetic the order of the lines does not matter: the
    builder returns the same matrices for a reordered line list. *)
Theorem X5_line_order_exact (num : Type) (PN : PyNum num) (N : nat)
    (lines lines' : list (line num)) (G B : matrix num) :
  ExactNum num →
  lines ≡ₚ lines' →
  build_admittance_matrices N lines = Ok (G, B) →
  build_admittance_matrices N lines' = Ok (G, B).
Proof.
  intros HE Hp HGB.
  pose proof (build_admittance_shaped N lines G B HGB) as [HG HB].
  pose proof (for_each_stamp_line_no_error N lines _ _ _
                (np_zeros_shaped N) (np_zeros_shaped N) HGB) as Hl.
  rewrite Hp in Hl.
  destruct (for_each_stamp_line_total N lines' Hl _ _
              (np_zeros_shaped N) (np_zeros_shaped N))
    as (G' & B' & HGB' & HG' & HB').
  change (build_admittance_matrices N lines' = Ok (G', B')) in HGB'.
  rewrite HGB'.
  assert (∀ a c, a < N → c < N →
          mget G' a c = mget G a c ∧ mget B' a c = mget B a c) as Hent.
  { intros a c Ha Hc.
    pose proof (build_admittance_entries N lines a c Ha Hc) as H.
    pose proof (build_admittance_entries N lines' a c Ha Hc) as H'.
    rewrite HGB in H. rewrite HGB' in H'.
    destruct H as (g & b & He & -> & ->).
    destruct H' as (g' & b' & He' & -> & ->).
    apply (entries_after_Permutation N lines lines' a c Hp) in He.
    rewrite He in He'. by injection He' as <- <-. }
  f_equal. f_equal; apply (shaped_ext N); try done; intros; by apply Hent.
Qed.

Lemma X5_witness :
  build_admittance_matrices 3
    [ (1%Z, 2%Z, Q2Qc 1, Q2Qc 2); (0%Z, 1%Z, Q2Qc (2 # 100), Q2Qc (6 # 100)) ]
  = build_admittance_matrices 3
      [ (0%Z, 1%Z, Q2Qc (2 # 100), Q2Qc (6 # 100)); (1%Z, 2%Z, Q2Qc 1, Q2Qc 2) ].
Proof.
  destruct (build_admittance_matrices 3
              [ (0%Z, 1%Z, Q2Qc (2 # 100), Q2Qc (6 # 100));
                (1%Z, 2%Z, Q2Qc 1, Q2Qc 2) ]) as [[G B]|] eqn:H;
    [|by vm_compute in H].
  exact (X5_line_order_exact Qc _ 3
           [ (0%Z, 1%Z, Q2Qc (2 # 100), Q2Qc (6 # 100));
             (1%Z, 2%Z, Q2Qc 1, Q2Qc 2) ]
           _ G B exact_ExactNum (perm_swap _ _ _) H).
Defined.

(** X6. In exact arithmetic a line from a bus to itself changes nothing:
    its four updates cancel, so the builder gives the same result with and
    without it. *)
Theorem X6_self_loop_exact (num : Type) (PN : PyNum num) (N : nat)
    (pre post : list (line num)) (l : line num) :
  ExactNum num →
  line_error N l = None → self_loop N l →
  build_admittance_matrices N (pre ++ l :: post)
  = build_admittance_matrices N (pre ++ post).
Proof.
  intros HE Hl Hloop. unfold build_admittance_matrices.
  rewrite !for_each_app.
  destruct (for_each pre stamp_line _) as [[G B]|e] eqn:Hpre; [|done].
  apply (for_each_stamp_line_shaped' N) in Hpre as [HG HB];
    try apply np_zeros_shaped.
  simpl. rewrite (stamp_line_shaped N) by done.
  destruct l as [[[i j] r] x]. unfold line_error, self_loop in *.
  destruct (line_admittance r x) as [[g b]|]; [|done].
  destruct (np_index N i) as [i'|]; [|done].
  destruct (np_index N j) as [j'|]; [|done].
  injection Hloop as ->. simpl.
  by rewrite !(stamp_at_self_loop N).
Qed.

Lemma X6_witness :
  build_admittance_matrices 2
    ([] ++ (1%Z, 1%Z, Q2Qc 1, Q2Qc 2) :: lines_example_exact)
  = build_admittance_matrices 2 ([] ++ lines_example_exact).
Proof.
  apply (X6_self_loop_exact Qc _ 2 [] lines_example_exact
           (1%Z, 1%Z, Q2Qc 1, Q2Qc 2) exact_ExactNum); by vm_compute.
Defined.

(** ** The models: the state of every variable *)

Lemma bus_field_field BUS i key v :
  bus_field BUS i key = Ok v → field BUS i key = v.
Proof. unfold field. by intros ->. Qed.

Lemma has_field_field BUS i key :
  has_field BUS i key ↔ bus_field BUS i key = Ok (field BUS i key).
Proof.
  split; [|by eexists]. intros [v Hv]. by rewrite (bus_field_field _ _ _ _ Hv).
Qed.

Lemma boxed_idem box vd : boxed box (boxed box vd) = boxed box vd.
Proof. by destruct box as [[lo hi]|]. Qed.

Lemma var_update_var_data_eq c i f m m' :
  var_update c i f m = Ok m' → var_data m' c i = f <$> var_data m c i.
Proof.
  intros H. rewrite (var_update_var_data _ _ _ _ _ c i H).
  by rewrite decide_True.
Qed.

Lemma var_update_var_data_ne c i f m m' c' i' :
  var_update c i f m = Ok m' → c' ≠ c ∨ i' ≠ i →
  var_data m' c' i' = var_data m c' i'.
Proof.
  intros H Hne. rewrite (var_update_var_data _ _ _ _ _ c' i' H).
  rewrite decide_False; [done|]. intros [-> ->]. by destruct Hne.
Qed.

Lemma var_update_total c i f m vd :
  var_data m c i = Ok vd → ∃ m', var_update c i f m = Ok m'.
Proof.
  unfold var_data, var_update. intros H. inv_bind H as comp Hcomp.
  rewrite Hcomp. simpl. destruct comp; try done. rewrite H. simpl. eauto.
Qed.

Ltac step_var H :=
  first [ rewrite (var_update_var_data_eq _ _ _ _ _ H)
        | rewrite (var_update_var_data_ne _ _ _ _ _ _ _ H)
            by (first [left; done | right; done]) ].

Lemma ac_set_bounds_var_data BUS m i m' :
  ac_set_bounds BUS m i = Ok m' →
  (∀ key, key ∈ ["PGmin"; "PGmax"; "QGmin"; "QGmax"; "Vmin"; "Vmax"] →
          has_field BUS i key) ∧
  ∀ c k, var_data m' c k
         = if decide (k = i) then boxed (ac_box BUS c i) <$> var_data m c k
           else var_data m c k.
Proof.
  unfold ac_set_bounds. intros H.
  inv_bind H as v1 Hv1. inv_bind H as m1 Hm1.
  inv_bind H as v2 Hv2. inv_bind H as m2 Hm2.
  inv_bind H as v3 Hv3. inv_bind H as m3 Hm3.
  inv_bind H as v4 Hv4. inv_bind H as m4 Hm4.
  inv_bind H as v5 Hv5. inv_bind H as m5 Hm5.
  inv_bind H as v6 Hv6. inv_bind H as m6 Hm6.
  inv_bind H as m7 Hm7.
  split.
  { intros key Hkey. unfold has_field.
    repeat (apply elem_of_cons in Hkey as [->|Hkey]; [eauto|]).
    by apply elem_of_nil in Hkey. }
  apply bus_field_field in Hv1, Hv2, Hv3, Hv4, Hv5, Hv6. subst.
  intros c k. destruct (decide (k = i)) as [->|Hk].
  - unfold ac_box.
    destruct (decide (c = "Pg")) as [->|?];
      [|destruct (decide (c = "Qg")) as [->|?];
        [|destruct (decide (c = "V")) as [->|?];
          [|destruct (decide (c = "theta")) as [->|?]]]];
      step_var H; step_var Hm7; step_var Hm6; step_var Hm5;
      step_var Hm4; step_var Hm3; step_var Hm2; step_var Hm1;
      by destruct (var_data m _ i).
  - step_var H; step_var Hm7; step_var Hm6; step_var Hm5;
      step_var Hm4; step_var Hm3; step_var Hm2; step_var Hm1. done.
Qed.

Lemma dc_set_bounds_var_data BUS m i m' :
  dc_set_bounds BUS m i = Ok m' →
  (∀ key, key ∈ ["PGmin"; "PGmax"] → has_field BUS i key) ∧
  ∀ c k, var_data m' c k
         = if decide (k = i) then boxed (dc_box BUS c i) <$> var_data m c k
           else var_data m c k.
Proof.
  unfold dc_set_bounds. intros H.
  inv_bind H as v1 Hv1. inv_bind H as m1 Hm1.
  inv_bind H as v2 Hv2. inv_bind H as m2 Hm2.
  inv_bind H as m3 Hm3.
  split.
  { intros key Hkey. unfold has_field.
    repeat (apply elem_of_cons in Hkey as [->|Hkey]; [eauto|]).
    by apply elem_of_nil in Hkey. }
  apply bus_field_field in Hv1, Hv2. subst.
  intros c k. destruct (decide (k = i)) as [->|Hk].
  - unfold dc_box.
    destruct (decide (c = "Pg")) as [->|?];
      [|destruct (decide (c = "theta")) as [->|?]];
      step_var H; step_var Hm3; step_var Hm2; step_var Hm1;
      by destruct (var_data m _ i).
  - step_var H; step_var Hm3; step_var Hm2; step_var Hm1. done.
Qed.

(** The loop that sets the bounds, bus after bus. *)
Lemma for_each_bounds (body : model → nat → result model)
    (box : string → nat → option (float * float)) (xs : list nat) m m' :
  (∀ m i m', body m i = Ok m' →
     ∀ c k, var_data m' c k
            = if decide (k = i) then boxed (box c i) <$> var_data m c k
              else var_data m c k) →
  for_each xs body m = Ok m' →
  ∀ c k, var_data m' c k
         = if decide (k ∈ xs) then boxed (box c k) <$> var_data m c k
           else var_data m c k.
Proof.
  intros Hbody. revert m.
  induction xs as [|x xs IH]; intros m; cbn [for_each].
  - intros [= <-] c k. rewrite decide_False; [done|]. by intros ?%elem_of_nil.
  - intros H c k. inv_bind H as m1 Hm1.
    rewrite (IH _ H c k), (Hbody _ _ _ Hm1 c k).
    destruct (decide (k = x)) as [->|Hk].
    + rewrite (decide_True (P := x ∈ x :: xs)) by left.
      case_decide; [|done]. destruct (var_data m c x); simpl; [|done].
      by rewrite boxed_idem.
    + destruct (decide (k ∈ xs)).
      * by rewrite decide_True by by right.
      * rewrite decide_False; [done|]. by intros [?|?]%elem_of_cons.
Qed.

Lemma for_each_each_Ok {A S : Type} (xs : list A) (body : S → A → result S)
    (s s' : S) :
  for_each xs body s = Ok s' → ∀ x, x ∈ xs → ∃ s1 s2, body s1 x = Ok s2.
Proof.
  revert s. induction xs as [|y xs IH]; intros s H x Hx.
  - by apply elem_of_nil in Hx.
  - simpl in H. inv_bind H as s1 Hs1.
    apply elem_of_cons in Hx as [->|Hx]; [eauto|]. by apply (IH s1).
Qed.

Lemma var_update_Ok_var_data c i f m m' :
  var_update c i f m = Ok m' → ∃ vd, var_data m c i = Ok vd.
Proof.
  intros (d & vd & Hc & Hi & _)%var_update_Ok. exists vd.
  unfold var_data, getattr. rewrite Hc. simpl. by apply getitem_Ok.
Qed.

(** The variables of the DC model, as [build_dc_model] leaves them. *)
Lemma build_dc_model_vars N BUS lines m :
  build_dc_model N BUS lines = Ok m →
  ∃ gen,
    GEN_BUSES N BUS = Ok gen ∧ 0 < N ∧
    (∀ i, i < N → has_field BUS i "PGmin" ∧ has_field BUS i "PGmax") ∧
    (∀ i, i < N →
       var_data m "Pg" i
       = Ok (mkVarData (Some 0%float) (bool_decide (i ∈ LOAD_BUSES N gen))
               (Some (field BUS i "PGmin")) (Some (field BUS i "PGmax")) Reals) ∧
       var_data m "theta" i
       = Ok (mkVarData (Some 0%float) (bool_decide (i = 0))
               (Some (- np_pi)%float) (Some np_pi) Reals)) ∧
    (∀ i, N ≤ i → var_data m "Pg" i = Raise KeyError ∧
                  var_data m "theta" i = Raise KeyError).
Proof.
  unfold build_dc_model. intros H.
  inv_bind H as gen Hgen. inv_bind H as GB HGB. destruct GB as [G B].
  cbv beta iota zeta in H.
  inv_bind H as pload Hpload. inv_bind H as m1 Hm1. inv_bind H as m2 Hm2.
  inv_bind H as m3 Hm3. inv_bind H as cost Hcost. inv_bind H as pbc Hpb.
  injection H as <-.
  destruct (for_each_fix _ _ _ _ _ Hm2) as [_ Hvd2].
  pose proof (for_each_bounds _ (dc_box BUS) _ _ _
                (λ m i m' Hb, proj2 (dc_set_bounds_var_data BUS m i m' Hb))
                Hm3) as Hvd3.
  assert (0 < N) as HN.
  { destruct (var_update_Ok_var_data _ _ _ _ _ Hm1) as [vd Hvd].
    rewrite var_data_Var in Hvd. case_decide as H0; [|done].
    by apply elem_of_range in H0. }
  assert (∀ c i, c = "Pg" ∨ c = "theta" →
          var_data (setattr (setattr m3 "obj" (CObjective (sum_expr cost) minimize))
                            "p_balance" pbc) c i
          = if decide (i ∈ range N)
            then Ok (boxed (dc_box BUS c i)
                       (mkVarData (Some 0%float)
                          (if decide (c = "Pg")
                           then bool_decide (i ∈ LOAD_BUSES N gen)
                           else bool_decide (i = 0))
                          None None Reals))
            else Raise KeyError) as Hall.
  { intros c i Hc. rewrite !var_data_setattr.
    rewrite !decide_False by (by destruct Hc as [-> | ->]).
    rewrite (Hvd3 c i), (Hvd2 c i),
      (var_update_var_data _ _ _ _ _ c i Hm1).
    destruct Hc as [-> | ->].
    - rewrite (decide_False (P := "Pg" = "theta" ∧ i = 0)) by (by intros [? _]).
      rewrite var_data_setattr.
      rewrite (decide_False (P := "theta" = "Pg")) by done.
      rewrite var_data_Var.
      rewrite (decide_True (P := "Pg" = "Pg")) by done.
      destruct (decide (i ∈ range N)) as [Hi|Hi].
      + destruct (decide (i ∈ LOAD_BUSES N gen)) as [Hl|Hl].
        * rewrite decide_True by done.
          by rewrite bool_decide_eq_true_2 by done.
        * rewrite decide_False by (by intros [_ ?]).
          by rewrite bool_decide_eq_false_2 by done.
      + destruct (decide (i ∈ LOAD_BUSES N gen)) as [Hl|Hl].
        * rewrite decide_True by done. done.
        * rewrite decide_False by (by intros [_ ?]). done.
    - rewrite (decide_False (P := "theta" = "Pg" ∧ i ∈ LOAD_BUSES N gen))
        by (by intros [? _]).
      rewrite var_data_Var.
      rewrite (decide_False (P := "theta" = "Pg")) by done.
      destruct (decide (i ∈ range N)) as [Hi|Hi].
      + destruct (decide (i = 0)) as [->|H0].
        * rewrite decide_True by done.
          by rewrite bool_decide_eq_true_2 by done.
        * rewrite decide_False by (by intros [_ ?]).
          by rewrite bool_decide_eq_false_2 by done.
      + destruct (decide (i = 0)) as [->|H0].
        * rewrite decide_True by done. done.
        * rewrite decide_False by (by intros [_ ?]). done. }
  exists gen. split; [done|]. split; [done|]. split; [|split].
  - intros i Hi.
    destruct (for_each_each_Ok _ _ _ _ Hm3 i) as (s1 & s2 & Hb);
      [by apply elem_of_range|].
    destruct (dc_set_bounds_var_data _ _ _ _ Hb) as [Hf _].
    split; apply Hf; set_solver.
  - intros i Hi. rewrite !Hall by auto.
    by rewrite !(decide_True (P := i ∈ range N)) by by apply elem_of_range.
  - intros i Hi. rewrite !Hall by auto.
    by rewrite !(decide_False (P := i ∈ range N))
      by (rewrite elem_of_range; lia).
Qed.

(** The variables of the AC model, as [build_ac_model] leaves them. *)
Lemma build_ac_model_vars N BUS lines m :
  build_ac_model N BUS lines = Ok m →
  ∃ gen total,
    GEN_BUSES N BUS = Ok gen ∧
    py_sum (range N) (λ i, bus_field BUS i "Pload") = Ok total ∧
    0 < N ∧
    (∀ i key, i < N →
       key ∈ ["PGmin"; "PGmax"; "QGmin"; "QGmax"; "Vmin"; "Vmax"] →
       has_field BUS i key) ∧
    (∀ i, i < N →
       var_data m "Pg" i
       = Ok (mkVarData (if bool_decide (i ∈ LOAD_BUSES N gen)
                        then Some 0%float else ac_Pg_start total i)
               (bool_decide (i ∈ LOAD_BUSES N gen))
               (Some (field BUS i "PGmin")) (Some (field BUS i "PGmax")) Reals) ∧
       var_data m "Qg" i
       = Ok (mkVarData (Some 0%float) (bool_decide (i ∈ LOAD_BUSES N gen))
               (Some (field BUS i "QGmin")) (Some (field BUS i "QGmax")) Reals) ∧
       var_data m "V" i
       = Ok (mkVarData (Some (if decide (i = 0) then 1.06%float else 1.0%float))
               (bool_decide (i = 0))
               (Some (field BUS i "Vmin")) (Some (field BUS i "Vmax"))
               NonNegativeReals) ∧
       var_data m "theta" i
       = Ok (mkVarData (Some 0%float) (bool_decide (i = 0))
               (Some (- np_pi)%float) (Some np_pi) Reals)) ∧
    (∀ i c, N ≤ i → c ∈ ["Pg"; "Qg"; "V"; "theta"] →
            var_data m c i = Raise KeyError).
Proof.
  unfold build_ac_model. intros H.
  inv_bind H as gen Hgen. inv_bind H as GB HGB. destruct GB as [G B].
  cbv beta iota zeta in H.
  inv_bind H as pload Hpload. inv_bind H as qload Hqload.
  inv_bind H as total Htotal.
  inv_bind H as Pgc HPgc. apply Var_from_dict_Ok in HPgc as [-> _].
  inv_bind H as m1 Hm1. inv_bind H as m2 Hm2. inv_bind H as m3 Hm3.
  inv_bind H as m4 Hm4. inv_bind H as cost Hcost.
  inv_bind H as pbc Hpb. inv_bind H as qbc Hqb.
  injection H as <-.
  destruct (for_each_ac_fix_load _ _ _ Hm3) as [_ Hvd3].
  pose proof (for_each_bounds _ (ac_box BUS) _ _ _
                (λ m i m' Hb, proj2 (ac_set_bounds_var_data BUS m i m' Hb))
                Hm4) as Hvd4.
  assert (0 < N) as HN.
  { destruct (var_update_Ok_var_data _ _ _ _ _ Hm1) as [vd Hvd].
    rewrite var_data_setattr in Hvd.
    rewrite (decide_False (P := "theta" = "V")) in Hvd by done.
    rewrite var_data_Var in Hvd. case_decide as H0; [|done].
    by apply elem_of_range in H0. }
  set (mf := setattr (setattr (setattr m4 "obj" _) "p_balance" pbc)
                     "q_balance" qbc).
  assert (∀ c i, c ≠ "obj" → c ≠ "p_balance" → c ≠ "q_balance" →
                 var_data mf c i = var_data m4 c i) as Hmf.
  { intros c i ? ? ?. unfold mf. rewrite !var_data_setattr.
    by rewrite !decide_False by done. }
  assert (∀ i, var_data mf "Pg" i
          = if decide (i ∈ range N)
            then Ok (boxed (ac_box BUS "Pg" i)
                       (mkVarData (if bool_decide (i ∈ LOAD_BUSES N gen)
                                   then Some 0%float else ac_Pg_start total i)
                          (bool_decide (i ∈ LOAD_BUSES N gen)) None None Reals))
            else Raise KeyError) as HPg.
  { intros i. rewrite (Hmf "Pg" i) by done.
    rewrite (Hvd4 "Pg" i), (Hvd3 "Pg" i).
    rewrite (var_update_var_data_ne _ _ _ _ _ "Pg" i Hm2) by by left.
    rewrite (var_update_var_data_ne _ _ _ _ _ "Pg" i Hm1) by by left.
    rewrite !var_data_setattr.
    rewrite (decide_False (P := "theta" = "Pg")) by done.
    rewrite (decide_False (P := "V" = "Pg")) by done.
    rewrite (decide_False (P := "Qg" = "Pg")) by done.
    rewrite (decide_True (P := "Pg" = "Pg")) by done.
    rewrite getitem_Var.
    destruct (decide (i ∈ LOAD_BUSES N gen)) as [Hl|Hl].
    - rewrite (decide_True (P := ("Pg" = "Pg" ∨ "Pg" = "Qg") ∧ _)) by auto.
      rewrite bool_decide_eq_true_2 by done. by case_decide.
    - rewrite (decide_False (P := ("Pg" = "Pg" ∨ "Pg" = "Qg") ∧ _))
        by (by intros [_ ?]).
      rewrite bool_decide_eq_false_2 by done. by case_decide. }
  assert (∀ i, var_data mf "Qg" i
          = if decide (i ∈ range N)
            then Ok (boxed (ac_box BUS "Qg" i)
                       (mkVarData (Some 0%float)
                          (bool_decide (i ∈ LOAD_BUSES N gen)) None None Reals))
            else Raise KeyError) as HQg.
  { intros i. rewrite (Hmf "Qg" i) by done.
    rewrite (Hvd4 "Qg" i), (Hvd3 "Qg" i).
    rewrite (var_update_var_data_ne _ _ _ _ _ "Qg" i Hm2) by by left.
    rewrite (var_update_var_data_ne _ _ _ _ _ "Qg" i Hm1) by by left.
    rewrite !var_data_setattr.
    rewrite (decide_False (P := "theta" = "Qg")) by done.
    rewrite (decide_False (P := "V" = "Qg")) by done.
    rewrite (decide_True (P := "Qg" = "Qg")) by done.
    rewrite getitem_Var.
    destruct (decide (i ∈ LOAD_BUSES N gen)) as [Hl|Hl].
    - rewrite (decide_True (P := ("Qg" = "Pg" ∨ "Qg" = "Qg") ∧ _)) by auto.
      rewrite bool_decide_eq_true_2 by done. by case_decide.
    - rewrite (decide_False (P := ("Qg" = "Pg" ∨ "Qg" = "Qg") ∧ _))
        by (by intros [_ ?]).
      rewrite bool_decide_eq_false_2 by done. by case_decide. }
  assert (∀ i, var_data mf "V" i
          = if decide (i ∈ range N)
            then Ok (boxed (ac_box BUS "V" i)
                       (mkVarData
                          (Some (if decide (i = 0) then 1.06%float else 1.0%float))
                          (bool_decide (i = 0)) None None NonNegativeReals))
            else Raise KeyError) as HV.
  { intros i. rewrite (Hmf "V" i) by done.
    rewrite (Hvd4 "V" i), (Hvd3 "V" i).
    rewrite (decide_False (P := ("V" = "Pg" ∨ "V" = "Qg") ∧ _))
      by (by intros [[?|?] _]).
    rewrite (var_update_var_data_ne _ _ _ _ _ "V" i Hm2) by by left.
    rewrite (var_update_var_data _ _ _ _ _ "V" i Hm1).
    rewrite !var_data_setattr.
    rewrite (decide_False (P := "theta" = "V")) by done.
    rewrite (decide_True (P := "V" = "V")) by done.
    rewrite getitem_Var.
    destruct (decide (i = 0)) as [->|H0].
    - rewrite (decide_True (P := "V" = "V" ∧ 0 = 0)) by done.
      rewrite bool_decide_eq_true_2 by done. by case_decide.
    - rewrite (decide_False (P := "V" = "V" ∧ i = 0)) by (by intros [_ ?]).
      rewrite bool_decide_eq_false_2 by done. by case_decide. }
  assert (∀ i, var_data mf "theta" i
          = if decide (i ∈ range N)
            then Ok (boxed (ac_box BUS "theta" i)
                       (mkVarData (Some 0%float) (bool_decide (i = 0))
                          None None Reals))
            else Raise KeyError) as Hth.
  { intros i. rewrite (Hmf "theta" i) by done.
    rewrite (Hvd4 "theta" i), (Hvd3 "theta" i).
    rewrite (decide_False (P := ("theta" = "Pg" ∨ "theta" = "Qg") ∧ _))
      by (by intros [[?|?] _]).
    rewrite (var_update_var_data _ _ _ _ _ "theta" i Hm2).
    rewrite (var_update_var_data_ne _ _ _ _ _ "theta" i Hm1) by by left.
    rewrite var_data_Var.
    destruct (decide (i = 0)) as [->|H0].
    - rewrite (decide_True (P := "theta" = "theta" ∧ 0 = 0)) by done.
      rewrite bool_decide_eq_true_2 by done. by case_decide.
    - rewrite (decide_False (P := "theta" = "theta" ∧ i = 0))
        by (by intros [_ ?]).
      rewrite bool_decide_eq_false_2 by done. by case_decide. }
  exists gen, total. split; [done|]. split; [done|]. split; [done|].
  split; [|split].
  - intros i key Hi Hkey.
    destruct (for_each_each_Ok _ _ _ _ Hm4 i) as (s1 & s2 & Hb);
      [by apply elem_of_range|].
    by apply (proj1 (ac_set_bounds_var_data _ _ _ _ Hb)).
  - intros i Hi. rewrite HPg, HQg, HV, Hth.
    by rewrite !(decide_True (P := i ∈ range N)) by by apply elem_of_range.
  - intros i c Hi Hc.
    assert (i ∉ range N) as Hr by (rewrite elem_of_range; lia).
    repeat (apply elem_of_cons in Hc as [->|Hc];
            [first [rewrite HPg|rewrite HQg|rewrite HV|rewrite Hth];
             by rewrite decide_False by done|]).
    by apply elem_of_nil in Hc.
Qed.

(** X7. The slack bus: [build_ac_model] fixes [V[0]] to 1.06 and
    [theta[0]] to 0, [build_dc_model] fixes [theta[0]] to 0, and a solver's
    values never replace them; at every other bus the voltage and the
    angle are left free. *)
Theorem X7_slack_bus (N : nat) (BUS : bus_table) (lines : list (line float)) :
  (∀ m, build_ac_model N BUS lines = Ok m →
     fixed_to m "V" 0 1.06 ∧ fixed_to m "theta" 0 0 ∧
     (∀ i, 0 < i < N → free m "V" i ∧ free m "theta" i) ∧
     (∀ sol, model_val (load_solution sol m) "V" 0 = Ok 1.06%float ∧
             model_val (load_solution sol m) "theta" 0 = Ok 0%float))
  ∧ (∀ m, build_dc_model N BUS lines = Ok m →
       fixed_to m "theta" 0 0 ∧
       (∀ i, 0 < i < N → free m "theta" i) ∧
       (∀ sol, model_val (load_solution sol m) "theta" 0 = Ok 0%float)).
Proof.
  split.
  - intros m (gen & total & _ & _ & HN & _ & Hvar & _)%build_ac_model_vars.
    assert (fixed_to m "V" 0 1.06 ∧ fixed_to m "theta" 0 0) as [HV Hth].
    { destruct (Hvar 0 HN) as (_ & _ & HV & Hth).
      split; eexists; (split; [eassumption|]); by split. }
    split; [exact HV|]. split; [exact Hth|]. split.
    + intros i [H0 Hi]. destruct (Hvar i Hi) as (_ & _ & HVi & Hthi).
      split; eexists; (split; [eassumption|]); simpl;
        apply bool_decide_eq_false_2; lia.
    + intros sol. split; by apply fixed_to_load_solution.
  - intros m (gen & _ & HN & _ & Hvar & _)%build_dc_model_vars.
    assert (fixed_to m "theta" 0 0) as Hth.
    { destruct (Hvar 0 HN) as (_ & Hth).
      eexists; (split; [eassumption|]); by split. }
    split; [exact Hth|]. split.
    + intros i [H0 Hi]. destruct (Hvar i Hi) as (_ & Hthi).
      eexists; (split; [eassumption|]); simpl.
      apply bool_decide_eq_false_2; lia.
    + intros sol. by apply fixed_to_load_solution.
Qed.

Lemma X7_witness :
  ∃ m, build_ac_model N_BUS BUS_DATA LINE_DATA = Ok m ∧
       fixed_to m "V" 0 1.06 ∧ fixed_to m "theta" 0 0 ∧
       free m "V" 1 ∧ free m "theta" 1.
Proof.
  destruct (build_ac_model N_BUS BUS_DATA LINE_DATA) as [m|] eqn:E;
    [|by vm_compute in E].
  exists m. split; [reflexivity|].
  destruct (proj1 (X7_slack_bus N_BUS BUS_DATA LINE_DATA) m E)
    as (HV & Hth & Hfree & _).
  destruct (Hfree 1) as [H1 H2]; [unfold N_BUS; lia|].
  split; [exact HV|]. split; [exact Hth|]. split; [exact H1|exact H2].
Defined.

(** X8. The bounds and domains of the variables: at every bus [Pg], [Qg]
    and [V] get the limits of the bus table (which the builder therefore
    needs), [theta] lies between -pi and pi, and only [V] is declared
    non-negative; the DC model bounds [Pg] and [theta] in the same way. This
    holds at the buses without generation too, whose [Pg] and [Qg] are
    fixed. *)
Theorem X8_variable_bounds (N : nat) (BUS : bus_table)
    (lines : list (line float)) :
  (∀ m, build_ac_model N BUS lines = Ok m →
     ∀ i, i < N →
       (∀ key, key ∈ ["PGmin"; "PGmax"; "QGmin"; "QGmax"; "Vmin"; "Vmax"] →
               bus_field BUS i key = Ok (field BUS i key)) ∧
       var_box m "Pg" i Reals (field BUS i "PGmin") (field BUS i "PGmax") ∧
       var_box m "Qg" i Reals (field BUS i "QGmin") (field BUS i "QGmax") ∧
       var_box m "V" i NonNegativeReals
               (field BUS i "Vmin") (field BUS i "Vmax") ∧
       var_box m "theta" i Reals (- np_pi)%float np_pi)
  ∧ (∀ m, build_dc_model N BUS lines = Ok m →
       ∀ i, i < N →
         (∀ key, key ∈ ["PGmin"; "PGmax"] →
                 bus_field BUS i key = Ok (field BUS i key)) ∧
         var_box m "Pg" i Reals (field BUS i "PGmin") (field BUS i "PGmax") ∧
         var_box m "theta" i Reals (- np_pi)%float np_pi).
Proof.
  split.
  - intros m (gen & total & _ & _ & _ & Hf & Hvar & _)%build_ac_model_vars i Hi.
    destruct (Hvar i Hi) as (HPg & HQg & HV & Hth).
    split; [intros key Hkey; by apply has_field_field, Hf|].
    repeat split; eexists; (split; [eassumption|]); by repeat split.
  - intros m (gen & _ & _ & Hf & Hvar & _)%build_dc_model_vars i Hi.
    destruct (Hvar i Hi) as (HPg & Hth).
    split.
    + intros key Hkey. apply has_field_field.
      apply elem_of_cons in Hkey as [->|Hkey]; [apply (Hf i Hi)|].
      apply elem_of_cons in Hkey as [->|Hkey]; [apply (Hf i Hi)|].
      by apply elem_of_nil in Hkey.
    + split; eexists; (split; [eassumption|]); by repeat split.
Qed.

Lemma X8_witness :
  ∃ m, build_ac_model N_BUS BUS_DATA LINE_DATA = Ok m ∧
       var_box m "Pg" 1 Reals 0 0.8 ∧ var_box m "Qg" 1 Reals (-0.4) 0.6 ∧
       var_box m "V" 1 NonNegativeReals 0.95 1.05 ∧
       var_box m "theta" 1 Reals (- np_pi)%float np_pi.
Proof.
  destruct (build_ac_model N_BUS BUS_DATA LINE_DATA) as [m|] eqn:E;
    [|by vm_compute in E].
  exists m. split; [reflexivity|].
  destruct (proj1 (X8_variable_bounds N_BUS BUS_DATA LINE_DATA) m E 1)
    as (_ & HPg & HQg & HV & Hth); [unfold N_BUS; lia|].
  split; [exact HPg|]. split; [exact HQg|]. split; [exact HV|exact Hth].
Defined.

(** X9. The point the solver starts from: in the AC model the generation
    at a generator bus starts at the value of the initializer (the total
    load at bus 0, nothing from bus 5 on) with [Qg] at 0, the voltage of
    every bus but the slack at 1.0 and its angle at 0; in the DC model
    [Pg] and [theta] start at 0. Fixing and bounding the variables changes
    none of these values. *)
Theorem X9_starting_point (N : nat) (BUS : bus_table)
    (lines : list (line float)) :
  (∀ m, build_ac_model N BUS lines = Ok m →
     ∃ gen total,
       GEN_BUSES N BUS = Ok gen ∧
       py_sum (range N) (λ i, bus_field BUS i "Pload") = Ok total ∧
       ac_Pg_start total 0 = Some total ∧
       (∀ i, 5 ≤ i → ac_Pg_start total i = None) ∧
       ∀ i, i < N →
         (i ∈ gen → starts_at m "Pg" i (ac_Pg_start total i) ∧
                    starts_at m "Qg" i (Some 0%float)) ∧
         (0 < i → starts_at m "V" i (Some 1%float) ∧
                  starts_at m "theta" i (Some 0%float)))
  ∧ (∀ m, build_dc_model N BUS lines = Ok m →
       ∃ gen,
         GEN_BUSES N BUS = Ok gen ∧
         ∀ i, i < N →
           (i ∈ gen → starts_at m "Pg" i (Some 0%float)) ∧
           (0 < i → starts_at m "theta" i (Some 0%float))).
Proof.
  split.
  - intros m (gen & total & Hgen & Htot & _ & _ & Hvar & _)%build_ac_model_vars.
    exists gen, total. split; [done|]. split; [done|]. split; [done|]. split.
    { intros i Hi. unfold ac_Pg_start. apply not_elem_of_list_to_map_1.
      simpl. rewrite !elem_of_cons, elem_of_nil. lia. }
    intros i Hi. destruct (Hvar i Hi) as (HPg & HQg & HV & Hth). split.
    + intros Hg.
      assert (bool_decide (i ∈ LOAD_BUSES N gen) = false) as Hl.
      { apply bool_decide_eq_false_2. rewrite elem_of_LOAD_BUSES. tauto. }
      rewrite Hl in HPg, HQg.
      split; eexists; (split; [eassumption|]); by split.
    + intros H0.
      assert (bool_decide (i = 0) = false) as Hz
        by (apply bool_decide_eq_false_2; lia).
      rewrite Hz in HV, Hth.
      split; eexists; (split; [eassumption|]); (split; [done|]); simpl;
        [|done].
      by rewrite decide_False by lia.
  - intros m (gen & Hgen & _ & _ & Hvar & _)%build_dc_model_vars.
    exists gen. split; [done|].
    intros i Hi. destruct (Hvar i Hi) as (HPg & Hth). split.
    + intros Hg.
      assert (bool_decide (i ∈ LOAD_BUSES N gen) = false) as Hl.
      { apply bool_decide_eq_false_2. rewrite elem_of_LOAD_BUSES. tauto. }
      rewrite Hl in HPg. eexists; (split; [eassumption|]); by split.
    + intros H0.
      assert (bool_decide (i = 0) = false) as Hz
        by (apply bool_decide_eq_false_2; lia).
      rewrite Hz in Hth. eexists; (split; [eassumption|]); by split.
Qed.

Lemma X9_witness :
  ∃ m, build_ac_model N_BUS BUS_DATA LINE_DATA = Ok m ∧
       starts_at m "Pg" 1 (Some 0.1%float) ∧
       starts_at m "V" 1 (Some 1%float).
Proof.
  destruct (build_ac_model N_BUS BUS_DATA LINE_DATA) as [m|] eqn:E;
    [|by vm_compute in E].
  exists m. split; [reflexivity|].
  destruct (proj1 (X9_starting_point N_BUS BUS_DATA LINE_DATA) m E)
    as (gen & total & Hgen & _ & _ & _ & Hi).
  vm_compute in Hgen. injection Hgen as <-.
  destruct (Hi 1) as [H1 H2]; [unfold N_BUS; lia|].
  destruct H1 as [HPg _]; [by apply (bool_decide_unpack _)|].
  destruct H2 as [HV _]; [lia|].
  split; [exact HPg|exact HV].
Defined.

(** ** When the builders return *)

Lemma bind_total {A B : Type} (r : result A) (f : A → result B) :
  (∃ a, r = Ok a ∧ ∃ b, f a = Ok b) → ∃ b, r ≫= f = Ok b.
Proof. intros (a & -> & b & Hb). by exists b. Qed.

Ltac bind_with H :=
  apply bind_total; eexists; split; [exact H|]; cbv beta iota zeta.

Lemma for_each_total_inv {A S : Type} (P : S → Prop) (xs : list A)
    (body : S → A → result S) (s : S) :
  (∀ s x, x ∈ xs → P s → ∃ s', body s x = Ok s' ∧ P s') →
  P s → ∃ s', for_each xs body s = Ok s' ∧ P s'.
Proof.
  revert s. induction xs as [|x xs IH]; intros s Hbody Hs; simpl; [eauto|].
  destruct (Hbody s x) as (s1 & -> & Hs1); [by left|done|]. simpl.
  apply IH; [|done]. intros s0 y Hy. apply Hbody. by right.
Qed.

Lemma filterM_total {A : Type} (p : A → result bool) (xs : list A) :
  (∀ x, x ∈ xs → ∃ b, p x = Ok b) → ∃ ys, filterM p xs = Ok ys.
Proof.
  induction xs as [|x xs IH]; intros H; simpl; [eauto|].
  destruct (H x) as [b ->]; [by left|]. simpl.
  destruct IH as [ys ->]; [intros y Hy; apply H; by right|]. simpl. eauto.
Qed.

Lemma mapM_total {A B : Type} (f : A → result B) (xs : list A) :
  (∀ x, x ∈ xs → ∃ y, f x = Ok y) → ∃ ys, mapM f xs = Ok ys.
Proof.
  induction xs as [|x xs IH]; intros H; simpl; [eauto|].
  destruct (H x) as [y ->]; [by left|]. simpl.
  destruct IH as [ys ->]; [intros z Hz; apply H; by right|]. simpl. eauto.
Qed.

Lemma dict_comp_total (keys : list nat) (f : nat → result float) :
  (∀ i, i ∈ keys → ∃ v, f i = Ok v) → ∃ d, dict_comp keys f = Ok d.
Proof.
  intros H. unfold dict_comp.
  destruct (for_each_total_inv (λ _, True) keys
              (λ d i, v ← f i; Ok (<[i := v]> d)) (∅ : gmap nat float))
    as (d & Hd & _);
    [|done|eauto].
  intros d i Hi _. destruct (H i Hi) as [v ->]. simpl. eauto.
Qed.

Lemma py_sum_total (xs : list nat) (f : nat → result float) :
  (∀ i, i ∈ xs → ∃ v, f i = Ok v) → ∃ t, py_sum xs f = Ok t.
Proof.
  intros H. unfold py_sum.
  destruct (for_each_total_inv (λ _, True) xs
              (λ acc i, v ← f i; Ok (acc + v)%float) 0%float) as (d & Hd & _);
    [|done|eauto].
  intros d i Hi _. destruct (H i Hi) as [v ->]. simpl. eauto.
Qed.

Lemma Constraint_total (index : list nat) (rule : nat → result relation) :
  (∀ i, i ∈ index → ∃ r, rule i = Ok r) →
  ∃ body, Constraint index rule = Ok (CConstraint body).
Proof.
  intros H. unfold Constraint.
  destruct (for_each_total_inv (λ _, True) index
              (λ d i, r ← rule i; Ok (<[i := r]> d))
              (∅ : gmap nat relation)) as (d & Hd & _).
  - intros d i Hi _. destruct (H i Hi) as [v ->]. simpl. eauto.
  - done.
  - rewrite Hd. simpl. eauto.
Qed.

Lemma GEN_BUSES_total N BUS :
  (∀ i, i < N → has_field BUS i "PGmax") → ∃ gen, GEN_BUSES N BUS = Ok gen.
Proof.
  intros H. apply filterM_total. intros i Hi%elem_of_range.
  destruct (H i Hi) as [v ->]. simpl. eauto.
Qed.

Lemma np_getitem_total N (M : matrix float) i k :
  shaped N M → i < N → k < N →
  ∃ v, np_getitem M (Z.of_nat i) (Z.of_nat k) = Ok v.
Proof.
  intros HM Hi Hk. unfold np_getitem.
  rewrite (shaped_nrows N), (shaped_ncols N) by done.
  rewrite !np_index_in_range by lia. simpl. rewrite !Nat2Z.id.
  destruct (shaped_mget N M i k HM Hi Hk) as [v ->]. eauto.
Qed.

Lemma var_ref_declared N cs m c i :
  declared N cs m → c ∈ cs → i < N → var_ref m c i = Ok (EVar c i).
Proof.
  intros Hd Hc Hi. unfold var_ref. by destruct (Hd c i Hc Hi) as [vd ->].
Qed.

Lemma declared_setattr N cs m a comp :
  declared N cs m → a ∉ cs → declared N cs (setattr m a comp).
Proof.
  intros Hd Ha c i Hc Hi. rewrite var_data_setattr.
  rewrite decide_False by (by intros ->). by apply Hd.
Qed.

Lemma var_update_ready N cs c i f m :
  declared N cs m → c ∈ cs → i < N →
  ∃ m', var_update c i f m = Ok m' ∧
        skeleton m' = skeleton m ∧ declared N cs m'.
Proof.
  intros Hd Hc Hi. destruct (Hd c i Hc Hi) as [vd Hvd].
  destruct (var_update_total c i f m vd Hvd) as [m' Hm']. exists m'.
  split; [done|]. split; [by apply (var_update_skeleton c i f)|].
  intros c' i' Hc' Hi'. rewrite (var_update_var_data _ _ _ _ _ c' i' Hm').
  destruct (Hd c' i' Hc' Hi') as [vd' ->]. case_decide; simpl; eauto.
Qed.

Lemma dc_set_bounds_total N cs BUS m i :
  has_field BUS i "PGmin" → has_field BUS i "PGmax" →
  "Pg" ∈ cs → "theta" ∈ cs → i < N → declared N cs m →
  ∃ m', dc_set_bounds BUS m i = Ok m' ∧
        skeleton m' = skeleton m ∧ declared N cs m'.
Proof.
  intros [v1 Hv1] [v2 Hv2] HPg Hth Hi Hd.
  assert (∃ m', dc_set_bounds BUS m i = Ok m') as [m' Hm'].
  { unfold dc_set_bounds. bind_with Hv1.
    destruct (var_update_ready N cs "Pg" i (setlb v1) m)
      as (m1 & Hm1 & _ & Hd1); [done..|]. bind_with Hm1. bind_with Hv2.
    destruct (var_update_ready N cs "Pg" i (setub v2) m1)
      as (m2 & Hm2 & _ & Hd2); [done..|]. bind_with Hm2.
    destruct (var_update_ready N cs "theta" i (setlb (- np_pi)%float) m2)
      as (m3 & Hm3 & _ & Hd3); [done..|]. bind_with Hm3.
    destruct (var_update_ready N cs "theta" i (setub np_pi) m3)
      as (m4 & Hm4 & _ & Hd4); [done..|]. eauto. }
  exists m'. split; [done|].
  split; [by apply (dc_set_bounds_held BUS m i)|].
  intros c k Hc Hk.
  rewrite (proj2 (dc_set_bounds_var_data BUS m i m' Hm') c k).
  destruct (Hd c k Hc Hk) as [vd ->]. case_decide; simpl; eauto.
Qed.

Lemma dc_p_balance_rule_total B N m i pload :
  shaped N B → i < N → declared N ["Pg"; "theta"] m →
  skeleton m !! "Pload" = Some (CParam pload) → is_Some (pload !! i) →
  ∃ r, dc_p_balance_rule B N m i = Ok r.
Proof.
  intros HB Hi Hd Hsk [pl Hpl]. unfold dc_p_balance_rule.
  destruct (mapM_total
              (λ k, Bik ← np_getitem B (Z.of_nat i) (Z.of_nat k);
                    ti ← var_ref m "theta" i; tk ← var_ref m "theta" k;
                    Ok (EMul (ENum Bik) (ESub ti tk)))
              (range N)) as [terms ->].
  { intros k Hk%elem_of_range.
    destruct (np_getitem_total N B i k HB Hi Hk) as [v ->]. simpl.
    rewrite !(var_ref_declared N ["Pg"; "theta"]); try done; set_solver. }
  simpl. rewrite (var_ref_declared N ["Pg"; "theta"]); [|done|set_solver|done].
  simpl. rewrite (param_get_skeleton _ _ _ _ Hsk).
  unfold getitem. rewrite Hpl. simpl. eauto.
Qed.

Lemma generator_GEN_BUSES N BUS gen i :
  GEN_BUSES N BUS = Ok gen → i ∈ gen → i < N ∧ generator BUS i.
Proof.
  intros Hgen Hi.
  apply (GEN_BUSES_Ok N BUS gen Hgen) in Hi as (Hi & v & Hv & Hpos).
  split; [done|]. unfold generator. by rewrite (bus_field_field _ _ _ _ Hv).
Qed.

(** With at least one bus, the entries of the bus table it reads and
    admittance matrices, [build_dc_model] returns a model. *)
Lemma build_dc_model_total N BUS lines GB :
  0 < N → dc_data N BUS → build_admittance_matrices N lines = Ok GB →
  ∃ m, build_dc_model N BUS lines = Ok m.
Proof.
  intros HN Hdata HGB. destruct GB as [G B].
  destruct (build_admittance_shaped N lines G B HGB) as [_ HB].
  destruct (GEN_BUSES_total N BUS) as [gen Hgen]; [intros i Hi; apply Hdata, Hi|].
  destruct (dict_comp_total (range N) (λ i, bus_field BUS i "Pload"))
    as [pload Hpload].
  { intros i Hi%elem_of_range. apply Hdata, Hi. }
  unfold build_dc_model.
  bind_with Hgen. bind_with HGB. bind_with Hpload.
  set (cs := ["Pg"; "theta"]).
  set (m0 := setattr (setattr _ "Pg" _) "theta" _).
  assert (declared N cs m0) as Hd0.
  { intros c i Hc Hi. unfold m0.
    apply elem_of_cons in Hc as [->|Hc];
      [|apply elem_of_cons in Hc as [->|Hc]; [|by apply elem_of_nil in Hc]].
    - rewrite var_data_setattr, decide_False by done.
      rewrite var_data_Var, decide_True by by apply elem_of_range. eauto.
    - rewrite var_data_Var, decide_True by by apply elem_of_range. eauto. }
  assert (skeleton m0 !! "Pload" = Some (CParam pload)) as Hsk0.
  { unfold m0. by rewrite !skeleton_setattr. }
  destruct (var_update_ready N cs "theta" 0 (fix_ 0.0) m0) as (m1 & Hm1 & Hs1 & Hd1);
    [done|set_solver|done|].
  bind_with Hm1.
  destruct (for_each_total_inv
              (λ m, skeleton m = skeleton m0 ∧ declared N cs m)
              (LOAD_BUSES N gen)
              (λ m i, var_update "Pg" i (fix_ 0.0) m) m1)
    as (m2 & Hm2 & Hs2 & Hd2); [|done|].
  { intros m i [Hi _]%elem_of_LOAD_BUSES [Hs Hd].
    destruct (var_update_ready N cs "Pg" i (fix_ 0.0) m) as (m' & ? & ? & ?);
      [done|set_solver|done|].
    exists m'. split; [done|]. split; [congruence|done]. }
  bind_with Hm2.
  destruct (for_each_total_inv
              (λ m, skeleton m = skeleton m0 ∧ declared N cs m)
              (range N) (dc_set_bounds BUS) m2)
    as (m3 & Hm3 & Hs3 & Hd3); [|done|].
  { intros m i Hi%elem_of_range [Hs Hd].
    destruct (dc_set_bounds_total N cs BUS m i) as (m' & ? & ? & ?);
      [apply Hdata, Hi|apply Hdata, Hi|set_solver|set_solver|done..|].
    exists m'. split; [done|]. split; [congruence|done]. }
  bind_with Hm3.
  destruct (mapM_total (dc_cost_term BUS m3) gen) as [cost Hcost].
  { intros i Hi. destruct (generator_GEN_BUSES N BUS gen i Hgen Hi) as [HiN Hg].
    unfold dc_cost_term.
    destruct (proj2 (proj2 (proj2 (Hdata i HiN))) Hg) as [b ->]. simpl.
    rewrite (var_ref_declared N cs); [simpl; eauto|done|set_solver|done]. }
  bind_with Hcost.
  destruct (Constraint_total (range N)
              (dc_p_balance_rule B N
                 (setattr m3 "obj" (CObjective (sum_expr cost) minimize))))
    as [pb Hpb].
  { intros i Hi%elem_of_range.
    apply (dc_p_balance_rule_total B N _ i pload); try done.
    - apply declared_setattr; [done|].
      unfold cs. rewrite !not_elem_of_cons. repeat split; try done.
      apply not_elem_of_nil.
    - rewrite skeleton_setattr, lookup_insert_ne by done. by rewrite Hs3.
    - destruct (dict_comp_each_Ok _ _ _ Hpload i) as (v & _ & ->);
        [by apply elem_of_range|done]. }
  bind_with Hpb. eauto.
Qed.

Lemma ac_set_bounds_total N cs BUS m i :
  (∀ key, key ∈ ["PGmin"; "PGmax"; "QGmin"; "QGmax"; "Vmin"; "Vmax"] →
          has_field BUS i key) →
  (∀ c, c ∈ ["Pg"; "Qg"; "V"; "theta"] → c ∈ cs) →
  i < N → declared N cs m →
  ∃ m', ac_set_bounds BUS m i = Ok m' ∧
        skeleton m' = skeleton m ∧ declared N cs m'.
Proof.
  intros Hf Hcs Hi Hd.
  assert (∃ m', ac_set_bounds BUS m i = Ok m') as [m' Hm'].
  { unfold ac_set_bounds.
    destruct (Hf "PGmin") as [v1 Hv1]; [set_solver|]. bind_with Hv1.
    destruct (var_update_ready N cs "Pg" i (setlb v1) m)
      as (m1 & Hm1 & _ & Hd1); [done|apply Hcs; set_solver|done|].
    bind_with Hm1.
    destruct (Hf "PGmax") as [v2 Hv2]; [set_solver|]. bind_with Hv2.
    destruct (var_update_ready N cs "Pg" i (setub v2) m1)
      as (m2 & Hm2 & _ & Hd2); [done|apply Hcs; set_solver|done|].
    bind_with Hm2.
    destruct (Hf "QGmin") as [v3 Hv3]; [set_solver|]. bind_with Hv3.
    destruct (var_update_ready N cs "Qg" i (setlb v3) m2)
      as (m3 & Hm3 & _ & Hd3); [done|apply Hcs; set_solver|done|].
    bind_with Hm3.
    destruct (Hf "QGmax") as [v4 Hv4]; [set_solver|]. bind_with Hv4.
    destruct (var_update_ready N cs "Qg" i (setub v4) m3)
      as (m4 & Hm4 & _ & Hd4); [done|apply Hcs; set_solver|done|].
    bind_with Hm4.
    destruct (Hf "Vmin") as [v5 Hv5]; [set_solver|]. bind_with Hv5.
    destruct (var_update_ready N cs "V" i (setlb v5) m4)
      as (m5 & Hm5 & _ & Hd5); [done|apply Hcs; set_solver|done|].
    bind_with Hm5.
    destruct (Hf "Vmax") as [v6 Hv6]; [set_solver|]. bind_with Hv6.
    destruct (var_update_ready N cs "V" i (setub v6) m5)
      as (m6 & Hm6 & _ & Hd6); [done|apply Hcs; set_solver|done|].
    bind_with Hm6.
    destruct (var_update_ready N cs "theta" i (setlb (- np_pi)%float) m6)
      as (m7 & Hm7 & _ & Hd7); [done|apply Hcs; set_solver|done|].
    bind_with Hm7.
    destruct (var_update_ready N cs "theta" i (setub np_pi) m7)
      as (m8 & Hm8 & _ & Hd8); [done|apply Hcs; set_solver|done|]. eauto. }
  exists m'. split; [done|].
  split; [by apply (ac_set_bounds_held BUS m i)|].
  intros c k Hc Hk.
  rewrite (proj2 (ac_set_bounds_var_data BUS m i m' Hm') c k).
  destruct (Hd c k Hc Hk) as [vd ->]. case_decide; simpl; eauto.
Qed.

Lemma ac_fix_load_total N cs m i :
  "Pg" ∈ cs → "Qg" ∈ cs → i < N → declared N cs m →
  ∃ m', ac_fix_load m i = Ok m' ∧
        skeleton m' = skeleton m ∧ declared N cs m'.
Proof.
  intros HPg HQg Hi Hd. unfold ac_fix_load.
  destruct (var_update_ready N cs "Pg" i (fix_ 0) m)
    as (m1 & Hm1 & Hs1 & Hd1); [done..|].
  destruct (var_update_ready N cs "Qg" i (fix_ 0) m1)
    as (m2 & Hm2 & Hs2 & Hd2); [done..|].
  exists m2. split; [|split; [congruence|done]].
  rewrite Hm1. exact Hm2.
Qed.

Lemma ac_cost_term_total N cs BUS m i :
  "Pg" ∈ cs → i < N → declared N cs m →
  (∀ key, key ∈ ["a"; "b"; "c"] → has_field BUS i key) →
  ∃ e, ac_cost_term BUS m i = Ok e.
Proof.
  intros HPg Hi Hd Hf. unfold ac_cost_term.
  destruct (Hf "a") as [a Ha]; [set_solver|]. bind_with Ha.
  bind_with (var_ref_declared N cs m "Pg" i Hd HPg Hi).
  destruct (Hf "b") as [b Hb]; [set_solver|]. bind_with Hb.
  bind_with (var_ref_declared N cs m "Pg" i Hd HPg Hi).
  destruct (Hf "c") as [c Hc]; [set_solver|]. bind_with Hc. eauto.
Qed.

Lemma ac_p_balance_rule_total G B N m i pload :
  shaped N G → shaped N B → i < N →
  declared N ["Pg"; "Qg"; "V"; "theta"] m →
  skeleton m !! "Pload" = Some (CParam pload) → is_Some (pload !! i) →
  ∃ r, ac_p_balance_rule G B N m i = Ok r.
Proof.
  intros HG HB Hi Hd Hsk [pl Hpl]. unfold ac_p_balance_rule.
  set (cs := ["Pg"; "Qg"; "V"; "theta"]) in *.
  assert ("V" ∈ cs ∧ "theta" ∈ cs ∧ "Pg" ∈ cs) as (HV & Hth & HPg)
    by (unfold cs; set_solver).
  apply bind_total.
  match goal with |- ∃ a, mapM ?f ?xs = Ok a ∧ _ =>
    destruct (mapM_total f xs) as [terms Hterms] end.
  { intros k Hk%elem_of_range.
    bind_with (var_ref_declared N cs m "V" i Hd HV Hi).
    bind_with (var_ref_declared N cs m "V" k Hd HV Hk).
    destruct (np_getitem_total N G i k HG Hi Hk) as [g Hg]. bind_with Hg.
    bind_with (var_ref_declared N cs m "theta" i Hd Hth Hi).
    bind_with (var_ref_declared N cs m "theta" k Hd Hth Hk).
    destruct (np_getitem_total N B i k HB Hi Hk) as [b Hb]. bind_with Hb.
    bind_with (var_ref_declared N cs m "theta" i Hd Hth Hi).
    bind_with (var_ref_declared N cs m "theta" k Hd Hth Hk). eauto. }
  exists terms. split; [exact Hterms|]. cbv beta iota zeta.
  bind_with (var_ref_declared N cs m "Pg" i Hd HPg Hi).
  rewrite (param_get_skeleton _ _ _ _ Hsk).
  unfold getitem. rewrite Hpl. simpl. eauto.
Qed.

Lemma ac_q_balance_rule_total G B N m i qload :
  shaped N G → shaped N B → i < N →
  declared N ["Pg"; "Qg"; "V"; "theta"] m →
  skeleton m !! "Qload" = Some (CParam qload) → is_Some (qload !! i) →
  ∃ r, ac_q_balance_rule G B N m i = Ok r.
Proof.
  intros HG HB Hi Hd Hsk [ql Hql]. unfold ac_q_balance_rule.
  set (cs := ["Pg"; "Qg"; "V"; "theta"]) in *.
  assert ("V" ∈ cs ∧ "theta" ∈ cs ∧ "Qg" ∈ cs) as (HV & Hth & HQg)
    by (unfold cs; set_solver).
  apply bind_total.
  match goal with |- ∃ a, mapM ?f ?xs = Ok a ∧ _ =>
    destruct (mapM_total f xs) as [terms Hterms] end.
  { intros k Hk%elem_of_range.
    bind_with (var_ref_declared N cs m "V" i Hd HV Hi).
    bind_with (var_ref_declared N cs m "V" k Hd HV Hk).
    destruct (np_getitem_total N G i k HG Hi Hk) as [g Hg]. bind_with Hg.
    bind_with (var_ref_declared N cs m "theta" i Hd Hth Hi).
    bind_with (var_ref_declared N cs m "theta" k Hd Hth Hk).
    destruct (np_getitem_total N B i k HB Hi Hk) as [b Hb]. bind_with Hb.
    bind_with (var_ref_declared N cs m "theta" i Hd Hth Hi).
    bind_with (var_ref_declared N cs m "theta" k Hd Hth Hk). eauto. }
  exists terms. split; [exact Hterms|]. cbv beta iota zeta.
  bind_with (var_ref_declared N cs m "Qg" i Hd HQg Hi).
  rewrite (param_get_skeleton _ _ _ _ Hsk).
  unfold getitem. rewrite Hql. simpl. eauto.
Qed.

(** With the five buses of the initializer of [m.Pg] or more, the entries
    of the bus table it reads and admittance matrices, [build_ac_model]
    returns a model. *)
Lemma build_ac_model_total N BUS lines GB :
  5 ≤ N → ac_data N BUS → build_admittance_matrices N lines = Ok GB →
  ∃ m, build_ac_model N BUS lines = Ok m.
Proof.
  intros HN5 Hdata HGB. destruct GB as [G B].
  assert (0 < N) as HN by lia.
  destruct (build_admittance_shaped N lines G B HGB) as [HG HB].
  assert (∀ i key, i < N →
            key ∈ ["PGmax"; "PGmin"; "QGmax"; "QGmin"; "Pload"; "Qload";
                   "Vmax"; "Vmin"] → has_field BUS i key) as Hf.
  { intros i key Hi. by apply (proj1 (Hdata i Hi)). }
  destruct (GEN_BUSES_total N BUS) as [gen Hgen].
  { intros i Hi. apply Hf; [done|set_solver]. }
  destruct (dict_comp_total (range N) (λ i, bus_field BUS i "Pload"))
    as [pload Hpload].
  { intros i Hi%elem_of_range. apply Hf; [done|set_solver]. }
  destruct (dict_comp_total (range N) (λ i, bus_field BUS i "Qload"))
    as [qload Hqload].
  { intros i Hi%elem_of_range. apply Hf; [done|set_solver]. }
  destruct (py_sum_total (range N) (λ i, bus_field BUS i "Pload"))
    as [total Htotal].
  { intros i Hi%elem_of_range. apply Hf; [done|set_solver]. }
  unfold build_ac_model.
  bind_with Hgen. bind_with HGB. bind_with Hpload. bind_with Hqload.
  bind_with Htotal.
  pose proof (Var_from_dict_Pg N total) as HPgc.
  rewrite decide_True in HPgc by done. bind_with HPgc.
  set (cs := ["Pg"; "Qg"; "V"; "theta"]).
  set (m0 := setattr (setattr (setattr (setattr _ "Pg" _) "Qg" _) "V" _)
                     "theta" _).
  assert (declared N cs m0) as Hd0.
  { intros c i Hc Hi%elem_of_range. unfold m0.
    repeat (apply elem_of_cons in Hc as [->|Hc];
            [rewrite !var_data_setattr;
             repeat (rewrite decide_False by done);
             rewrite (decide_True (P := _ = _)) by done;
             rewrite getitem_Var, decide_True by done; eauto|]).
    by apply elem_of_nil in Hc. }
  assert (skeleton m0 !! "Pload" = Some (CParam pload) ∧
          skeleton m0 !! "Qload" = Some (CParam qload)) as [HskP HskQ].
  { unfold m0. by rewrite !skeleton_setattr. }
  destruct (var_update_ready N cs "V" 0 (fix_ 1.06) m0)
    as (m1 & Hm1 & Hs1 & Hd1); [done|set_solver|done|].
  bind_with Hm1.
  destruct (var_update_ready N cs "theta" 0 (fix_ 0.0) m1)
    as (m2 & Hm2 & Hs2 & Hd2); [done|set_solver|done|].
  bind_with Hm2.
  destruct (for_each_total_inv
              (λ m, skeleton m = skeleton m0 ∧ declared N cs m)
              (LOAD_BUSES N gen) ac_fix_load m2)
    as (m3 & Hm3 & Hs3 & Hd3); [|split; [congruence|done]|].
  { intros m i [Hi _]%elem_of_LOAD_BUSES [Hs Hd].
    destruct (ac_fix_load_total N cs m i) as (m' & ? & ? & ?);
      [set_solver|set_solver|done..|].
    exists m'. split; [done|]. split; [congruence|done]. }
  bind_with Hm3.
  destruct (for_each_total_inv
              (λ m, skeleton m = skeleton m0 ∧ declared N cs m)
              (range N) (ac_set_bounds BUS) m3)
    as (m4 & Hm4 & Hs4 & Hd4); [|done|].
  { intros m i Hi%elem_of_range [Hs Hd].
    destruct (ac_set_bounds_total N cs BUS m i) as (m' & ? & ? & ?);
      [|done..|].
    { intros key Hkey. apply Hf; [done|]. revert Hkey.
      rewrite !elem_of_cons, !elem_of_nil. tauto. }
    exists m'. split; [done|]. split; [congruence|done]. }
  bind_with Hm4.
  destruct (mapM_total (ac_cost_term BUS m4) gen) as [cost Hcost].
  { intros i Hi. destruct (generator_GEN_BUSES N BUS gen i Hgen Hi) as [HiN Hg].
    apply (ac_cost_term_total N cs); [set_solver|done..|].
    by apply (proj2 (Hdata i HiN)). }
  bind_with Hcost.
  set (m5 := setattr m4 "obj" _).
  assert (("obj" ∉ cs) ∧ ("p_balance" ∉ cs)) as [Hobj_cs Hpb_cs].
  { unfold cs. rewrite !not_elem_of_cons.
    repeat split; try done; apply not_elem_of_nil. }
  assert (declared N cs m5) as Hd5 by by apply declared_setattr.
  destruct (Constraint_total (range N) (ac_p_balance_rule G B N m5))
    as [pb Hpb].
  { intros i Hi%elem_of_range.
    apply (ac_p_balance_rule_total G B N _ i pload); try done.
    - unfold m5. rewrite skeleton_setattr, lookup_insert_ne by done.
      by rewrite Hs4.
    - destruct (dict_comp_each_Ok _ _ _ Hpload i) as (v & _ & ->);
        [by apply elem_of_range|done]. }
  bind_with Hpb.
  destruct (Constraint_total (range N)
              (ac_q_balance_rule G B N (setattr m5 "p_balance" (CConstraint pb))))
    as [qb Hqb].
  { intros i Hi%elem_of_range.
    apply (ac_q_balance_rule_total G B N _ i qload); try done.
    - by apply declared_setattr.
    - unfold m5. rewrite !skeleton_setattr, !lookup_insert_ne by done.
      by rewrite Hs4.
    - destruct (dict_comp_each_Ok _ _ _ Hqload i) as (v & _ & ->);
        [by apply elem_of_range|done]. }
  bind_with Hqb. eauto.
Qed.

Lemma ac_cost_term_Ok BUS m i e :
  ac_cost_term BUS m i = Ok e →
  (∀ key, key ∈ ["a"; "b"; "c"] → has_field BUS i key) ∧
  e = ac_cost_expr BUS i.
Proof.
  unfold ac_cost_term. intros H.
  inv_bind H as a Ha. inv_bind H as Pg HPg. inv_bind H as b Hb.
  inv_bind H as Pg' HPg'. inv_bind H as c Hc. injection H as <-.
  apply var_ref_Ok in HPg as ->. apply var_ref_Ok in HPg' as ->.
  split.
  - intros key Hkey. unfold has_field.
    repeat (apply elem_of_cons in Hkey as [->|Hkey]; [eauto|]).
    by apply elem_of_nil in Hkey.
  - unfold ac_cost_expr.
    by rewrite (bus_field_field _ _ _ _ Ha), (bus_field_field _ _ _ _ Hb),
      (bus_field_field _ _ _ _ Hc).
Qed.

Lemma mapM_each_Ok {A B : Type} (f : A → result B) (xs : list A) (ys : list B) :
  mapM f xs = Ok ys → ∀ x, x ∈ xs → ∃ y, f x = Ok y.
Proof.
  intros H%mapM_Ok x Hx. apply list_elem_of_lookup in Hx as [k Hk].
  destruct (Forall2_lookup_l _ _ _ _ _ H Hk) as (y & _ & Hy). eauto.
Qed.

(** The objective of the AC model, read off [build_ac_model]. *)
Lemma build_ac_model_cost N BUS lines m :
  build_ac_model N BUS lines = Ok m →
  ∃ gen,
    GEN_BUSES N BUS = Ok gen ∧
    (∀ i key, i ∈ gen → key ∈ ["a"; "b"; "c"] → has_field BUS i key) ∧
    components m !! "obj"
    = Some (CObjective (sum_expr (ac_cost_expr BUS <$> gen)) minimize).
Proof.
  unfold build_ac_model. intros H.
  inv_bind H as gen Hgen. inv_bind H as GB HGB. destruct GB as [G B].
  cbv beta iota zeta in H.
  inv_bind H as pload Hpload. inv_bind H as qload Hqload.
  inv_bind H as total Htotal.
  inv_bind H as Pgc HPgc. apply Var_from_dict_Ok in HPgc as [-> _].
  inv_bind H as m1 Hm1. inv_bind H as m2 Hm2. inv_bind H as m3 Hm3.
  inv_bind H as m4 Hm4. inv_bind H as cost Hcost.
  inv_bind H as pbc Hpb. inv_bind H as qbc Hqb.
  injection H as <-.
  exists gen. split; [done|]. split.
  - intros i key Hi.
    destruct (mapM_each_Ok _ _ _ Hcost i Hi) as [e He].
    by apply (proj1 (ac_cost_term_Ok _ _ _ _ He)).
  - assert (cost = ac_cost_expr BUS <$> gen) as ->.
    { apply (mapM_fmap (ac_cost_term BUS m4)); [|done].
      intros x y _ Hy. by apply (ac_cost_term_Ok _ _ _ _ Hy). }
    simpl. by rewrite !lookup_insert_ne, lookup_insert_eq by done.
Qed.

Lemma generator_in_GEN_BUSES N BUS gen i :
  GEN_BUSES N BUS = Ok gen → i < N → has_field BUS i "PGmax" →
  generator BUS i → i ∈ gen.
Proof.
  intros Hgen Hi Hf%has_field_field Hg.
  apply (GEN_BUSES_Ok N BUS gen Hgen). split; [done|]. eauto.
Qed.

Lemma build_dc_model_data N BUS lines m :
  build_dc_model N BUS lines = Ok m →
  0 < N ∧ dc_data N BUS ∧ ∃ GB, build_admittance_matrices N lines = Ok GB.
Proof.
  intros H.
  destruct (build_dc_model_vars N BUS lines m H)
    as (gen & Hgen & HN & Hf & _).
  destruct (build_dc_model_inv N BUS lines m H)
    as (gen' & G & B & pload & cost & pb & m3 & Hgen' & HGB & Hpload & Hcost & _).
  rewrite Hgen in Hgen'. injection Hgen' as <-.
  split; [done|]. split; [|eauto].
  intros i Hi. destruct (Hf i Hi) as [Hmin Hmax].
  split; [done|]. split; [done|]. split.
  - destruct (dict_comp_each_Ok _ _ _ Hpload i) as (v & Hv & _);
      [by apply elem_of_range|by exists v].
  - intros Hg.
    pose proof (generator_in_GEN_BUSES N BUS gen i Hgen Hi Hmax Hg) as Hig.
    destruct (mapM_each_Ok _ _ _ Hcost i Hig) as [e He].
    apply dc_cost_term_Ok in He as [Hb _]. by eexists.
Qed.

Lemma build_ac_model_data N BUS lines m :
  build_ac_model N BUS lines = Ok m →
  0 < N ∧ ac_data N BUS ∧ ∃ GB, build_admittance_matrices N lines = Ok GB.
Proof.
  intros H.
  destruct (build_ac_model_vars N BUS lines m H)
    as (gen & total & Hgen & _ & HN & Hf & _).
  destruct (build_ac_model_inv N BUS lines m H)
    as (gen' & G & B & pload & qload & cost & pb & qb & m4 & Hgen' & HGB
        & Hpload & Hqload & _).
  rewrite Hgen in Hgen'. injection Hgen' as <-.
  destruct (build_ac_model_cost N BUS lines m H) as (gen' & Hgen' & Habc & _).
  rewrite Hgen in Hgen'. injection Hgen' as <-.
  split; [done|]. split; [|eauto].
  intros i Hi. split.
  - intros key Hkey.
    assert (key ∈ ["PGmin"; "PGmax"; "QGmin"; "QGmax"; "Vmin"; "Vmax"] ∨
            key = "Pload" ∨ key = "Qload") as [Hk|[->| ->]].
    { rewrite !elem_of_cons, elem_of_nil in Hkey.
      rewrite !elem_of_cons, elem_of_nil. tauto. }
    + by apply Hf.
    + destruct (dict_comp_each_Ok _ _ _ Hpload i) as (v & Hv & _);
        [by apply elem_of_range|by exists v].
    + destruct (dict_comp_each_Ok _ _ _ Hqload i) as (v & Hv & _);
        [by apply elem_of_range|by exists v].
  - intros Hg key Hkey. apply Habc; [|done].
    apply (generator_in_GEN_BUSES N BUS gen i Hgen Hi); [|done].
    apply Hf; [done|]. rewrite !elem_of_cons. tauto.
Qed.

(** The initializer of [m.Pg] names the buses 0 to 4: a model has five
    buses or more, and with fewer buses the construction of [m.Pg] raises
    [KeyError] once the parameters are built. *)
Lemma build_ac_model_five_buses N BUS lines m :
  build_ac_model N BUS lines = Ok m → 5 ≤ N.
Proof.
  unfold build_ac_model. intros H.
  inv_bind H as gen Hgen. inv_bind H as GB HGB. destruct GB as [G B].
  cbv beta iota zeta in H.
  inv_bind H as pload Hpload. inv_bind H as qload Hqload.
  inv_bind H as total Htotal. inv_bind H as Pgc HPgc.
  rewrite Var_from_dict_Pg in HPgc. by case_decide.
Qed.

Lemma build_ac_model_few_buses N BUS lines GB :
  N < 5 → ac_data N BUS → build_admittance_matrices N lines = Ok GB →
  build_ac_model N BUS lines = Raise KeyError.
Proof.
  intros HN Hdata HGB. destruct GB as [G B].
  assert (∀ i key, i < N → key ∈ ["PGmax"; "Pload"; "Qload"] →
                   has_field BUS i key) as Hf.
  { intros i key Hi Hkey. apply (proj1 (Hdata i Hi)). revert Hkey.
    rewrite !elem_of_cons, !elem_of_nil. tauto. }
  destruct (GEN_BUSES_total N BUS) as [gen Hgen].
  { intros i Hi. apply Hf; [done|]. rewrite !elem_of_cons. tauto. }
  destruct (dict_comp_total (range N) (λ i, bus_field BUS i "Pload"))
    as [pload Hpload].
  { intros i Hi%elem_of_range. apply Hf; [done|]. rewrite !elem_of_cons. tauto. }
  destruct (dict_comp_total (range N) (λ i, bus_field BUS i "Qload"))
    as [qload Hqload].
  { intros i Hi%elem_of_range. apply Hf; [done|]. rewrite !elem_of_cons. tauto. }
  destruct (py_sum_total (range N) (λ i, bus_field BUS i "Pload"))
    as [total Htotal].
  { intros i Hi%elem_of_range. apply Hf; [done|]. rewrite !elem_of_cons. tauto. }
  unfold build_ac_model.
  rewrite Hgen. cbn [mbind result_bind]. rewrite HGB. cbn [mbind result_bind].
  rewrite Hpload. cbn [mbind result_bind]. rewrite Hqload.
  cbn [mbind result_bind]. rewrite Htotal. cbn [mbind result_bind].
  rewrite Var_from_dict_Pg, decide_False by lia. done.
Qed.

Lemma ac_data_dc_data N BUS : ac_data N BUS → dc_data N BUS.
Proof.
  intros H i Hi. destruct (H i Hi) as [Hf Hg].
  split; [apply Hf; rewrite !elem_of_cons; tauto|].
  split; [apply Hf; rewrite !elem_of_cons; tauto|].
  split; [apply Hf; rewrite !elem_of_cons; tauto|].
  intros Hgen. apply Hg; [done|]. rewrite !elem_of_cons; tauto.
Qed.

Lemma build_ac_then_dc N BUS lines m :
  build_ac_model N BUS lines = Ok m → ∃ m', build_dc_model N BUS lines = Ok m'.
Proof.
  intros (HN & Hdata & GB & HGB)%build_ac_model_data.
  by apply (build_dc_model_total N BUS lines GB HN (ac_data_dc_data _ _ Hdata)).
Qed.

(** X10. [build_dc_model] returns a model exactly when there is at least
    one bus, the bus table has the entries [PGmax], [PGmin] and [Pload] of
    every bus and the entry [b] of every generator bus, and the admittance
    builder returns. Nothing else is read: the other columns of the bus
    table can be missing. Without buses the builder raises ([KeyError] at
    [theta[0]] when there are no lines). *)
Theorem X10_dc_model_exists (N : nat) (BUS : bus_table)
    (lines : list (line float)) :
  ((∃ m, build_dc_model N BUS lines = Ok m)
   ↔ 0 < N ∧ dc_data N BUS ∧
     ∃ GB, build_admittance_matrices N lines = Ok GB)
  ∧ build_dc_model 0 BUS [] = Raise KeyError.
Proof.
  split; [split|done].
  - intros [m H]. by apply (build_dc_model_data N BUS lines m).
  - intros (HN & Hdata & GB & HGB).
    by apply (build_dc_model_total N BUS lines GB).
Qed.

Lemma X10_witness : ∃ m, build_dc_model N_BUS BUS_DATA LINE_DATA = Ok m.
Proof.
  apply (proj1 (X10_dc_model_exists N_BUS BUS_DATA LINE_DATA)).
  split; [unfold N_BUS; lia|]. split.
  - intros i Hi. unfold N_BUS in Hi.
    do 5 (destruct i as [|i];
          [repeat split; try intros _; eexists; by vm_compute|]).
    lia.
  - eexists. by vm_compute.
Defined.

(** X11. [build_ac_model] returns a model exactly when there are at least
    five buses, the bus table has the eight entries of every bus that the
    parameters and bounds read and the cost coefficients [a], [b], [c] of
    every generator bus, and the admittance builder returns. Five, because
    the initializer of [m.Pg] is a dictionary with the keys 0 to 4 and
    every key has to be a bus: with fewer buses, a bus table that has these
    entries and lines the admittance builder accepts, the construction of
    [m.Pg] raises [KeyError]; so it does without buses and lines. *)
Theorem X11_ac_model_exists (N : nat) (BUS : bus_table)
    (lines : list (line float)) :
  ((∃ m, build_ac_model N BUS lines = Ok m)
   ↔ 5 ≤ N ∧ ac_data N BUS ∧
     ∃ GB, build_admittance_matrices N lines = Ok GB)
  ∧ (N < 5 → ac_data N BUS →
     (∃ GB, build_admittance_matrices N lines = Ok GB) →
     build_ac_model N BUS lines = Raise KeyError)
  ∧ build_ac_model 0 BUS [] = Raise KeyError.
Proof.
  split; [split|split; [|done]].
  - intros [m H]. split; [by apply (build_ac_model_five_buses N BUS lines m)|].
    by apply (build_ac_model_data N BUS lines m).
  - intros (HN & Hdata & GB & HGB).
    by apply (build_ac_model_total N BUS lines GB).
  - intros HN Hdata [GB HGB].
    by apply (build_ac_model_few_buses N BUS lines GB).
Qed.

Lemma X11_witness :
  (∃ m, build_ac_model N_BUS BUS_DATA LINE_DATA = Ok m) ∧
  build_ac_model 4 BUS_DATA [Line 0 1 0.02 0.06] = Raise KeyError.
Proof.
  split.
  - apply (proj1 (X11_ac_model_exists N_BUS BUS_DATA LINE_DATA)).
    split; [unfold N_BUS; lia|]. split.
    + intros i Hi. unfold N_BUS in Hi.
      do 5 (destruct i as [|i];
            [split; [|intros _]; intros key Hkey;
             repeat (apply elem_of_cons in Hkey as [->|Hkey];
                     [eexists; by vm_compute|]);
             by apply elem_of_nil in Hkey|]).
      lia.
    + eexists. by vm_compute.
  - destruct (X11_ac_model_exists 4 BUS_DATA [Line 0 1 0.02 0.06])
      as (_ & Hfew & _).
    apply Hfew; [lia| |eexists; by vm_compute].
    intros i Hi.
    do 4 (destruct i as [|i];
          [split; [|intros _]; intros key Hkey;
           repeat (apply elem_of_cons in Hkey as [->|Hkey];
                   [eexists; by vm_compute|]);
           by apply elem_of_nil in Hkey|]).
    lia.
Defined.

(** X12. Whenever [build_ac_model] returns a model, [build_dc_model]
    returns one on the same data: the DC model reads a part of what the AC
    model reads. *)
Theorem X12_ac_model_then_dc_model (N : nat) (BUS : bus_table)
    (lines : list (line float)) (m : model) :
  build_ac_model N BUS lines = Ok m →
  ∃ m', build_dc_model N BUS lines = Ok m'.
Proof. apply build_ac_then_dc. Qed.

Lemma X12_witness : ∃ m', build_dc_model N_BUS BUS_DATA LINE_DATA = Ok m'.
Proof.
  destruct (build_ac_model N_BUS BUS_DATA LINE_DATA) as [m|] eqn:E;
    [|by vm_compute in E].
  exact (X12_ac_model_then_dc_model N_BUS BUS_DATA LINE_DATA m E).
Defined.

(** ** The objective of the AC model *)

Section QuadraticCost.
Variables (cos sin : float → float).
Variable val : string → nat → result float.
Variable BUS : bus_table.

Lemma pyo_value_foldl_EAdd_Raise acc ts e :
  pyo_value cos sin val acc = Raise e →
  pyo_value cos sin val (foldl EAdd acc ts) = Raise e.
Proof.
  revert acc. induction ts as [|t ts IH]; intros acc H; simpl; [done|].
  apply IH. simpl. by rewrite H.
Qed.

(** The quadratic cost cannot be evaluated when the [Pg] of one of its
    buses cannot. *)
Lemma pyo_value_ac_cost_missing (gen : list nat) (k : nat) e0 :
  k ∈ gen → val "Pg" k = Raise e0 →
  ∀ acc, ∃ e,
    pyo_value cos sin val (foldl EAdd acc (ac_cost_expr BUS <$> gen)) = Raise e.
Proof.
  induction gen as [|i gen IH]; intros Hk Hmiss acc.
  { by apply elem_of_nil in Hk. }
  rewrite fmap_cons. cbn [foldl].
  destruct (pyo_value cos sin val (EAdd acc (ac_cost_expr BUS i)))
    as [v|e] eqn:Hv.
  - apply elem_of_cons in Hk as [->|Hk]; [|by apply IH].
    exfalso. simpl in Hv.
    destruct (pyo_value cos sin val acc); simpl in Hv; [|done].
    by rewrite Hmiss in Hv.
  - exists e. by apply pyo_value_foldl_EAdd_Raise.
Qed.

Lemma pyo_value_linear (gen : list nat) (b Pg : nat → float) :
  (∀ i, i ∈ gen → val "Pg" i = Ok (Pg i)) →
  ∀ acc a0,
    pyo_value cos sin val acc = Ok a0 →
    pyo_value cos sin val
      (foldl EAdd acc ((λ i, EMul (ENum (b i)) (EVar "Pg" i)) <$> gen))
    = Ok (foldl (λ acc i, acc + b i * Pg i)%float a0 gen).
Proof.
  induction gen as [|i gen IH]; intros Hval acc a0 Hacc; [done|].
  rewrite fmap_cons. cbn [foldl]. apply IH.
  - intros k Hk. apply Hval. by right.
  - simpl. by rewrite Hacc, Hval by left.
Qed.

(** A cost whose variables all have a value or none, one of them none:
    evaluating it raises [ValueError]. *)
Lemma pyo_value_cost_missing (term : nat → expr) (gen : list nat) :
  (∀ i, i ∈ gen →
     (val "Pg" i = Raise ValueError →
      pyo_value cos sin val (term i) = Raise ValueError) ∧
     ((∃ v, val "Pg" i = Ok v) →
      ∃ w, pyo_value cos sin val (term i) = Ok w)) →
  (∀ i, i ∈ gen → val "Pg" i = Raise ValueError ∨ ∃ v, val "Pg" i = Ok v) →
  (∃ i, i ∈ gen ∧ val "Pg" i = Raise ValueError) →
  ∀ acc a0,
    pyo_value cos sin val acc = Ok a0 →
    pyo_value cos sin val (foldl EAdd acc (term <$> gen)) = Raise ValueError.
Proof.
  induction gen as [|i gen IH]; intros Hterm Hval (k & Hk & Hmiss) acc a0 Hacc.
  { by apply elem_of_nil in Hk. }
  rewrite fmap_cons. cbn [foldl].
  destruct (Hval i) as [Hi|Hi]; [by left|..].
  - apply pyo_value_foldl_EAdd_Raise. simpl. rewrite Hacc. simpl.
    by rewrite (proj1 (Hterm i ltac:(by left)) Hi).
  - destruct (proj2 (Hterm i ltac:(by left)) Hi) as [w Hw].
    apply elem_of_cons in Hk as [->|Hk].
    { destruct Hi as [v Hv]. by rewrite Hv in Hmiss. }
    apply (IH (λ j Hj, Hterm j ltac:(by right))
              (λ j Hj, Hval j ltac:(by right))
              (ex_intro _ k (conj Hk Hmiss)) _ (a0 + w)%float).
    simpl. by rewrite Hacc, Hw.
Qed.
End QuadraticCost.

Lemma constants_ac_cost BUS (gen : list nat) acc :
  constants (foldl EAdd acc (ac_cost_expr BUS <$> gen))
  = constants acc
      ++ (gen ≫= λ i, [field BUS i "a"; field BUS i "b"; field BUS i "c"]).
Proof.
  revert acc. induction gen as [|i gen IH]; intros acc.
  - simpl. by rewrite app_nil_r.
  - rewrite fmap_cons. cbn [foldl]. rewrite IH. simpl.
    by rewrite <- app_assoc.
Qed.

Lemma variables_ac_cost BUS (gen : list nat) acc :
  variables (foldl EAdd acc (ac_cost_expr BUS <$> gen))
  = variables acc ++ (gen ≫= λ i, [("Pg", i); ("Pg", i)]).
Proof.
  revert acc. induction gen as [|i gen IH]; intros acc.
  - simpl. by rewrite app_nil_r.
  - rewrite fmap_cons. cbn [foldl]. rewrite IH. simpl.
    by rewrite <- app_assoc.
Qed.

(** X13. The objective of the AC model is the quadratic generation cost,
    to be minimized: the sum over the generator buses, in increasing order
    and starting from 0, of the expression [a*Pg[i]**2 + b*Pg[i] + c] with
    the coefficients of the bus table, which has them for every generator
    bus. The only numbers in it are these coefficients (and the 0 the sum
    starts from), the only variables the [Pg] of the generator buses, each
    of them twice, and a bus table that differs in other entries than [a],
    [b], [c] and [PGmax] gives the same objective. *)
Theorem X13_ac_objective (N : nat) (BUS : bus_table)
    (lines : list (line float)) (m : model) :
  build_ac_model N BUS lines = Ok m →
  ∃ gen obj,
    GEN_BUSES N BUS = Ok gen ∧
    components m !! "obj" = Some (CObjective obj minimize) ∧
    obj = sum_expr (ac_cost_expr BUS <$> gen) ∧
    (∀ i key, i ∈ gen → key ∈ ["a"; "b"; "c"] →
              bus_field BUS i key = Ok (field BUS i key)) ∧
    constants obj
    = 0%float
        :: (gen ≫= λ i, [field BUS i "a"; field BUS i "b"; field BUS i "c"]) ∧
    variables obj = (gen ≫= λ i, [("Pg", i); ("Pg", i)]) ∧
    (∀ BUS' m',
       (∀ i key, key ∈ ["a"; "b"; "c"; "PGmax"] →
                 bus_field BUS' i key = bus_field BUS i key) →
       build_ac_model N BUS' lines = Ok m' →
       components m' !! "obj" = Some (CObjective obj minimize)).
Proof.
  intros (gen & Hgen & Habc & Hobj)%build_ac_model_cost.
  exists gen, (sum_expr (ac_cost_expr BUS <$> gen)).
  split; [done|]. split; [done|]. split; [done|]. split; [|split; [|split]].
  - intros i key Hi Hkey. by apply has_field_field, Habc.
  - unfold sum_expr. by rewrite constants_ac_cost.
  - unfold sum_expr. by rewrite variables_ac_cost.
  - intros BUS' m' Hsame (gen' & Hgen' & _ & Hobj')%build_ac_model_cost.
    assert (gen' = gen) as ->.
    { unfold GEN_BUSES in Hgen, Hgen'.
      rewrite (filterM_ext _ (λ i, pgmax ← bus_field BUS i "PGmax";
                                   Ok (0 <? pgmax)%float)) in Hgen'.
      - congruence.
      - intros i. rewrite Hsame; [done|]. rewrite !elem_of_cons. tauto. }
    rewrite Hobj'. do 3 f_equal. apply list_fmap_ext. intros _ i _.
    unfold ac_cost_expr, field.
    by rewrite !Hsame by (rewrite !elem_of_cons; tauto).
Qed.

Lemma X13_witness :
  ∃ m obj,
    build_ac_model N_BUS BUS_DATA LINE_DATA = Ok m ∧
    components m !! "obj" = Some (CObjective obj minimize) ∧
    variables obj
    = [("Pg", 0); ("Pg", 0); ("Pg", 1); ("Pg", 1); ("Pg", 2); ("Pg", 2)].
Proof.
  destruct (build_ac_model N_BUS BUS_DATA LINE_DATA) as [m|] eqn:E;
    [|by vm_compute in E].
  destruct (X13_ac_objective N_BUS BUS_DATA LINE_DATA m E)
    as (gen & obj & Hgen & Hobj & _ & _ & _ & Hvars & _).
  exists m, obj. split; [reflexivity|]. split; [exact Hobj|].
  rewrite Hvars. vm_compute in Hgen. by injection Hgen as <-.
Defined.

(** ** Generator buses and load buses *)

Lemma filterM_sublist {A : Type} (p : A → result bool) (xs ys : list A) :
  filterM p xs = Ok ys → ys `sublist_of` xs.
Proof.
  revert ys. induction xs as [|x xs IH]; intros ys; simpl.
  - by intros [= <-].
  - intros H. inv_bind H as b Hb. inv_bind H as r Hr. injection H as <-.
    destruct b; [apply sublist_skip|apply sublist_cons]; by apply IH.
Qed.

Lemma filterM_Raise {A : Type} (p : A → result bool) (xs : list A) e :
  filterM p xs = Raise e → ∃ x, x ∈ xs ∧ p x = Raise e.
Proof.
  induction xs as [|x xs IH]; simpl; [done|].
  destruct (p x) as [b|e'] eqn:Hp; simpl.
  - destruct (filterM p xs) as [r|e'']; simpl; [done|].
    intros [= ->]. destruct IH as (y & Hy & Hpy); [done|].
    exists y. split; [by right|done].
  - intros [= ->]. exists x. split; [by left|done].
Qed.

Lemma bus_field_Raise BUS i key e :
  bus_field BUS i key = Raise e → e = KeyError.
Proof.
  unfold bus_field, getitem.
  destruct (BUS !! i) as [row|]; simpl; [|by intros [= <-]].
  destruct (row !! key); by intros [= <-].
Qed.

(** X14. The two derived bus lists split the buses: [GEN_BUSES] and
    [LOAD_BUSES] each list buses of [range(N_BUS)] in increasing order and
    without repetition, no bus is in both, and together they are all the
    buses. The comprehension of [GEN_BUSES] needs the entry [PGmax] of
    every bus, generator or not, and raises [KeyError] when one is
    missing. *)
Theorem X14_bus_lists (N : nat) (BUS : bus_table) :
  (∀ gen, GEN_BUSES N BUS = Ok gen →
     gen `sublist_of` range N ∧
     LOAD_BUSES N gen `sublist_of` range N ∧
     (∀ i, i ∈ gen → i ∉ LOAD_BUSES N gen) ∧
     gen ++ LOAD_BUSES N gen ≡ₚ range N)
  ∧ ((∃ gen, GEN_BUSES N BUS = Ok gen)
     ↔ ∀ i, i < N → has_field BUS i "PGmax")
  ∧ (∀ e, GEN_BUSES N BUS = Raise e → e = KeyError).
Proof.
  split; [|split].
  - intros gen Hgen.
    pose proof (filterM_sublist _ _ _ Hgen) as Hsub.
    assert (LOAD_BUSES N gen `sublist_of` range N) as Hsub'
      by apply sublist_filter.
    assert (NoDup (range N)) as Hnd by apply NoDup_seq.
    split; [done|]. split; [done|]. split.
    + intros i Hi [_ Hl]%elem_of_LOAD_BUSES. done.
    + apply NoDup_Permutation; [|done|].
      * apply NoDup_app. split; [by apply (sublist_NoDup _ (range N))|].
        split; [|by apply (sublist_NoDup _ (range N))].
        intros i Hi [_ Hl]%elem_of_LOAD_BUSES. done.
      * intros i. rewrite elem_of_app, elem_of_LOAD_BUSES, elem_of_range.
        pose proof (proj1 (GEN_BUSES_Ok N BUS gen Hgen i)) as Hg.
        destruct (decide (i ∈ gen)); [|tauto].
        split; [|tauto]. intros _. by apply Hg.
  - split.
    + intros [gen Hgen] i Hi.
      destruct (filterM_Ok _ _ _ Hgen) as [_ Hall].
      apply elem_of_range in Hi.
      destruct (proj1 (Forall_forall _ _) Hall i Hi) as [b Hb].
      inv_bind Hb as v Hv. by exists v.
    + apply GEN_BUSES_total.
  - intros e (i & _ & Hi)%filterM_Raise.
    destruct (bus_field BUS i "PGmax") as [v|e'] eqn:Hf; [done|].
    simpl in Hi. injection Hi as <-. by apply (bus_field_Raise _ _ _ _ Hf).
Qed.

Lemma X14_witness :
  GEN_BUSES N_BUS BUS_DATA = Ok [0; 1; 2] ∧
  LOAD_BUSES N_BUS [0; 1; 2] = [3; 4] ∧
  [0; 1; 2] ++ LOAD_BUSES N_BUS [0; 1; 2] ≡ₚ range N_BUS.
Proof.
  assert (GEN_BUSES N_BUS BUS_DATA = Ok [0; 1; 2]) as H by by vm_compute.
  split; [exact H|]. split; [by vm_compute|].
  apply (proj1 (X14_bus_lists N_BUS BUS_DATA) [0; 1; 2] H).
Defined.

(** ** [print_results] on the models the builders return *)

Lemma io_for_rows {A : Type} (body : A → io unit) (rows : A → event)
    (xs : list A) :
  (∀ x, x ∈ xs → body x = ([rows x], Ok tt)) →
  io_for xs (λ _ x, body x) tt = (rows <$> xs, Ok tt).
Proof.
  induction xs as [|x xs IH]; intros Hx; [done|].
  simpl io_for. unfold mbind, io_bind. rewrite (Hx x) by left.
  cbn [fst snd]. rewrite IH; [done|]. intros y Hy. apply Hx. by right.
Qed.

Lemma iter_set_components m a xs :
  components m !! a = Some (CSet xs) → iter_set m a = Ok xs.
Proof. intros H. unfold iter_set, getattr. by rewrite H. Qed.

Lemma objective_value_components cos sin m a e s :
  components m !! a = Some (CObjective e s) →
  objective_value cos sin m a = pyo_value cos sin (model_val m) e.
Proof. intros H. unfold objective_value, getattr. by rewrite H. Qed.

(** [print_results] when every row prints: the header, the rows, and
    then the cost unless [pyo.value] raises. *)
Lemma print_results_outcome cos sin m ac buses (rows : nat → event) :
  iter_set m "buses" = Ok buses →
  (∀ i, i ∈ buses → print_results_row m ac i = ([rows i], Ok tt)) →
  print_results cos sin m ac
  = match objective_value cos sin m "obj" with
    | Ok cost =>
        (results_header ac ++ (rows <$> buses) ++ [cost_line cost], Ok cost)
    | Raise e => (results_header ac ++ (rows <$> buses), Raise e)
    end.
Proof.
  intros Hb Hrows.
  unfold print_results, mbind, io_bind, lift, print, mret, io_ret.
  cbn [fst snd]. rewrite Hb. cbn [fst snd].
  rewrite (io_for_rows (print_results_row m ac) rows buses Hrows).
  cbn [fst snd].
  destruct (objective_value cos sin m "obj") as [cost|e]; cbn [fst snd].
  - unfold results_header, cost_line. destruct ac; simpl;
      by rewrite ?app_nil_r, <- ?app_assoc.
  - unfold results_header. destruct ac; simpl; by rewrite ?app_nil_r.
Qed.

(** [print_results] when the first row raises: the header only. *)
Lemma print_results_first_row_raises cos sin m ac i buses e :
  iter_set m "buses" = Ok (i :: buses) →
  print_results_row m ac i = ([], Raise e) →
  print_results cos sin m ac = (results_header ac, Raise e).
Proof.
  intros Hb Hrow.
  unfold print_results, mbind, io_bind, lift, print, mret, io_ret.
  cbn [fst snd]. rewrite Hb. cbn [fst snd io_for].
  unfold mbind, io_bind. rewrite Hrow. cbn [fst snd].
  unfold results_header. destruct ac; simpl; by rewrite ?app_nil_r.
Qed.

Lemma shown_Pg_load N gen (sol : solution) c i vd :
  i < N → fixed vd = bool_decide (i ∈ LOAD_BUSES N gen) →
  (fixed vd = true → value vd = Some 0%float) →
  or_zero (value (load_var (sol c i) vd)) = shown_Pg gen sol c i.
Proof.
  intros Hi Hf Hv. unfold load_var, shown_Pg.
  destruct (fixed vd) eqn:E.
  - rewrite Hv by done. symmetry in Hf.
    apply bool_decide_eq_true_1, elem_of_LOAD_BUSES in Hf as [_ Hf].
    by rewrite decide_False.
  - symmetry in Hf. apply bool_decide_eq_false_1 in Hf.
    rewrite elem_of_LOAD_BUSES in Hf.
    rewrite decide_True; [done|]. destruct (decide (i ∈ gen)); tauto.
Qed.

Lemma shown_theta_load (sol : solution) i vd :
  fixed vd = bool_decide (i = 0) →
  (fixed vd = true → value vd = Some 0%float) →
  or_zero (np_degrees <$> value (load_var (sol "theta" i) vd))
  = shown_theta sol i.
Proof.
  intros Hf Hv. unfold load_var, shown_theta.
  destruct (fixed vd) eqn:E.
  - rewrite Hv by done. symmetry in Hf. apply bool_decide_eq_true_1 in Hf.
    rewrite decide_True by done. apply np_degrees_0.
  - symmetry in Hf. apply bool_decide_eq_false_1 in Hf.
    by rewrite decide_False.
Qed.

Lemma shown_V_load (sol : solution) i vd :
  fixed vd = bool_decide (i = 0) →
  (fixed vd = true → value vd = Some 1.06%float) →
  or_zero (value (load_var (sol "V" i) vd)) = shown_V sol i.
Proof.
  intros Hf Hv. unfold load_var, shown_V.
  destruct (fixed vd) eqn:E.
  - rewrite Hv by done. symmetry in Hf. apply bool_decide_eq_true_1 in Hf.
    by rewrite decide_True.
  - symmetry in Hf. apply bool_decide_eq_false_1 in Hf.
    by rewrite decide_False.
Qed.

(** The value of a free variable after the solve is the solver's. *)
Lemma model_val_load_free N gen (sol : solution) m c i vd :
  var_data m c i = Ok vd → fixed vd = bool_decide (i ∈ LOAD_BUSES N gen) →
  i ∈ gen →
  model_val (load_solution sol m) c i
  = match sol c i with Some v => Ok v | None => Raise ValueError end.
Proof.
  intros Hvd Hf Hi. unfold model_val.
  rewrite var_data_load_solution, Hvd. simpl. unfold load_var.
  rewrite Hf, bool_decide_eq_false_2; [done|].
  rewrite elem_of_LOAD_BUSES. tauto.
Qed.

Lemma build_dc_model_objective N BUS lines m :
  build_dc_model N BUS lines = Ok m →
  ∃ gen,
    GEN_BUSES N BUS = Ok gen ∧
    components m !! "obj"
    = Some (CObjective
              (sum_expr ((λ i, EMul (ENum (cost_b BUS i)) (EVar "Pg" i)) <$> gen))
              minimize).
Proof.
  intros (gen & G & B & pload & cost & pb & m3 & Hgen & HGB & Hpload & Hcost
          & Hpb & Hsk3 & Hsk & Hfix)%build_dc_model_inv.
  assert (cost = (λ i, EMul (ENum (cost_b BUS i)) (EVar "Pg" i)) <$> gen)
    as ->.
  { apply (mapM_fmap (dc_cost_term BUS m3)); [|done].
    intros i e _ He. by apply dc_cost_term_Ok in He as [_ ->]. }
  exists gen. split; [done|].
  apply skeleton_lookup_static; [|done]. by rewrite Hsk.
Qed.

Lemma dc_report_loaded (N : nat) (BUS : bus_table) (lines : list (line float))
    (m : model) (sol : solution) (cos sin : float → float) :
  build_dc_model N BUS lines = Ok m →
  ∃ gen,
    GEN_BUSES N BUS = Ok gen ∧
    ((∀ i, i ∈ gen → is_Some (sol "Pg" i)) →
     print_results cos sin (load_solution sol m) false
     = (results_header false ++ (report_row false gen sol <$> range N)
          ++ [cost_line (linear_cost gen (cost_b BUS)
                           (λ i, or_zero (sol "Pg" i)))],
        Ok (linear_cost gen (cost_b BUS) (λ i, or_zero (sol "Pg" i))))) ∧
    ((∃ i, i ∈ gen ∧ sol "Pg" i = None) →
     print_results cos sin (load_solution sol m) false
     = (results_header false ++ (report_row false gen sol <$> range N),
        Raise ValueError)).
Proof.
  intros Hm.
  destruct (build_dc_model_vars N BUS lines m Hm)
    as (gen & Hgen & HN & _ & Hvar & _).
  destruct (build_dc_model_objective N BUS lines m Hm) as (gen' & Hgen' & Hobj).
  rewrite Hgen in Hgen'. injection Hgen' as <-.
  destruct (build_dc_model_inv N BUS lines m Hm)
    as (_ & _ & _ & pload & cost & pb & _ & _ & _ & _ & _ & _ & _ & Hsk & _).
  set (m' := load_solution sol m).
  assert (iter_set m' "buses" = Ok (range N)) as Hbuses.
  { apply iter_set_components. unfold m'.
    rewrite components_load_solution.
    rewrite (skeleton_lookup_static m "buses" (CSet (range N)));
      [done| by rewrite Hsk|done]. }
  assert (∀ i, i ∈ range N →
            print_results_row m' false i = ([report_row false gen sol i], Ok tt))
    as Hrows.
  { intros i Hi%elem_of_range. destruct (Hvar i Hi) as [HPg Hth].
    unfold print_results_row, mbind, io_bind, lift, print. unfold m'.
    rewrite !var_data_load_solution, HPg, Hth. cbn [fst snd fmap result_fmap].
    unfold report_row.
    rewrite (shown_Pg_load N gen sol "Pg" i) by (try done; by intros ->).
    rewrite (shown_theta_load sol i) by (try done; by intros ->).
    done. }
  assert (∀ i, i ∈ gen →
            model_val m' "Pg" i
            = match sol "Pg" i with
              | Some v => Ok v
              | None => Raise ValueError
              end) as Hval.
  { intros i Hi.
    destruct (generator_GEN_BUSES N BUS gen i Hgen Hi) as [HiN _].
    destruct (Hvar i HiN) as [HPg _].
    by apply (model_val_load_free N gen sol m "Pg" i _ HPg). }
  assert (objective_value cos sin m' "obj"
          = pyo_value cos sin (model_val m')
              (sum_expr ((λ i, EMul (ENum (cost_b BUS i)) (EVar "Pg" i)) <$> gen)))
    as Hov.
  { apply (objective_value_components _ _ _ _ _ minimize). unfold m'.
    by rewrite components_load_solution, Hobj. }
  exists gen. split; [done|]. split.
  - intros Hsome.
    rewrite (print_results_outcome cos sin m' false (range N)
               (report_row false gen sol) Hbuses Hrows), Hov.
    unfold sum_expr.
    assert (∀ i, i ∈ gen → model_val m' "Pg" i = Ok (or_zero (sol "Pg" i)))
      as Hv.
    { intros i Hi. rewrite (Hval i Hi). by destruct (Hsome i Hi) as [v ->]. }
    by rewrite (pyo_value_linear cos sin (model_val m') gen (cost_b BUS)
                  (λ i, or_zero (sol "Pg" i)) Hv (ENum 0) 0%float eq_refl).
  - intros (k & Hk & Hnone).
    rewrite (print_results_outcome cos sin m' false (range N)
               (report_row false gen sol) Hbuses Hrows), Hov.
    unfold sum_expr.
    assert (pyo_value cos sin (model_val m')
              (foldl EAdd (ENum 0)
                 ((λ i, EMul (ENum (cost_b BUS i)) (EVar "Pg" i)) <$> gen))
            = Raise ValueError) as ->; [|done].
    apply (pyo_value_cost_missing cos sin (model_val m')
             (λ i, EMul (ENum (cost_b BUS i)) (EVar "Pg" i)) gen)
      with (a0 := 0%float); [| | |done].
    + intros i Hi. split.
      * intros Hr. simpl. by rewrite Hr.
      * intros [v Hv]. simpl. rewrite Hv. simpl. eauto.
    + intros i Hi. rewrite (Hval i Hi). destruct (sol "Pg" i); eauto.
    + exists k. split; [done|]. by rewrite (Hval k Hk), Hnone.
Qed.

(** X15. Solving and reporting the DC model: after any solution is loaded
    into a model from [build_dc_model], [print_results(m, ac=False)]
    prints the header and one row per bus, numbered from 1, showing the
    solver's generation at the generator buses and 0 at the others (whatever
    the solver says there), the solver's angle in degrees and 0 at bus 0.
    When the solver has a value for every generator it then prints and
    returns the cost, the sum of [b * Pg] over the generators; when it lacks
    one, [pyo.value] raises [ValueError] after the table has been
    printed. *)
Theorem X15_dc_report (N : nat) (BUS : bus_table) (lines : list (line float))
    (m : model) (sol : solution) (cos sin : float → float) :
  build_dc_model N BUS lines = Ok m →
  ∃ gen,
    GEN_BUSES N BUS = Ok gen ∧
    ((∀ i, i ∈ gen → is_Some (sol "Pg" i)) →
     print_results cos sin (load_solution sol m) false
     = (results_header false ++ (report_row false gen sol <$> range N)
          ++ [cost_line (linear_cost gen (cost_b BUS)
                           (λ i, or_zero (sol "Pg" i)))],
        Ok (linear_cost gen (cost_b BUS) (λ i, or_zero (sol "Pg" i))))) ∧
    ((∃ i, i ∈ gen ∧ sol "Pg" i = None) →
     print_results cos sin (load_solution sol m) false
     = (results_header false ++ (report_row false gen sol <$> range N),
        Raise ValueError)).
Proof. apply dc_report_loaded. Qed.

Lemma X15_witness :
  build_dc_model N_BUS BUS_DATA LINE_DATA = Ok dc_model_5bus ∧
  (print_results (λ x, x) (λ x, x) (load_solution sol_zero dc_model_5bus)
     false).2
  = Ok (linear_cost [0; 1; 2] (cost_b BUS_DATA) (λ _, 0.1%float)).
Proof.
  assert (build_dc_model N_BUS BUS_DATA LINE_DATA = Ok dc_model_5bus) as Hm
    by by vm_compute.
  split; [exact Hm|].
  destruct (X15_dc_report N_BUS BUS_DATA LINE_DATA dc_model_5bus sol_zero
              (λ x, x) (λ x, x) Hm) as (gen & Hgen & Hok & _).
  vm_compute in Hgen. injection Hgen as <-.
  rewrite Hok; [reflexivity|].
  intros i _. unfold sol_zero. case_decide; eauto.
Defined.

Lemma ac_report_loaded (N : nat) (BUS : bus_table) (lines : list (line float))
    (m : model) (sol : solution) (cos sin : float → float) :
  build_ac_model N BUS lines = Ok m →
  ∃ gen,
    GEN_BUSES N BUS = Ok gen ∧
    print_results cos sin (load_solution sol m) true
    = match objective_value cos sin (load_solution sol m) "obj" with
      | Ok cost =>
          (results_header true ++ (report_row true gen sol <$> range N)
             ++ [cost_line cost], Ok cost)
      | Raise e =>
          (results_header true ++ (report_row true gen sol <$> range N),
           Raise e)
      end ∧
    ((∃ i, i ∈ gen ∧ sol "Pg" i = None) →
     ∃ e, objective_value cos sin (load_solution sol m) "obj" = Raise e).
Proof.
  intros Hm.
  destruct (build_ac_model_vars N BUS lines m Hm)
    as (gen & total & Hgen & _ & HN & _ & Hvar & _).
  destruct (build_ac_model_cost N BUS lines m Hm) as (gen' & Hgen' & _ & Hobj).
  rewrite Hgen in Hgen'. injection Hgen' as <-.
  destruct (build_ac_model_inv N BUS lines m Hm)
    as (_ & _ & _ & pload & qload & cost & pb & qb & _ & _ & _ & _ & _ & _ & _
        & _ & Hsk & _).
  set (m' := load_solution sol m).
  assert (iter_set m' "buses" = Ok (range N)) as Hbuses.
  { apply iter_set_components. unfold m'.
    rewrite components_load_solution.
    rewrite (skeleton_lookup_static m "buses" (CSet (range N)));
      [done| by rewrite Hsk|done]. }
  assert (∀ i, i ∈ range N →
            print_results_row m' true i = ([report_row true gen sol i], Ok tt))
    as Hrows.
  { intros i Hi%elem_of_range. destruct (Hvar i Hi) as (HPg & HQg & HV & Hth).
    unfold print_results_row, mbind, io_bind, lift, print. unfold m'.
    rewrite !var_data_load_solution, HPg, HQg, HV, Hth.
    cbn [fst snd fmap result_fmap]. unfold report_row.
    rewrite (shown_Pg_load N gen sol "Pg" i); [|done|done|].
    2:{ simpl. by intros ->. }
    rewrite (shown_Pg_load N gen sol "Qg" i) by (try done; by intros ->).
    rewrite (shown_theta_load sol i) by (try done; by intros ->).
    rewrite (shown_V_load sol i); [done|done|].
    simpl. intros H0%bool_decide_eq_true_1. by rewrite decide_True. }
  exists gen. split; [done|]. split.
  - by rewrite (print_results_outcome cos sin m' true (range N)
                  (report_row true gen sol) Hbuses Hrows).
  - intros (k & Hk & Hnone).
    rewrite (objective_value_components _ _ m' "obj"
               (sum_expr (ac_cost_expr BUS <$> gen)) minimize)
      by (unfold m'; by rewrite components_load_solution, Hobj).
    apply (pyo_value_ac_cost_missing cos sin (model_val m') BUS gen k
             ValueError Hk).
    destruct (generator_GEN_BUSES N BUS gen k Hgen Hk) as [HkN _].
    destruct (Hvar k HkN) as [HPg _].
    unfold m'. rewrite (model_val_load_free N gen sol m "Pg" k _ HPg) by done.
    by rewrite Hnone.
Qed.

(** X16. Solving and reporting the AC model: after any solution is loaded
    into a model from [build_ac_model], [print_results(m, ac=True)] prints
    the header with the two extra columns and one row per bus: generation
    and reactive generation are the solver's at the generator buses and 0
    at the others, the angle is 0 and the voltage 1.06 at bus 0 whatever
    the solver says. Then the objective is evaluated: the number
    [pyo.value] returns is the cost the function prints and returns; when
    [pyo.value] raises, as it does when the solver has no [Pg] for a
    generator bus, the exception leaves the function after the table has
    been printed. *)
Theorem X16_ac_report (N : nat) (BUS : bus_table) (lines : list (line float))
    (m : model) (sol : solution) (cos sin : float → float) :
  build_ac_model N BUS lines = Ok m →
  ∃ gen,
    GEN_BUSES N BUS = Ok gen ∧
    (∀ cost,
       objective_value cos sin (load_solution sol m) "obj" = Ok cost →
       print_results cos sin (load_solution sol m) true
       = (results_header true ++ (report_row true gen sol <$> range N)
            ++ [cost_line cost], Ok cost)) ∧
    (∀ e,
       objective_value cos sin (load_solution sol m) "obj" = Raise e →
       print_results cos sin (load_solution sol m) true
       = (results_header true ++ (report_row true gen sol <$> range N),
          Raise e)) ∧
    ((∃ i, i ∈ gen ∧ sol "Pg" i = None) →
     ∃ e, print_results cos sin (load_solution sol m) true
          = (results_header true ++ (report_row true gen sol <$> range N),
             Raise e)).
Proof.
  intros Hm.
  destruct (ac_report_loaded N BUS lines m sol cos sin Hm)
    as (gen & Hgen & Hprint & Hmiss).
  exists gen. split; [done|]. split; [|split].
  - intros cost Hc. by rewrite Hprint, Hc.
  - intros e He. by rewrite Hprint, He.
  - intros [e He]%Hmiss. exists e. by rewrite Hprint, He.
Qed.

Lemma X16_witness :
  build_ac_model N_BUS BUS_DATA LINE_DATA = Ok ac_model_5bus ∧
  ∃ cost,
    print_results (λ x, x) (λ x, x) (load_solution sol_zero ac_model_5bus) true
    = (results_header true ++ (report_row true [0; 1; 2] sol_zero <$> range 5)
         ++ [cost_line cost], Ok cost).
Proof.
  assert (build_ac_model N_BUS BUS_DATA LINE_DATA = Ok ac_model_5bus) as Hm
    by by vm_compute.
  split; [exact Hm|].
  destruct (X16_ac_report N_BUS BUS_DATA LINE_DATA ac_model_5bus sol_zero
              (λ x, x) (λ x, x) Hm) as (gen & Hgen & Hok & _).
  vm_compute in Hgen. injection Hgen as <-.
  destruct (objective_value (λ x, x) (λ x, x)
              (load_solution sol_zero ac_model_5bus) "obj") as [cost|] eqn:Hc;
    [|by vm_compute in Hc].
  exists cost. exact (Hok cost eq_refl).
Defined.

(** ** The attributes of the models *)

Lemma components_is_Some_skeleton m a :
  is_Some (components m !! a) ↔ is_Some (skeleton m !! a).
Proof. unfold skeleton. by rewrite lookup_fmap, fmap_is_Some. Qed.

Lemma var_data_missing m c i :
  skeleton m !! c = None → var_data m c i = Raise (AttributeError c).
Proof. intros H. unfold var_data. by rewrite getattr_skeleton_None. Qed.

(** X17. The attributes of the two models: [build_ac_model] sets exactly
    [buses], [Pload], [Qload], [Pg], [Qg], [V], [theta], [obj], [p_balance]
    and [q_balance]; [build_dc_model] sets exactly [buses], [Pload], [Pg],
    [theta], [obj] and [p_balance]. A DC model therefore has no voltage:
    [print_results] called on it with [ac=True] (the default) prints the
    header and raises [AttributeError] for [V], before or after a solve. *)
Theorem X17_model_attributes (N : nat) (BUS : bus_table)
    (lines : list (line float)) :
  (∀ m, build_ac_model N BUS lines = Ok m →
     ∀ a, is_Some (components m !! a)
          ↔ a ∈ ["buses"; "Pload"; "Qload"; "Pg"; "Qg"; "V"; "theta"; "obj";
                 "p_balance"; "q_balance"])
  ∧ (∀ m, build_dc_model N BUS lines = Ok m →
       (∀ a, is_Some (components m !! a)
             ↔ a ∈ ["buses"; "Pload"; "Pg"; "theta"; "obj"; "p_balance"]) ∧
       ∀ cos sin,
         print_results cos sin m true
         = (results_header true, Raise (AttributeError "V")) ∧
         ∀ sol, print_results cos sin (load_solution sol m) true
                = (results_header true, Raise (AttributeError "V"))).
Proof.
  split.
  - intros m (_ & _ & _ & pload & qload & cost & pb & qb & _ & _ & _ & _ & _
              & _ & _ & _ & Hsk & _)%build_ac_model_inv a.
    rewrite components_is_Some_skeleton, Hsk. unfold ac_skeleton.
    rewrite !lookup_insert_is_Some', lookup_empty, <- not_eq_None_Some.
    rewrite !elem_of_cons, elem_of_nil. intuition congruence.
  - intros m Hm.
    destruct (build_dc_model_vars N BUS lines m Hm)
      as (gen & Hgen & HN & _ & Hvar & _).
    destruct (build_dc_model_inv N BUS lines m Hm)
      as (_ & _ & _ & pload & cost & pb & _ & _ & _ & _ & _ & _ & _ & Hsk & _).
    split.
    { intros a. rewrite components_is_Some_skeleton, Hsk. unfold dc_skeleton.
      rewrite !lookup_insert_is_Some', lookup_empty, <- not_eq_None_Some.
      rewrite !elem_of_cons, elem_of_nil. intuition congruence. }
    assert (components m !! "buses" = Some (CSet (0 :: seq 1 (N - 1)))) as Hb.
    { rewrite (skeleton_lookup_static m "buses" (CSet (range N)));
        [|by rewrite Hsk|done].
      unfold range. destruct N as [|n]; [lia|]. simpl.
      by rewrite Nat.sub_0_r. }
    assert (skeleton m !! "V" = None) as HV by by rewrite Hsk.
    destruct (Hvar 0 HN) as [HPg Hth].
    intros cos sin. split.
    + apply (print_results_first_row_raises _ _ _ _ 0 (seq 1 (N - 1))).
      * by apply iter_set_components.
      * unfold print_results_row, mbind, io_bind, lift.
        rewrite HPg, Hth. cbn [fst snd].
        by rewrite (var_data_missing m "V").
    + intros sol.
      apply (print_results_first_row_raises _ _ _ _ 0 (seq 1 (N - 1))).
      * apply iter_set_components.
        by rewrite components_load_solution, Hb.
      * unfold print_results_row, mbind, io_bind, lift.
        rewrite !var_data_load_solution, HPg, Hth.
        cbn [fst snd fmap result_fmap].
        by rewrite (var_data_missing m "V").
Qed.

Lemma X17_witness :
  build_dc_model N_BUS BUS_DATA LINE_DATA = Ok dc_model_5bus ∧
  print_results (λ x, x) (λ x, x) dc_model_5bus true
  = (results_header true, Raise (AttributeError "V")).
Proof.
  assert (build_dc_model N_BUS BUS_DATA LINE_DATA = Ok dc_model_5bus) as Hm
    by by vm_compute.
  split; [exact Hm|].
  destruct (proj2 (X17_model_attributes N_BUS BUS_DATA LINE_DATA)
              dc_model_5bus Hm) as [_ H].
  destruct (H (λ x, x) (λ x, x)) as [H1 _]. exact H1.
Defined.

(** ** The reporters of [opf_utils.py] *)

Lemma node_entry_silent m AC nodes i : (node_entry m AC nodes i).1 = [].
Proof.
  unfold node_entry, mbind, io_bind, lift, mret, io_ret.
  destruct (index_component m "x_v_angle" i); cbn [fst snd]; [|done].
  destruct (index_component m "x_p" i); cbn [fst snd]; [|done].
  destruct AC; cbn [fst snd]; [|done].
  destruct (index_component m "x_v" i); cbn [fst snd]; [|done].
  by destruct (index_component m "x_q" i).
Qed.

Lemma io_for_silent {A S : Type} (body : S → A → io S) (xs : list A) (s : S) :
  (∀ s x, (body s x).1 = []) → (io_for xs body s).1 = [].
Proof.
  intros Hb. revert s. induction xs as [|x xs IH]; intros s; [done|].
  simpl. unfold mbind, io_bind. specialize (Hb s x).
  destruct (body s x) as [out [s'|e]]; simpl in *; subst; [|done].
  apply IH.
Qed.


(** X18. [create_results_json] writes the file only when nothing has
    raised: on success its whole effect is one file, named
    [<team>_AC_results.json] or [<team>_DC_results.json] and holding exactly
    the dictionary it returns, followed by one printed line; when it raises
    it has written and printed nothing. The returned dictionary starts with
    [team_name], [model_type] and [nodes], and ends with [total_cost] when
    the model has an objective. *)
Theorem X18_results_file cos sin (m : model) (team : string) (AC : bool) :
  match create_results_json cos sin m team AC with
  | (out, Ok doc) =>
      out = [ WriteFile (results_filename team AC) doc;
              Print [Lit (NL +:+ "Results saved to ");
                     Fmt (PStr (results_filename team AC)) ""] ] ∧
      ∃ nodes rest,
        doc = PDict ([("team_name", PStr team);
                      ("model_type", PStr (if AC then "AC_OPF" else "DC_OPF"));
                      ("nodes", PDict nodes)] ++ rest) ∧
        (rest = [] ∨ ∃ v, rest = [("total_cost", PFloat v)])
  | (out, Raise e) => out = []
  end.
Proof.
  unfold create_results_json, mbind, io_bind, lift, mret, io_ret,
    write_file, print.
  destruct (iter_set m "nodes") as [ids|e]; cbn [fst snd]; [|done].
  pose proof (io_for_silent (node_entry m AC) ids [] (node_entry_silent m AC))
    as Hsilent.
  destruct (io_for ids (node_entry m AC) []) as [out [nodes|e]];
    cbn [fst snd] in *; subst out; [|done].
  destruct (getattr m "objective_function") as [obj|e]; cbn [fst snd]; [|done].
  destruct obj; cbn [fst snd];
    try (split; [done|]; exists nodes, []; split; [done|by left]).
  destruct (objective_value cos sin m "objective_function") as [v|e'];
    cbn [fst snd]; [|done].
  split; [done|]. exists nodes, [("total_cost", PFloat v)].
  split; [done|]. right. by exists v.
Qed.






Lemma iter_set_load_solution sol m a :
  iter_set (load_solution sol m) a = iter_set m a.
Proof.
  unfold iter_set, getattr. rewrite components_load_solution.
  destruct (components m !! a) as [[]|]; done.
Qed.

Lemma index_component_load_solution sol m attr i :
  index_component (load_solution sol m) attr i
  = load_item sol attr i <$> index_component m attr i.
Proof.
  unfold index_component, getattr. rewrite components_load_solution.
  destruct (components m !! attr) as [[xs|d|d|e s|d]|]; simpl; try done.
  - destruct i as [|i]; [done|]. by destruct (xs !! i).
  - unfold getitem. by destruct (d !! i).
  - unfold getitem. rewrite map_lookup_imap. by destruct (d !! i).
  - unfold getitem. by destruct (d !! i).
Qed.

(** X20. [solve_and_print] on a model that has what it reads: it calls
    the solver [conopt] in AC mode and [glpk] in DC mode, prints the
    solution banner, then one table per quantity with one row per node in
    the order of [model.nodes]: the angle and the power, and in AC mode
    only also the magnitude (second) and the reactive power (last). A row
    shows the value loaded from the solver, or [Not solved]. It then prints
    the cost and returns the solver's results object. *)
Theorem X20_solve_and_print cos sin (R : Type)
    (solve : string → model → result (solution * R)) (m : model) (AC : bool)
    (nodes : list nat) (items : string → nat → item) (sol : solution) (r : R)
    (e : expr) (s : sense) (v : float) :
  solve (if AC then "conopt" else "glpk") m = Ok (sol, r) →
  iter_set m "nodes" = Ok nodes →
  (∀ attr i, attr ∈ result_attributes AC → i ∈ nodes →
             index_component m attr i = Ok (items attr i)) →
  components m !! "objective_function" = Some (CObjective e s) →
  pyo_value cos sin (model_val (load_solution sol m)) e = Ok v →
  solve_and_print cos sin R solve m AC
  = (Print [Lit (NL +:+ NL +:+ "Solution" +:+ NL)]
       :: Print [Lit (NL +:+ "Node" +:+ TAB +:+ TAB +:+ "Voltage angle [deg]")]
       :: (entry_row (λ i, load_item sol "x_v_angle" i (items "x_v_angle" i))
             <$> nodes)
       ++ (if AC
           then Print [Lit (NL +:+ "Node" +:+ TAB +:+ TAB +:+ "Voltage magnitude")]
                  :: (entry_row (λ i, load_item sol "x_v" i (items "x_v" i))
                        <$> nodes)
           else [])
       ++ Print [Lit (NL +:+ "Node" +:+ TAB +:+ TAB +:+ "Power")]
       :: (entry_row (λ i, load_item sol "x_p" i (items "x_p" i)) <$> nodes)
       ++ (if AC
           then Print [Lit (NL +:+ "Node" +:+ TAB +:+ TAB +:+ "Reactive Power")]
                  :: (entry_row (λ i, load_item sol "x_q" i (items "x_q" i))
                        <$> nodes)
           else [])
       ++ [Print [Lit (NL +:+ "Cost:  "); Fmt (PFloat v) ""]],
     Ok r).
Proof.
  intros Hsolve Hnodes Hitems Hobj Hv.
  set (m' := load_solution sol m) in *.
  assert (iter_set m' "nodes" = Ok nodes) as Hnodes'
    by (unfold m'; by rewrite iter_set_load_solution).
  assert (∀ attr title, attr ∈ result_attributes AC →
            print_table m' title attr
            = (Print [Lit title]
                 :: (entry_row (λ i, load_item sol attr i (items attr i))
                       <$> nodes), Ok tt)) as Htable.
  { intros attr title Hattr. apply print_table_rows; [done|].
    intros i Hi. unfold m'.
    by rewrite index_component_load_solution, (Hitems attr i Hattr Hi). }
  assert (components m' !! "objective_function" = Some (CObjective e s))
    as Hobj' by (unfold m'; by rewrite components_load_solution, Hobj).
  unfold solve_and_print, mbind at 1, io_bind at 1, lift at 1.
  rewrite Hsolve. cbn [fst snd]. fold m'.
  unfold mbind, io_bind. unfold print at 1. cbn [fst snd].
  rewrite (Htable "x_v_angle")
    by (unfold result_attributes; rewrite elem_of_app, !elem_of_cons; tauto).
  cbn [fst snd].
  rewrite (Htable "x_p")
    by (unfold result_attributes; rewrite elem_of_app, !elem_of_cons; tauto).
  unfold lift, getattr. rewrite Hobj'. cbn [fst snd].
  rewrite (objective_value_components cos sin m' _ e s Hobj'), Hv.
  unfold print, mret, io_ret. cbn [fst snd].
  destruct AC; cbn [fst snd].
  - rewrite (Htable "x_v"), (Htable "x_q")
      by (unfold result_attributes; rewrite elem_of_app, !elem_of_cons; tauto).
    cbn [fst snd]. f_equal; simpl; do 2 f_equal;
      by rewrite ?app_nil_r, <- ?app_assoc, <- ?app_comm_cons, <- ?app_assoc.
  - f_equal; simpl; do 2 f_equal;
      by rewrite ?app_nil_r, <- ?app_assoc, <- ?app_comm_cons, <- ?app_assoc.
Qed.

Lemma X20_witness :
  (solve_and_print (λ x, x) (λ x, x) unit (λ _ _, Ok (sol_zero, tt))
     utils_model false).2 = Ok tt ∧
  solved_row 1 0.1
  ∈ (solve_and_print (λ x, x) (λ x, x) unit (λ _ _, Ok (sol_zero, tt))
       utils_model false).1.
Proof.
  rewrite (X20_solve_and_print (λ x, x) (λ x, x) unit
             (λ _ _, Ok (sol_zero, tt)) utils_model false [0; 1]
             (λ attr i, match index_component utils_model attr i with
                        | Ok x => x
                        | Raise _ => IInt 0
                        end)
             sol_zero tt (EVar "x_p" 0) minimize 0.1%float).
  - split; [reflexivity|]. vm_compute. do 3 right. left.
  - reflexivity.
  - by vm_compute.
  - intros attr i Hattr Hi. unfold result_attributes in Hattr.
    simpl in Hattr. rewrite !elem_of_cons, elem_of_nil in Hattr.
    rewrite !elem_of_cons, elem_of_nil in Hi.
    destruct Hattr as [->|[->|[]]]; destruct Hi as [->|[->|[]]];
      by vm_compute.
  - by vm_compute.
  - by vm_compute.
Defined.

(** ** [main] *)

Lemma io_bind_print {B : Type} text (k : unit → io B) :
  print text ≫= k = (Print text :: (k tt).1, (k tt).2).
Proof. done. Qed.

Lemma io_bind_lift_Ok {A B : Type} (a : A) (k : A → io B) :
  lift (Ok a) ≫= k = ((k a).1, (k a).2).
Proof. done. Qed.

Lemma io_bind_lift_Raise {A B : Type} e (k : A → io B) :
  lift (Raise e) ≫= k = ([], Raise e).
Proof. done. Qed.

Lemma io_bind_pair {A B : Type} out (a : A) (k : A → io B) :
  ((out, Ok a) : io A) ≫= k = (out ++ (k a).1, (k a).2).
Proof. done. Qed.

Lemma io_mret_pair {A : Type} (a : A) : (mret a : io A) = ([], Ok a).
Proof. done. Qed.

Ltac io_step :=
  first [ rewrite io_bind_print | rewrite io_bind_lift_Ok
        | rewrite io_bind_lift_Raise | rewrite io_bind_pair
        | rewrite io_mret_pair ];
  cbv beta; cbn [fst snd].

Section MainFacts.
Variables (cos sin : float → float).
Variable R : Type.
Variable solve : string → model → result (solution * R).
Variable available : string → bool.
Variable termination : R → string.
Variable exn_str : exn → string.
Variables (N : nat) (BUS : bus_table) (lines : list (line float)).

Lemma try_except_ac (body : attempt (option float)) :
  try_except body
    (λ e, _ ← print [Lit (NL +:+ "AC OPF failed: ");
                     Fmt (PStr (str_raised exn_str e)) ""];
          _ ← print [Lit "Ensure NEOS_EMAIL is set and you have internet access."];
          mret None)
  = ((try_part exn_str ac_failure_lines body).1,
     Ok (try_part exn_str ac_failure_lines body).2).
Proof.
  unfold try_except, try_part. by destruct body as [out [e|c]].
Qed.

Lemma try_except_dc (body : attempt (option float)) :
  try_except body
    (λ e, _ ← print [Lit (NL +:+ "DC OPF failed: ");
                     Fmt (PStr (str_raised exn_str e)) ""];
          mret None)
  = ((try_part exn_str dc_failure_lines body).1,
     Ok (try_part exn_str dc_failure_lines body).2).
Proof.
  unfold try_except, try_part. by destruct body as [out [e|c]].
Qed.

(** [main], one statement after the other. *)
Lemma main_outcome :
  main cos sin R solve available termination exn_str N BUS lines
  = match build_ac_model N BUS lines with
    | Raise e => (ac_banner, Raise e)
    | Ok model_ac =>
        let ac := try_part exn_str ac_failure_lines
                    (ac_attempt cos sin R solve termination model_ac) in
        match build_dc_model N BUS lines with
        | Raise e => (ac_banner ++ ac.1 ++ dc_banner, Raise e)
        | Ok model_dc =>
            let dc := try_part exn_str dc_failure_lines
                        (dc_attempt cos sin R solve available termination
                           model_dc) in
            match py_sum (range N) (λ i, bus_field BUS i "Pload") with
            | Raise e =>
                (ac_banner ++ ac.1 ++ dc_banner ++ dc.1 ++ summary_banner,
                 Raise e)
            | Ok total_load =>
                (ac_banner ++ ac.1 ++ dc_banner ++ dc.1 ++ summary_banner
                   ++ summary total_load ac.2 dc.2, Ok tt)
            end
        end
    end.
Proof.
  unfold main.
  set (hac := λ e : raised, print [Lit (NL +:+ "AC OPF failed: "); _] ≫= _).
  set (hdc := λ e : raised, print [Lit (NL +:+ "DC OPF failed: "); _] ≫= _).
  do 3 io_step.
  destruct (build_ac_model N BUS lines) as [model_ac|e]; io_step; [|done].
  subst hac. rewrite try_except_ac. do 4 io_step.
  destruct (build_dc_model N BUS lines) as [model_dc|e]; io_step.
  2:{ unfold ac_banner, dc_banner. simpl. by rewrite ?app_nil_r. }
  subst hdc. rewrite try_except_dc. do 4 io_step.
  destruct (py_sum (range N) _) as [total|e]; io_step.
  2:{ unfold ac_banner, dc_banner, summary_banner. simpl.
      by rewrite ?app_nil_r, <- ?app_assoc. }
  io_step.
  set (ac := try_part exn_str ac_failure_lines _).
  set (dc := try_part exn_str dc_failure_lines _).
  unfold summary, ac_banner, dc_banner, summary_banner.
  destruct (ac.2) as [ca|], (dc.2) as [cd|]; repeat io_step; simpl;
    by rewrite ?app_nil_r.
Qed.
Lemma ac_attempt_solved model_ac sol r :
  solve "ipopt" model_ac = Ok (sol, r) →
  ac_attempt cos sin R solve termination model_ac
  = (status_line (termination r)
       :: (print_results cos sin (load_solution sol model_ac) true).1,
     match (print_results cos sin (load_solution sol model_ac) true).2 with
     | Ok c => inr (Some c)
     | Raise e => inl (Builtin e)
     end).
Proof.
  intros Hs. unfold ac_attempt, run. rewrite Hs. io_step. io_step.
  unfold mbind, io_bind.
  destruct (print_results cos sin (load_solution sol model_ac) true)
    as [out [c|e]]; cbn [fst snd]; [|done].
  by rewrite app_nil_r.
Qed.

Lemma ac_attempt_failed model_ac e :
  solve "ipopt" model_ac = Raise e →
  ac_attempt cos sin R solve termination model_ac = ([], inl (Builtin e)).
Proof. intros Hs. unfold ac_attempt, run. by rewrite Hs. Qed.

Lemma dc_attempt_unavailable model_dc :
  available "appsi_highs" = false →
  dc_attempt cos sin R solve available termination model_dc
  = ([], inl (RuntimeError "HiGHS not available. Install: pip install highspy")).
Proof. intros Ha. unfold dc_attempt. by rewrite Ha. Qed.

Lemma dc_attempt_solved model_dc sol r :
  available "appsi_highs" = true →
  solve "appsi_highs" model_dc = Ok (sol, r) →
  dc_attempt cos sin R solve available termination model_dc
  = (status_line (termination r)
       :: (print_results cos sin (load_solution sol model_dc) false).1,
     match (print_results cos sin (load_solution sol model_dc) false).2 with
     | Ok c => inr (Some c)
     | Raise e => inl (Builtin e)
     end).
Proof.
  intros Ha Hs. unfold dc_attempt, run. rewrite Ha, Hs. simpl negb. cbv iota.
  io_step. io_step. unfold mbind, io_bind.
  destruct (print_results cos sin (load_solution sol model_dc) false)
    as [out [c|e]]; cbn [fst snd]; [|done].
  by rewrite app_nil_r.
Qed.

Lemma dc_attempt_failed model_dc e :
  available "appsi_highs" = true →
  solve "appsi_highs" model_dc = Raise e →
  dc_attempt cos sin R solve available termination model_dc
  = ([], inl (Builtin e)).
Proof. intros Ha Hs. unfold dc_attempt, run. by rewrite Ha, Hs. Qed.

(** The script, when [build_ac_model] returns. *)
Lemma run_script_built model_ac :
  build_ac_model N BUS lines = Ok model_ac →
  ∃ model_dc total_load,
    build_dc_model N BUS lines = Ok model_dc ∧
    py_sum (range N) (λ i, bus_field BUS i "Pload") = Ok total_load ∧
    run_script cos sin R solve available termination exn_str N BUS lines
    = (ac_banner
         ++ (try_part exn_str ac_failure_lines
               (ac_attempt cos sin R solve termination model_ac)).1
         ++ dc_banner
         ++ (try_part exn_str dc_failure_lines
               (dc_attempt cos sin R solve available termination model_dc)).1
         ++ summary_banner
         ++ summary total_load
              (try_part exn_str ac_failure_lines
                 (ac_attempt cos sin R solve termination model_ac)).2
              (try_part exn_str dc_failure_lines
                 (dc_attempt cos sin R solve available termination
                    model_dc)).2,
       Ok tt).
Proof.
  intros Hac.
  destruct (build_ac_then_dc N BUS lines model_ac Hac) as [model_dc Hdc].
  destruct (build_ac_model_vars N BUS lines model_ac Hac)
    as (gen & total & Hgen & Htotal & _).
  exists model_dc, total. split; [done|]. split; [done|].
  unfold run_script. rewrite Hgen. io_step.
  by rewrite main_outcome, Hac, Hdc, Htotal.
Qed.
End MainFacts.

(** X21. The script ends as [build_ac_model] does: if the builder raises,
    the script raises the same exception (the builders are called outside
    the [try] blocks); if it returns, the script returns normally whatever
    the solvers and [print_results] do, and then the DC model has been built
    and the summary printed. No failure of a solver is ever raised to the
    caller. *)
Theorem X21_script_outcome cos sin (R : Type)
    (solve : string → model → result (solution * R))
    (available : string → bool) (termination : R → string)
    (exn_str : exn → string) (N : nat) (BUS : bus_table)
    (lines : list (line float)) :
  (run_script cos sin R solve available termination exn_str N BUS lines).2
  = (λ _, tt) <$> build_ac_model N BUS lines.
Proof.
  destruct (build_ac_model N BUS lines) as [m|e] eqn:Hac.
  - destruct (run_script_built cos sin R solve available termination exn_str
                N BUS lines m Hac) as (m' & total & _ & _ & ->). done.
  - unfold run_script.
    destruct (GEN_BUSES N BUS) as [gen|e'] eqn:Hgen.
    + io_step. by rewrite main_outcome, Hac.
    + unfold build_ac_model in Hac. rewrite Hgen in Hac. simpl in Hac.
      by injection Hac as <-.
Qed.


(** X22. Failures of the solvers are reported, not raised. When
    [build_ac_model] returns, the script prints the AC part, the DC part and
    the summary with the total load. If the NEOS solve raises, the AC part
    is the line [AC OPF failed: <message>] and the hint about [NEOS_EMAIL],
    the DC part is run all the same, and the summary has no AC cost. If
    HiGHS is not available the DC solver is not called: the DC part is the
    line [DC OPF failed: HiGHS not available. Install: pip install highspy];
    if its solve raises, the line carries that message. *)
Theorem X22_failures_reported cos sin (R : Type)
    (solve : string → model → result (solution * R))
    (available : string → bool) (termination : R → string)
    (exn_str : exn → string) (N : nat) (BUS : bus_table)
    (lines : list (line float)) (model_ac : model) :
  build_ac_model N BUS lines = Ok model_ac →
  ∃ model_dc total_load,
    build_dc_model N BUS lines = Ok model_dc ∧
    py_sum (range N) (λ i, bus_field BUS i "Pload") = Ok total_load ∧
    let dc := try_part exn_str dc_failure_lines
                (dc_attempt cos sin R solve available termination model_dc) in
    (∀ e, solve "ipopt" model_ac = Raise e →
       run_script cos sin R solve available termination exn_str N BUS lines
       = (ac_banner ++ ac_failure_lines (exn_str e) ++ dc_banner ++ dc.1
            ++ summary_banner ++ summary total_load None dc.2, Ok tt)) ∧
    (available "appsi_highs" = false →
     dc = (dc_failure_lines "HiGHS not available. Install: pip install highspy",
           None)) ∧
    (available "appsi_highs" = true →
     ∀ e, solve "appsi_highs" model_dc = Raise e →
          dc = (dc_failure_lines (exn_str e), None)).
Proof.
  intros Hac.
  destruct (run_script_built cos sin R solve available termination exn_str
              N BUS lines model_ac Hac) as (model_dc & total & Hdc & Ht & Hrun).
  exists model_dc, total. split; [done|]. split; [done|]. cbv zeta.
  split; [|split].
  - intros e He. rewrite Hrun.
    by rewrite (ac_attempt_failed cos sin R solve termination model_ac e He).
  - intros Ha. by rewrite (dc_attempt_unavailable cos sin R solve available
                             termination model_dc Ha).
  - intros Ha e He.
    by rewrite (dc_attempt_failed cos sin R solve available termination
                  model_dc e Ha He).
Qed.

Lemma X22_witness :
  run_script (λ x, x) (λ x, x) unit solver_unavailable (λ _, false)
    (λ _, "optimal") (λ _, "no solver") N_BUS BUS_DATA LINE_DATA
  = (ac_banner ++ ac_failure_lines "no solver" ++ dc_banner
       ++ dc_failure_lines "HiGHS not available. Install: pip install highspy"
       ++ summary_banner ++ summary 1.65 None None, Ok tt).
Proof.
  destruct (build_ac_model N_BUS BUS_DATA LINE_DATA) as [m|] eqn:Hac;
    [|by vm_compute in Hac].
  destruct (X22_failures_reported (λ x, x) (λ x, x) unit solver_unavailable
              (λ _, false) (λ _, "optimal") (λ _, "no solver")
              N_BUS BUS_DATA LINE_DATA m Hac)
    as (model_dc & total & _ & Ht & Hrun & Hdc & _).
  rewrite (Hrun (SolverError "No executable found for solver") eq_refl).
  rewrite (Hdc eq_refl). cbn [fst snd].
  vm_compute in Ht. injection Ht as <-. reflexivity.
Defined.

(** X23. The script when both solves succeed. If the NEOS solve returns a
    solution at which [pyo.value] gives the AC objective a number, and the
    HiGHS solve a solution with a generation for every generator bus, the
    script prints, in this order: the AC banner, the AC solver status, the
    AC table and cost, the DC banner, the DC solver status, the DC table
    and cost, and the summary with the total load, the AC cost (that value
    of the AC objective) and the DC cost (the linear cost of the DC
    solution); it returns normally. *)
Theorem X23_script_success cos sin (R : Type)
    (solve : string → model → result (solution * R))
    (available : string → bool) (termination : R → string)
    (exn_str : exn → string) (N : nat) (BUS : bus_table)
    (lines : list (line float)) (model_ac model_dc : model)
    (gen : list nat) (sol_ac sol_dc : solution) (r_ac r_dc : R)
    (c_ac : float) :
  build_ac_model N BUS lines = Ok model_ac →
  build_dc_model N BUS lines = Ok model_dc →
  GEN_BUSES N BUS = Ok gen →
  solve "ipopt" model_ac = Ok (sol_ac, r_ac) →
  objective_value cos sin (load_solution sol_ac model_ac) "obj" = Ok c_ac →
  available "appsi_highs" = true →
  solve "appsi_highs" model_dc = Ok (sol_dc, r_dc) →
  (∀ i, i ∈ gen → is_Some (sol_dc "Pg" i)) →
  ∃ total_load,
    py_sum (range N) (λ i, bus_field BUS i "Pload") = Ok total_load ∧
    let c_dc := linear_cost gen (cost_b BUS) (λ i, or_zero (sol_dc "Pg" i)) in
    run_script cos sin R solve available termination exn_str N BUS lines
    = (ac_banner
         ++ (status_line (termination r_ac)
               :: results_header true
               ++ (report_row true gen sol_ac <$> range N)
               ++ [cost_line c_ac])
         ++ dc_banner
         ++ (status_line (termination r_dc)
               :: results_header false
               ++ (report_row false gen sol_dc <$> range N)
               ++ [cost_line c_dc])
         ++ summary_banner
         ++ summary total_load (Some c_ac) (Some c_dc),
       Ok tt).
Proof.
  intros Hac Hdc Hgen Hsac Hcac Hav Hsdc Hvdc.
  destruct (run_script_built cos sin R solve available termination exn_str
              N BUS lines model_ac Hac) as (model_dc' & total & Hdc' & Ht & Hrun).
  rewrite Hdc in Hdc'. injection Hdc' as <-.
  exists total. split; [done|]. cbv zeta. rewrite Hrun.
  rewrite (ac_attempt_solved cos sin R solve termination model_ac sol_ac r_ac
             Hsac).
  rewrite (dc_attempt_solved cos sin R solve available termination model_dc
             sol_dc r_dc Hav Hsdc).
  destruct (ac_report_loaded N BUS lines model_ac sol_ac cos sin Hac)
    as (gen' & Hgen' & Hprint_ac & _).
  rewrite Hgen in Hgen'. injection Hgen' as <-.
  destruct (dc_report_loaded N BUS lines model_dc sol_dc cos sin Hdc)
    as (gen' & Hgen' & Hprint_dc & _).
  rewrite Hgen in Hgen'. injection Hgen' as <-.
  rewrite Hprint_ac, Hcac, (Hprint_dc Hvdc).
  unfold try_part. cbn [fst snd]. done.
Qed.

Lemma X23_witness :
  ∃ total_load,
    py_sum (range N_BUS) (λ i, bus_field BUS_DATA i "Pload") = Ok total_load ∧
    (run_script (λ x, x) (λ x, x) unit (λ _ _, Ok (sol_zero, tt)) (λ _, true)
       (λ _, "optimal") (λ _, "error") N_BUS BUS_DATA LINE_DATA).2
    = Ok tt.
Proof.
  assert (build_ac_model N_BUS BUS_DATA LINE_DATA = Ok ac_model_5bus) as Hac
    by by vm_compute.
  assert (build_dc_model N_BUS BUS_DATA LINE_DATA = Ok dc_model_5bus) as Hdc
    by by vm_compute.
  assert (GEN_BUSES N_BUS BUS_DATA = Ok [0; 1; 2]) as Hgen by by vm_compute.
  destruct (objective_value (λ x, x) (λ x, x)
              (load_solution sol_zero ac_model_5bus) "obj") as [c_ac|] eqn:Hc;
    [|by vm_compute in Hc].
  assert (∀ i, i ∈ [0; 1; 2] → is_Some (sol_zero "Pg" i)) as Hv.
  { intros i _. unfold sol_zero. case_decide; eauto. }
  destruct (X23_script_success (λ x, x) (λ x, x) unit
              (λ _ _, Ok (sol_zero, tt)) (λ _, true) (λ _, "optimal")
              (λ _, "error") N_BUS BUS_DATA LINE_DATA ac_model_5bus
              dc_model_5bus [0; 1; 2] sol_zero sol_zero tt tt c_ac
              Hac Hdc Hgen eq_refl Hc eq_refl eq_refl Hv)
    as (total & Ht & Hrun).
  exists total. split; [exact Ht|]. cbv zeta in Hrun. rewrite Hrun.
  reflexivity.
Defined.
